(** * A shallow embedding of the semantic metrics engine (src/semanticEngine.ts)

    The development follows the source file top to bottom:
    - [Js]: the fragment of JavaScript the engine runs on (numbers, primitive
      values, plain objects with their property enumeration order, the
      comparison operators and [JSON.stringify]);
    - [Linq]: the row-set operations the engine calls on the [linq] package;
    - the engine itself: [formatValue], [matchesFilter], [applyContextToFact],
      [pick], [enrichDimensions], [cacheKey], [evaluateMetric],
      [evaluateMetrics] and [runQuery];
    - the demo data set of the source, used for concrete evaluations;
    - the theorems. *)

From Stdlib Require Import QArith Qcanon Ascii.
From stdpp Require Import base gmap strings list pretty sorting.

Local Open Scope string_scope.
Local Open Scope list_scope.

(* ===================================================================== *)
(** ** The JavaScript fragment                                            *)
(* ===================================================================== *)

Module Js.

(** A JavaScript number.  The engine only adds, divides by a row count and
    compares, so numbers are modelled exactly: [NaN] or a rational.
    Infinities and rounding are outside the model. *)
Inductive number :=
| NaN
| Fin (q : Qc).

(** Primitive values: the content of a fact-row cell, of a dimension value, of
    a range bound and of a formatted output cell. *)
Inductive Prim :=
| PUndefined
| PNull
| PBool (b : bool)
| PNum (n : number)
| PStr (s : string).

(** Conversions between numbers and strings are built-ins of the language, not
    code of the engine; they are taken as an interface. *)
Class Builtins := {
  (** [Number::toString] on a finite number (also used by [JSON.stringify]
      and by [String(n)]) *)
  NumberToString : Qc → string;
  (** [Number.prototype.toFixed] *)
  NumberToFixed : Qc → nat → string;
  (** [ToNumber] applied to a string *)
  StringToNumber : string → number
}.

Definition num_of_Z (z : Z) : number := Fin (Q2Qc (inject_Z z)).

Definition number_add (a b : number) : number :=
  match a, b with
  | Fin x, Fin y => Fin (x + y)%Qc
  | _, _ => NaN
  end.

(** [a < b] on numbers; [None] is the "undefined" answer of the abstract
    relational comparison when an operand is [NaN]. *)
Definition number_lt (a b : number) : option bool :=
  match a, b with
  | Fin x, Fin y => Some (bool_decide (x < y)%Qc)
  | _, _ => None
  end.

Definition isNaN (n : number) : bool :=
  match n with NaN => true | Fin _ => false end.

Section WithBuiltins.
Context `{Builtins}.

(** [ToNumber], as used by [Number(x)] and by the relational operators. *)
Definition ToNumber (p : Prim) : number :=
  match p with
  | PUndefined => NaN
  | PNull => Fin 0%Qc
  | PBool true => Fin 1%Qc
  | PBool false => Fin 0%Qc
  | PNum n => n
  | PStr s => StringToNumber s
  end.

(** The abstract relational comparison [a < b]: two strings are compared by
    code units, everything else numerically. *)
Definition IsLessThan (a b : Prim) : option bool :=
  match a, b with
  | PStr s, PStr t => Some (String.ltb s t)
  | _, _ => number_lt (ToNumber a) (ToNumber b)
  end.

(** The four relational operators. *)
Definition lt (a b : Prim) : bool :=
  match IsLessThan a b with Some true => true | _ => false end.
Definition gt (a b : Prim) : bool :=
  match IsLessThan b a with Some true => true | _ => false end.
Definition le (a b : Prim) : bool :=
  match IsLessThan b a with Some false => true | _ => false end.
Definition ge (a b : Prim) : bool :=
  match IsLessThan a b with Some false => true | _ => false end.

End WithBuiltins.

(** [a === b] on primitives. *)
Definition strict_eq (a b : Prim) : bool :=
  match a, b with
  | PUndefined, PUndefined => true
  | PNull, PNull => true
  | PBool x, PBool y => Bool.eqb x y
  | PNum (Fin x), PNum (Fin y) => bool_decide (x = y)
  | PStr s, PStr t => String.eqb s t
  | _, _ => false
  end.

(** [x == null]: [x] is [undefined] or [null]. *)
Definition nullish (p : Prim) : bool :=
  match p with PUndefined | PNull => true | _ => false end.

(** [a ?? b] *)
Definition coalesce (a b : Prim) : Prim := if nullish a then b else a.

(** [!x] on primitives. *)
Definition falsy (p : Prim) : bool :=
  match p with
  | PUndefined | PNull | PBool false | PNum NaN | PStr "" => true
  | PNum (Fin q) => bool_decide (q = 0%Qc)
  | _ => false
  end.

(** *** Plain objects

    An object is the list of its own properties in enumeration order: array
    index keys first, in ascending numeric order, then the other keys in
    insertion order.  Prototype properties are not modelled. *)
Definition Obj (A : Type) := list (string * A).

Definition digit_of (c : ascii) : option N :=
  let n := N_of_ascii c in
  if ((48 <=? n) && (n <=? 57))%N then Some (n - 48)%N else None.

Fixpoint parse_digits (s : string) (acc : N) : option N :=
  match s with
  | EmptyString => Some acc
  | String c s' =>
      match digit_of c with
      | Some d => parse_digits s' (acc * 10 + d)%N
      | None => None
      end
  end.

(** A key is an array index when it is the canonical decimal spelling of an
    integer below 2^32 - 1. *)
Definition array_index (k : string) : option N :=
  match k with
  | EmptyString => None
  | _ =>
      match parse_digits k 0 with
      | Some n =>
          if bool_decide (pretty n = k) && (n <? 4294967295)%N
          then Some n else None
      | None => None
      end
  end.

Section Objects.
Context {A : Type}.

(** [o[k]] for an own property; [None] when [k] is not a property of [o]. *)
Fixpoint obj_get (k : string) (o : Obj A) : option A :=
  match o with
  | [] => None
  | (k', v) :: o' => if String.eqb k' k then Some v else obj_get k o'
  end.

(** [k in o] *)
Definition obj_has (k : string) (o : Obj A) : bool :=
  match obj_get k o with Some _ => true | None => false end.

(** Overwrite the value of an existing property, keeping its position. *)
Fixpoint obj_update (k : string) (v : A) (o : Obj A) : Obj A :=
  match o with
  | [] => []
  | (k', v') :: o' =>
      if String.eqb k' k then (k', v) :: o' else (k', v') :: obj_update k v o'
  end.

(** Insert a new array-index property at its numeric position. *)
Fixpoint obj_insert_index (i : N) (k : string) (v : A) (o : Obj A) : Obj A :=
  match o with
  | [] => [(k, v)]
  | (k', v') :: o' =>
      match array_index k' with
      | Some j =>
          if (j <? i)%N then (k', v') :: obj_insert_index i k v o'
          else (k, v) :: o
      | None => (k, v) :: o
      end
  end.

(** [o[k] = v] *)
Definition obj_set (k : string) (v : A) (o : Obj A) : Obj A :=
  if obj_has k o then obj_update k v o
  else match array_index k with
       | Some i => obj_insert_index i k v o
       | None => o ++ [(k, v)]
       end.

(** The object obtained by assigning the pairs of [l], in order, to [init]:
    an object literal, a spread, the result of [JSON.parse]. *)
Definition obj_assign (init : Obj A) (l : list (string * A)) : Obj A :=
  fold_left (λ o kv, obj_set kv.1 kv.2 o) l init.

(** [{ ...a, ...b }] *)
Definition obj_spread2 (a b : Obj A) : Obj A := obj_assign (obj_assign [] a) b.

(** [Object.keys(o)] *)
Definition obj_keys (o : Obj A) : list string := map fst o.

End Objects.

(** [xs.includes(k)] on an array of strings. *)
Definition includes (xs : list string) (k : string) : bool :=
  existsb (String.eqb k) xs.

(** *** JSON.stringify *)

Definition dquote : ascii := "034"%char.
Definition backslash : ascii := "092"%char.

Definition hex_digit (n : N) : ascii :=
  ascii_of_N (if (n <? 10)%N then 48 + n else 87 + n)%N.

(** The escape of one character inside a JSON string. *)
Definition json_escape_char (c : ascii) : string :=
  let n := N_of_ascii c in
  if Ascii.eqb c dquote then String backslash (String dquote "")
  else if Ascii.eqb c backslash then String backslash (String backslash "")
  else if (n =? 8)%N then String backslash "b"
  else if (n =? 9)%N then String backslash "t"
  else if (n =? 10)%N then String backslash "n"
  else if (n =? 12)%N then String backslash "f"
  else if (n =? 13)%N then String backslash "r"
  else if (n <? 32)%N then
    String backslash
      ("u00" +:+ String (hex_digit (n / 16)) (String (hex_digit (n mod 16)) ""))
  else String c "".

Fixpoint json_escape (s : string) : string :=
  match s with
  | EmptyString => ""
  | String c s' => json_escape_char c +:+ json_escape s'
  end.

(** [QuoteJSONString] *)
Definition json_quote (s : string) : string :=
  String dquote (json_escape s +:+ String dquote "").

Fixpoint join (sep : string) (l : list string) : string :=
  match l with
  | [] => ""
  | [x] => x
  | x :: l' => x +:+ sep +:+ join sep l'
  end.

(** The serialization of an object, given the serialization of its values;
    a property whose value has no serialization ([undefined], a function) is
    left out. *)
Definition json_object {A} (ser : A → option string) (o : Obj A) : string :=
  "{" +:+ join ","
           (omap (λ kv, s ← ser kv.2; Some (json_quote kv.1 +:+ ":" +:+ s)) o)
      +:+ "}".

(** The serialization of an array: a hole serializes as [null]. *)
Definition json_array {A} (ser : A → option string) (l : list A) : string :=
  "[" +:+ join "," (map (λ v, default "null" (ser v)) l) +:+ "]".

Section Stringify.
Context `{Builtins}.

Definition json_prim (p : Prim) : option string :=
  match p with
  | PUndefined => None
  | PNull => Some "null"
  | PBool true => Some "true"
  | PBool false => Some "false"
  | PNum NaN => Some "null"
  | PNum (Fin q) => Some (NumberToString q)
  | PStr s => Some (json_quote s)
  end.

End Stringify.

(** [JSON.parse(JSON.stringify(o))] for an object of primitives: the text of
    [o] lists its properties in order, without the undefined ones and with
    [null] for [NaN]; parsing defines them in that order on a fresh object. *)
Definition json_roundtrip_prim (p : Prim) : option Prim :=
  match p with
  | PUndefined => None
  | PNum NaN => Some PNull
  | _ => Some p
  end.

Definition json_roundtrip (o : Obj Prim) : Obj Prim :=
  obj_assign [] (omap (λ kv, v ← json_roundtrip_prim kv.2; Some (kv.1, v)) o).

End Js.

(* ===================================================================== *)
(** ** The row-set operations of the [linq] package                       *)
(* ===================================================================== *)

Module Linq.
Import Js.

(** Modelled from the spec: the queryable row set is an external package
    ([linq]); only its calls are in the source.  A sequence is the list of
    its elements in order, and [where] keeps the elements that satisfy the
    predicate, in order. *)
Definition where_ {A} (p : A → bool) (q : list A) : list A := List.filter p q.

(** Modelled from the spec: [sum] adds the selected values, starting from 0. *)
Definition sum {A} (selector : A → number) (q : list A) : number :=
  fold_left (λ acc x, number_add acc (selector x)) q (Fin 0%Qc).

(** Modelled from the spec: [count] is the number of elements. *)
Definition count {A} (q : list A) : number := num_of_Z (Z.of_nat (length q)).

(** Modelled from the spec: [average] divides the sum by the number of
    elements; on the empty sequence that is 0/0, [NaN]. *)
Definition average {A} (selector : A → number) (q : list A) : number :=
  match q, sum selector q with
  | [], _ => NaN
  | _ :: _, Fin s => Fin (s / Q2Qc (inject_Z (Z.of_nat (length q))))%Qc
  | _ :: _, NaN => NaN
  end.

(** Modelled from the spec: [groupBy] lists the groups in the order in which
    their keys first occur, each with its members in order. *)
Fixpoint group_add {A} (key : string) (x : A) (gs : list (string * list A))
  : list (string * list A) :=
  match gs with
  | [] => [(key, [x])]
  | (k, xs) :: gs' =>
      if String.eqb k key then (k, xs ++ [x]) :: gs'
      else (k, xs) :: group_add key x gs'
  end.

Definition groupBy {A} (keySelector : A → string) (q : list A)
  : list (string * list A) :=
  fold_left (λ gs x, group_add (keySelector x) x gs) q [].

End Linq.

(* ===================================================================== *)
(** ** The engine: data model                                             *)
(* ===================================================================== *)

Import Js.

(** [Row = Record<string, any>]: the cells of a row are primitives. *)
Definition Row := Obj Prim.

(** [FilterValue = FilterPrimitive | FilterRange].  At run time a filter is
    whatever the caller stored in the context, so the two shapes the source
    tests for are there as well: an array, and a function (which is what
    [runQuery] hands over, see below). *)
Inductive FilterValue :=
| FPrim (p : Prim)
| FRange (f : Obj Prim)
| FArray (items : list Prim)
| FFunction.

Definition FilterContext := Obj FilterValue.

Record InMemoryDb := {
  dimensions : gmap string (list Row);
  facts : gmap string (list Row)
}.

Record FactMeasureDefinition := {
  column : string;
  defaultAgg : string;
  measure_format : option string
}.

Record FactTableDefinition := {
  table_grain : list string;
  measures : gmap string FactMeasureDefinition
}.

Definition FactTableRegistry := gmap string FactTableDefinition.

Record DimensionConfigEntry := {
  table : string;
  key : string;
  labelProp : string;
  labelAlias : string
}.

Definition DimensionConfig := Obj DimensionConfigEntry.

(** [number | null] *)
Definition MetricValue := option number.

Record FactMeasureMetric := {
  fm_name : string;
  fm_format : option string;
  factTable : string;
  factColumn : string;
  agg : option string;
  fm_grain : option (list string)
}.

Record ExpressionMetric := {
  ex_name : string;
  ex_format : option string;
  ex_factTable : string;
  ex_grain : option (list string);
  expression : list Row → InMemoryDb → FilterContext → MetricValue
}.

Record DerivedMetric := {
  dv_name : string;
  dv_format : option string;
  dependencies : list string;
  evalFromDeps : Obj MetricValue → InMemoryDb → FilterContext → MetricValue
}.

Record ContextTransformMetric := {
  ct_name : string;
  ct_format : option string;
  baseMeasure : string;
  transform : string
}.

Inductive MetricDefinition :=
| factMeasure (def : FactMeasureMetric)
| expressionMetric (def : ExpressionMetric)
| derived (def : DerivedMetric)
| contextTransform (def : ContextTransformMetric).

Definition metric_format (def : MetricDefinition) : option string :=
  match def with
  | factMeasure d => fm_format d
  | expressionMetric d => ex_format d
  | derived d => dv_format d
  | contextTransform d => ct_format d
  end.

Definition MetricRegistry := gmap string MetricDefinition.

Definition ContextTransformFn := FilterContext → FilterContext.

(** An entry of the object passed as [transforms]: a function for a
    well-typed registry, any other value otherwise. *)
Inductive TransformEntry :=
| TFn (f : ContextTransformFn)
| TValue (v : FilterValue).

Definition ContextTransformsRegistry := Obj TransformEntry.

(** The same object read at the other type: [runQuery] passes its transforms
    registry where a filter context is expected and its row context where a
    registry is expected. *)
Definition context_of_transforms (t : ContextTransformsRegistry) : FilterContext :=
  map (λ kv, (kv.1, match kv.2 with TFn _ => FFunction | TValue v => v end)) t.

Definition transforms_of_context (c : FilterContext) : ContextTransformsRegistry :=
  map (λ kv, (kv.1, TValue kv.2)) c.

(* ===================================================================== *)
(** ** The engine: helpers                                                *)
(* ===================================================================== *)

Section Engine.
Context `{Builtins}.

(** [formatValue] *)
Definition formatValue (value : MetricValue) (format : option string) : Prim :=
  match value with
  | None => PNull
  | Some NaN => PNull
  | Some (Fin n) =>
      let fmt := default "" format in
      if String.eqb fmt "currency" then PStr ("$" +:+ NumberToFixed n 2)
      else if String.eqb fmt "integer" then PStr (NumberToFixed n 0)
      else if String.eqb fmt "percent" then PStr (NumberToFixed n 2 +:+ "%")
      else PStr (NumberToString n)
  end.

(** [f.b != null] for a bound [b] of the range [f]. *)
Definition bound (f : Obj Prim) (b : string) : option Prim :=
  match obj_get b f with
  | Some p => if nullish p then None else Some p
  | None => None
  end.

(** [matchesFilter] *)
Definition matchesFilter (value : Prim) (filter : FilterValue) : bool :=
  match filter with
  | FRange f =>
      if obj_has "from" f || obj_has "to" f then
        if (match bound f "from" with Some b => lt value b | None => false end)
        then false
        else if (match bound f "to" with Some b => gt value b | None => false end)
        then false
        else true
      else
        if (match bound f "gte" with Some b => lt value b | None => false end)
        then false
        else if (match bound f "lte" with Some b => gt value b | None => false end)
        then false
        else if (match bound f "gt" with Some b => le value b | None => false end)
        then false
        else if (match bound f "lt" with Some b => ge value b | None => false end)
        then false
        else true
  | FPrim p => strict_eq value p
  | FArray _ => false
  | FFunction => false
  end.

(** [r[key]] on a row: [undefined] for a missing column. *)
Definition cell (r : Row) (k : string) : Prim := default PUndefined (obj_get k r).

Definition filter_nullish (filter : FilterValue) : bool :=
  match filter with FPrim p => nullish p | _ => false end.

(** [applyContextToFact] *)
Definition applyContextToFact (rows : list Row) (context : FilterContext)
    (grain : list string) : list Row :=
  fold_left
    (λ q entry,
       let '(key, filter) := entry in
       if filter_nullish filter then q
       else if negb (includes grain key) then q
       else Linq.where_ (λ r, matchesFilter (cell r key) filter) q)
    context rows.

(** [pick] *)
Definition pick (obj : Row) (keys : list string) : Row :=
  fold_left
    (λ out k,
       match cell obj k with
       | PUndefined => out
       | v => obj_set k v out
       end)
    keys [].

(** [enrichDimensions] *)
Definition enrichDimensions (keyObj : Row) (db : InMemoryDb)
    (dimensionConfig : DimensionConfig) : Row :=
  fold_left
    (λ result entry,
       let '(dimKey, cfg) := entry in
       if nullish (cell keyObj dimKey) then result
       else match dimensions db !! table cfg with
            | None => result
            | Some dimTable =>
                match List.find (λ d, strict_eq (cell d (key cfg)) (cell keyObj dimKey))
                        dimTable with
                | Some match_ => obj_set (labelAlias cfg) (cell match_ (labelProp cfg)) result
                | None => result
                end
            end)
    dimensionConfig (obj_assign [] keyObj).

(** [JSON.stringify] of a filter value and of a context. *)
Definition json_filter (v : FilterValue) : option string :=
  match v with
  | FPrim p => json_prim p
  | FRange f => Some (json_object json_prim f)
  | FArray items => Some (json_array json_prim items)
  | FFunction => None
  end.

(** [cacheKey] *)
Definition cacheKey (metricName : string) (context : FilterContext) : string :=
  metricName +:+ "::" +:+ json_object json_filter context.

End Engine.

(* ===================================================================== *)
(** ** The engine: evaluation                                             *)
(* ===================================================================== *)

(** The errors the engine throws, one constructor per message of the source;
    [TypeError] is the run-time error of calling a value that is not a
    function or of reading a property of [undefined]. *)
Inductive Error :=
| UnknownMetric (metricName : string)
| UnknownFactTable (factTable : string)
| MissingRows (factTable : string)
| UnknownFactColumn (factColumn factTable : string)
| UnsupportedAggregation (agg : string)
| UnknownContextTransform (transform : string)
| TypeError.

Inductive Outcome (A : Type) :=
| Ok (a : A)
| Throw (e : Error)
| OutOfFuel.
Arguments Ok {A} a.
Arguments Throw {A} e.
Arguments OutOfFuel {A}.

(** What an instrumented run records: each call of an aggregation of the row
    set and each call of a function supplied by the caller. *)
Inductive Event :=
| Aggregated (metricName : string)
| ExpressionCalled (metricName : string)
| CombinatorCalled (metricName : string)
| TransformCalled (transform : string).

(** The state an evaluation threads: the cache (a [Map<string, number | null>])
    and the record of calls. *)
Record EvalState := {
  cache : gmap string MetricValue;
  calls : list Event
}.

(** [new Map()] and nothing called yet. *)
Definition new_cache : EvalState := {| cache := ∅; calls := [] |}.

Definition M (A : Type) : Type := EvalState → Outcome (A * EvalState).

Definition ret {A} (a : A) : M A := λ st, Ok (a, st).

Definition bind {A B} (m : M A) (k : A → M B) : M B :=
  λ st, match m st with
        | Ok (a, st') => k a st'
        | Throw e => Throw e
        | OutOfFuel => OutOfFuel
        end.

Definition throw {A} (e : Error) : M A := λ _, Throw e.

Definition out_of_fuel {A} : M A := λ _, OutOfFuel.

Definition cache_get (k : string) : M (option MetricValue) :=
  λ st, Ok (cache st !! k, st).

Definition cache_set (k : string) (v : MetricValue) : M unit :=
  λ st, Ok (tt, {| cache := <[k := v]> (cache st); calls := calls st |}).

Definition record (e : Event) : M unit :=
  λ st, Ok (tt, {| cache := cache st; calls := calls st ++ [e] |}).

Definition or_throw {A} (o : option A) (e : Error) : M A :=
  match o with Some a => ret a | None => throw e end.

Notation "x <- m ;; k" := (bind m (λ x, k))
  (at level 100, m at next level, right associativity, only parsing).
Notation "m ;;; k" := (bind m (λ _, k))
  (at level 100, right associativity, only parsing).

(** The value an evaluation returns or the error it throws, without the
    state. *)
Definition value_of {A} (o : Outcome (A * EvalState)) : Outcome A :=
  match o with
  | Ok (a, _) => Ok a
  | Throw e => Throw e
  | OutOfFuel => OutOfFuel
  end.

(** [for (const m of names) { out[m] = evaluate(m) }] *)
Fixpoint forEachMetric (evaluate : string → M MetricValue) (names : list string)
    (out : Obj MetricValue) : M (Obj MetricValue) :=
  match names with
  | [] => ret out
  | m :: names' =>
      v <- evaluate m ;;
      forEachMetric evaluate names' (obj_set m v out)
  end.

Definition filter_falsy (v : FilterValue) : bool :=
  match v with FPrim p => falsy p | _ => false end.

Section Evaluator.
Context `{Builtins}.
Variable db : InMemoryDb.
Variable factTables : FactTableRegistry.
Variable metricRegistry : MetricRegistry.

(** [Number(r[col] ?? 0)] *)
Definition numberOfCell (col : string) (r : Row) : number :=
  ToNumber (coalesce (cell r col) (PNum (Fin 0%Qc))).

(** The [factMeasure] branch of [evaluateMetric]. *)
Definition evaluateFactMeasure (metricName : string) (def : FactMeasureMetric)
    (context : FilterContext) : M MetricValue :=
  factDef <- or_throw (factTables !! factTable def) (UnknownFactTable (factTable def)) ;;
  rows <- or_throw (facts db !! factTable def) (MissingRows (factTable def)) ;;
  let grain := default (table_grain factDef) (fm_grain def) in
  let q := applyContextToFact rows context grain in
  factMeasureDef <- or_throw (measures factDef !! factColumn def)
                      (UnknownFactColumn (factColumn def) (factTable def)) ;;
  let col := column factMeasureDef in
  let agg := default (defaultAgg factMeasureDef) (agg def) in
  if String.eqb agg "sum" then
    record (Aggregated metricName) ;;;
    ret (Some (Linq.sum (numberOfCell col) q))
  else if String.eqb agg "avg" then
    record (Aggregated metricName) ;;;
    ret (Some (Linq.average (numberOfCell col) q))
  else if String.eqb agg "count" then
    record (Aggregated metricName) ;;;
    ret (Some (Linq.count q))
  else throw (UnsupportedAggregation agg).

(** The [expression] branch of [evaluateMetric]. *)
Definition evaluateExpression (metricName : string) (def : ExpressionMetric)
    (context : FilterContext) : M MetricValue :=
  factDef <- or_throw (factTables !! ex_factTable def)
               (UnknownFactTable (ex_factTable def)) ;;
  rows <- or_throw (facts db !! ex_factTable def) (MissingRows (ex_factTable def)) ;;
  let grain := default (table_grain factDef) (ex_grain def) in
  let q := applyContextToFact rows context grain in
  record (ExpressionCalled metricName) ;;;
  ret (expression def q db context).

(** [evaluateMetric].  The recursion of the source follows the registry, so
    the embedding counts the depth of the calls down with [fuel]. *)
Fixpoint evaluateMetric (fuel : nat) (metricName : string)
    (context : FilterContext) (transforms : ContextTransformsRegistry)
    : M MetricValue :=
  match fuel with
  | O => out_of_fuel
  | S fuel' =>
      let key := cacheKey metricName context in
      cached <- cache_get key ;;
      match cached with
      | Some v => ret v
      | None =>
          def <- or_throw (metricRegistry !! metricName) (UnknownMetric metricName) ;;
          value <-
            match def with
            | factMeasure def => evaluateFactMeasure metricName def context
            | expressionMetric def => evaluateExpression metricName def context
            | derived def =>
                depValues <-
                  forEachMetric (λ dep, evaluateMetric fuel' dep context transforms)
                    (dependencies def) [] ;;
                record (CombinatorCalled metricName) ;;;
                ret (evalFromDeps def depValues db context)
            | contextTransform def =>
                match obj_get (transform def) transforms with
                | None => throw (UnknownContextTransform (transform def))
                | Some (TFn transformFn) =>
                    record (TransformCalled (transform def)) ;;;
                    let transformedContext := transformFn context in
                    evaluateMetric fuel' (baseMeasure def) transformedContext transforms
                | Some (TValue v) =>
                    if filter_falsy v
                    then throw (UnknownContextTransform (transform def))
                    else throw TypeError
                end
            end ;;
          cache_set key value ;;;
          ret value
      end
  end.

(** [evaluateMetrics]: one fresh cache for all the names. *)
Definition evaluateMetrics (fuel : nat) (metricNames : list string)
    (context : FilterContext) (transforms : ContextTransformsRegistry)
    : Outcome (Obj MetricValue) :=
  value_of
    (forEachMetric (λ m, evaluateMetric fuel m context transforms) metricNames []
       new_cache).

(** [RunQueryOptions] *)
Record RunQueryOptions := {
  rows : list string;
  filters : option FilterContext;
  metrics : list string;
  factForRows : string
}.

(** The key of a group. *)
Definition groupKey (rowDims : list string) (r : Row) : string :=
  json_object json_prim (pick r rowDims).

(** [JSON.parse(g.key())]: the key of a group is the text
    [JSON.stringify(pick(r, rowDims))] of its first row [r]. *)
Definition groupKeyObj (rowDims : list string) (g : string * list Row) : Row :=
  match g.2 with
  | r :: _ => json_roundtrip (pick r rowDims)
  | [] => []
  end.

(** The inner loop of [runQuery]: the metric values of one group.  The call
    passes [transforms] in the position of the context and [rowContext] in
    the position of the transforms registry, as the source does. *)
Fixpoint runQueryMetrics (fuel : nat) (transforms : ContextTransformsRegistry)
    (rowContext : FilterContext) (ms : list string) (metricValues : Row)
    : M Row :=
  match ms with
  | [] => ret metricValues
  | m :: ms' =>
      numericValue <-
        evaluateMetric fuel m (context_of_transforms transforms)
          (transforms_of_context rowContext) ;;
      def <- or_throw (metricRegistry !! m) TypeError ;;
      runQueryMetrics fuel transforms rowContext ms'
        (obj_set m (formatValue numericValue (metric_format def)) metricValues)
  end.

(** The outer loop of [runQuery]: one result row per group. *)
Fixpoint runQueryGroups (fuel : nat) (transforms : ContextTransformsRegistry)
    (dimensionConfig : DimensionConfig) (options : RunQueryOptions)
    (groups : list (string * list Row)) (result : list Row) : M (list Row) :=
  match groups with
  | [] => ret result
  | g :: groups' =>
      let keyObj := groupKeyObj (rows options) g in
      let rowContext : FilterContext :=
        obj_spread2 (default [] (filters options))
          (map (λ kv, (kv.1, FPrim kv.2)) keyObj) in
      metricValues <-
        runQueryMetrics fuel transforms rowContext (metrics options) [] ;;
      let dimPart := enrichDimensions keyObj db dimensionConfig in
      runQueryGroups fuel transforms dimensionConfig options groups'
        (result ++ [obj_spread2 dimPart metricValues])
  end.

(** [runQuery] *)
Definition runQuery (fuel : nat) (transforms : ContextTransformsRegistry)
    (dimensionConfig : DimensionConfig) (options : RunQueryOptions)
    : Outcome (list Row) :=
  match facts db !! factForRows options with
  | None => Throw (UnknownFactTable (factForRows options))
  | Some factRows =>
      let factGrain := obj_keys (default [] (head factRows)) in
      let filtered :=
        applyContextToFact factRows (default [] (filters options)) factGrain in
      let groups := Linq.groupBy (groupKey (rows options)) filtered in
      value_of
        (runQueryGroups fuel transforms dimensionConfig options groups [] new_cache)
  end.

End Evaluator.

(* ===================================================================== *)
(** ** The demo data of the source                                        *)
(* ===================================================================== *)

Module Demo.

(** Built-ins for the concrete evaluations.  They are exact on the values the
    demo produces: integers print in decimal ([toString] spells any other
    number as a quotient, which no evaluation below prints), [toFixed]
    rounds the exact value half away from zero, and a string converts to a
    number when it is an unsigned decimal integer. *)
Definition pad_zeros (width : nat) (s : string) : string :=
  String.string_of_list_ascii (replicate (width - String.length s) "0"%char) +:+ s.

Definition toFixed (q : Qc) (digits : nat) : string :=
  let scale := (10 ^ Z.of_nat digits)%Z in
  let n := ((2 * Z.abs (Qnum q) * scale + Zpos (Qden q)) / (2 * Zpos (Qden q)))%Z in
  let s := pad_zeros (S digits) (pretty (Z.to_N n)) in
  let int_len := (String.length s - digits)%nat in
  let body :=
    match digits with
    | O => s
    | _ => String.substring 0 int_len s +:+ "." +:+ String.substring int_len digits s
    end in
  if bool_decide (q < 0)%Qc then "-" +:+ body else body.

Definition toString (q : Qc) : string :=
  match Qden q with
  | 1%positive => pretty (Qnum q)
  | d => pretty (Qnum q) +:+ "/" +:+ pretty (Zpos d)
  end.

Definition toNumber (s : string) : number :=
  match s with
  | EmptyString => Fin 0%Qc
  | _ => match parse_digits s 0 with
         | Some n => num_of_Z (Z.of_N n)
         | None => NaN
         end
  end.

#[export] Instance builtins : Builtins := {|
  NumberToString := toString;
  NumberToFixed := toFixed;
  StringToNumber := toNumber
|}.

Definition num (z : Z) : Prim := PNum (num_of_Z z).

Definition salesRow (year month : Z) (regionId : string)
    (productId quantity amount : Z) : Row :=
  [("year", num year); ("month", num month); ("regionId", PStr regionId);
   ("productId", num productId); ("quantity", num quantity);
   ("amount", num amount)].

Definition budgetRow (year : Z) (regionId : string) (budgetAmount : Z) : Row :=
  [("year", num year); ("regionId", PStr regionId);
   ("budgetAmount", num budgetAmount)].

Definition salesRows : list Row :=
  [salesRow 2024 1 "NA" 1 7 700;
   salesRow 2024 1 "NA" 2 4 480;
   salesRow 2024 2 "NA" 1 5 650;
   salesRow 2024 2 "EU" 1 3 420;
   salesRow 2025 1 "NA" 1 10 1000;
   salesRow 2025 1 "NA" 2 5 600;
   salesRow 2025 1 "EU" 1 4 500;
   salesRow 2025 2 "NA" 1 8 950;
   salesRow 2025 2 "EU" 2 3 450].

Definition budgetRows : list Row :=
  [budgetRow 2024 "NA" 1500;
   budgetRow 2024 "EU" 1000;
   budgetRow 2025 "NA" 2200;
   budgetRow 2025 "EU" 1600].

Definition demoDb : InMemoryDb := {|
  dimensions :=
    <["products" :=
        [[("productId", num 1); ("name", PStr "Widget A")];
         [("productId", num 2); ("name", PStr "Widget B")]]]>
    (<["regions" :=
        [[("regionId", PStr "NA"); ("name", PStr "North America")];
         [("regionId", PStr "EU"); ("name", PStr "Europe")]]]> ∅);
  facts := <["sales" := salesRows]> (<["budget" := budgetRows]> ∅)
|}.

Definition amountMeasure : FactMeasureDefinition :=
  {| column := "amount"; defaultAgg := "sum"; measure_format := Some "currency" |}.

Definition salesTable : FactTableDefinition :=
  {| table_grain := ["year"; "month"; "regionId"; "productId"];
     measures :=
       <["amount" := amountMeasure]>
       (<["quantity" := {| column := "quantity"; defaultAgg := "sum";
                           measure_format := Some "integer" |}]> ∅) |}.

Definition budgetTable : FactTableDefinition :=
  {| table_grain := ["year"; "regionId"];
     measures :=
       <["budgetAmount" := {| column := "budgetAmount"; defaultAgg := "sum";
                              measure_format := Some "currency" |}]> ∅ |}.

Definition demoFactTables : FactTableRegistry :=
  <["sales" := salesTable]> (<["budget" := budgetTable]> ∅).

Definition demoDimensionConfig : DimensionConfig :=
  [("regionId", {| table := "regions"; key := "regionId";
                   labelProp := "name"; labelAlias := "regionName" |});
   ("productId", {| table := "products"; key := "productId";
                    labelProp := "name"; labelAlias := "productName" |})].

(** [ctx.k == null] *)
Definition absent (ctx : FilterContext) (k : string) : bool :=
  match obj_get k ctx with
  | None => true
  | Some v => filter_nullish v
  end.

(** [Number(ctx.k)] *)
Definition numberOf (ctx : FilterContext) (k : string) : number :=
  match obj_get k ctx with
  | None => NaN
  | Some (FPrim p) => ToNumber p
  | Some (FRange _) => NaN
  | Some (FArray []) => Fin 0%Qc
  | Some (FArray [p]) =>
      match p with
      | PUndefined | PNull => Fin 0%Qc
      | PBool _ => NaN
      | PNum n => n
      | PStr s => StringToNumber s
      end
  | Some (FArray _) => NaN
  | Some FFunction => NaN
  end.

Definition minus_one (n : number) : number := number_add n (num_of_Z (-1)).

Definition ytd : ContextTransformFn := λ ctx,
  if absent ctx "year" || absent ctx "month" then ctx
  else obj_set "month" (FRange [("lte", PNum (numberOf ctx "month"))])
         (obj_assign [] ctx).

Definition lastYear : ContextTransformFn := λ ctx,
  if absent ctx "year" then ctx
  else obj_set "year" (FPrim (PNum (minus_one (numberOf ctx "year"))))
         (obj_assign [] ctx).

Definition ytdLastYear : ContextTransformFn := λ ctx,
  if absent ctx "year" || absent ctx "month" then ctx
  else obj_set "month" (FRange [("lte", PNum (numberOf ctx "month"))])
         (obj_set "year" (FPrim (PNum (minus_one (numberOf ctx "year"))))
            (obj_assign [] ctx)).

Definition demoTransforms : ContextTransformsRegistry :=
  [("ytd", TFn ytd); ("lastYear", TFn lastYear); ("ytdLastYear", TFn ytdLastYear)].

(** [x ? a / x : null] and [(s / b) * 100] on numbers. *)
Definition ratio (scale : Z) (a b : number) : MetricValue :=
  match b with
  | NaN => None
  | Fin y =>
      if bool_decide (y = 0%Qc) then None
      else match a with
           | NaN => Some NaN
           | Fin x => Some (Fin (x / y * Q2Qc (inject_Z scale))%Qc)
           end
  end.

Definition factMetricDef (name table column : string)
    (grain : option (list string)) (format : string) : FactMeasureMetric :=
  {| fm_name := name; fm_format := Some format; factTable := table;
     factColumn := column; agg := None; fm_grain := grain |}.

Definition factMetric (name table column : string)
    (grain : option (list string)) (format : string) : MetricDefinition :=
  factMeasure (factMetricDef name table column grain format).

Definition transformMetricDef (name base transform : string) : ContextTransformMetric :=
  {| ct_name := name; ct_format := Some "currency";
     baseMeasure := base; transform := transform |}.

Definition transformMetric (name base transform : string) : MetricDefinition :=
  contextTransform (transformMetricDef name base transform).

(** [depValues.k ?? 0] *)
Definition depOrZero (depValues : Obj MetricValue) (k : string) : number :=
  match obj_get k depValues with
  | Some (Some n) => n
  | _ => Fin 0%Qc
  end.

Definition pctMetric (name sales budget : string) : MetricDefinition :=
  derived {| dv_name := name; dv_format := Some "percent";
             dependencies := [sales; budget];
             evalFromDeps := λ depValues _ _,
               ratio 100 (depOrZero depValues sales) (depOrZero depValues budget) |}.

Definition demoMetrics : MetricRegistry :=
  list_to_map
    [("totalSalesAmount", factMetric "totalSalesAmount" "sales" "amount" None "currency");
     ("totalSalesQuantity", factMetric "totalSalesQuantity" "sales" "quantity" None "integer");
     ("totalBudget", factMetric "totalBudget" "budget" "budgetAmount" None "currency");
     ("salesAmountYearRegion",
      factMetric "salesAmountYearRegion" "sales" "amount"
        (Some ["year"; "regionId"]) "currency");
     ("pricePerUnit",
      expressionMetric
        {| ex_name := "pricePerUnit"; ex_format := Some "currency";
           ex_factTable := "sales"; ex_grain := None;
           expression := λ q _ _,
             ratio 1 (Linq.sum (numberOfCell "amount") q)
                     (Linq.sum (numberOfCell "quantity") q) |});
     ("salesVsBudgetPct", pctMetric "salesVsBudgetPct" "totalSalesAmount" "totalBudget");
     ("salesAmountYTD", transformMetric "salesAmountYTD" "totalSalesAmount" "ytd");
     ("salesAmountLastYear",
      transformMetric "salesAmountLastYear" "totalSalesAmount" "lastYear");
     ("salesAmountYTDLastYear",
      transformMetric "salesAmountYTDLastYear" "totalSalesAmount" "ytdLastYear");
     ("budgetYTD", transformMetric "budgetYTD" "totalBudget" "ytd");
     ("budgetLastYear", transformMetric "budgetLastYear" "totalBudget" "lastYear");
     ("salesVsBudgetPctYTD", pctMetric "salesVsBudgetPctYTD" "salesAmountYTD" "budgetYTD")].

Definition evaluate (metricName : string) (context : FilterContext) : Outcome MetricValue :=
  value_of (evaluateMetric demoDb demoFactTables demoMetrics 8 metricName context
              demoTransforms new_cache).

End Demo.

(* ===================================================================== *)
(** ** Definitions used in the statements                                  *)
(* ===================================================================== *)

Section RangeReadings.
Context `{Builtins}.

(** The reading of "the value satisfies every bound present in the filter":
    [from], [gte] are inclusive lower bounds, [to], [lte] inclusive upper
    bounds, [gt] and [lt] exclusive ones. *)
Definition satisfiesEveryBound (value : Prim) (f : Obj Prim) : bool :=
  match bound f "from" with Some b => ge value b | None => true end
  && match bound f "to" with Some b => le value b | None => true end
  && match bound f "gte" with Some b => ge value b | None => true end
  && match bound f "lte" with Some b => le value b | None => true end
  && match bound f "gt" with Some b => gt value b | None => true end
  && match bound f "lt" with Some b => lt value b | None => true end.

(** The bounds of a well-typed range: absent, or a number other than NaN. *)
Definition numericBound (f : Obj Prim) (b : string) : bool :=
  match bound f b with
  | None | Some (PNum (Fin _)) => true
  | Some _ => false
  end.

Definition numericBounds (f : Obj Prim) : bool :=
  forallb (numericBound f) ["from"; "to"; "gte"; "lte"; "gt"; "lt"].

Definition boundIs (f : Obj Prim) (b : string) (x : Qc) : Prop :=
  bound f b = Some (PNum (Fin x)).

(** What the matcher checks on a number [v]: the pair [from]/[to] when one of
    them is a property of the range, the other four bounds otherwise. *)
Definition withinRange (f : Obj Prim) (v : Qc) : Prop :=
  if obj_has "from" f || obj_has "to" f then
    (∀ x, boundIs f "from" x → (x ≤ v)%Qc) ∧
    (∀ x, boundIs f "to" x → (v ≤ x)%Qc)
  else
    (∀ x, boundIs f "gte" x → (x ≤ v)%Qc) ∧
    (∀ x, boundIs f "lte" x → (v ≤ x)%Qc) ∧
    (∀ x, boundIs f "gt" x → (x < v)%Qc) ∧
    (∀ x, boundIs f "lt" x → (v < x)%Qc).

Definition noBounds (f : Obj Prim) : Prop :=
  Forall (λ b, bound f b = None) ["from"; "to"; "gte"; "lte"; "gt"; "lt"].

(** The conjunction of the filters of a context that apply at a grain. *)
Definition passes (grain : list string) (context : FilterContext) (r : Row) : bool :=
  forallb
    (λ entry : string * FilterValue,
       filter_nullish entry.2 || negb (includes grain entry.1)
       || matchesFilter (cell r entry.1) entry.2)
    context.

End RangeReadings.

(** Two outcomes that agree on everything but the record of calls. *)
Definition same_result {A} (o1 o2 : Outcome (A * EvalState)) : Prop :=
  match o1, o2 with
  | Ok (a1, s1), Ok (a2, s2) => a1 = a2 ∧ cache s1 = cache s2
  | Throw e1, Throw e2 => e1 = e2
  | OutOfFuel, OutOfFuel => True
  | _, _ => False
  end.

(** A computation that reads nothing of the state but the cache. *)
Definition cache_only {A} (m : M A) : Prop :=
  ∀ s1 s2, cache s1 = cache s2 → same_result (m s1) (m s2).

(** The last two statements of [evaluateMetric]. *)
Definition store (key : string) (m : M MetricValue) : M MetricValue :=
  value <- m ;; cache_set key value ;;; ret value.

(** [context[k]] *)
Definition context_get (context : FilterContext) (k : string) : FilterValue :=
  default (FPrim PUndefined) (obj_get k context).

Section EffectiveGrain.
Variable factTables : FactTableRegistry.

(** The grain a fact-measure metric is evaluated at. *)
Definition effectiveGrain (def : FactMeasureMetric) : list string :=
  match factTables !! factTable def with
  | Some factDef => default (table_grain factDef) (fm_grain def)
  | None => default [] (fm_grain def)
  end.

End EffectiveGrain.

(* ===================================================================== *)
(** ** The evaluator without a cache                                      *)
(* ===================================================================== *)

(** The loop over the dependencies, without a state. *)
Fixpoint forEachUncached (evaluate : string → Outcome MetricValue)
    (names : list string) (out : Obj MetricValue) : Outcome (Obj MetricValue) :=
  match names with
  | [] => Ok out
  | m :: names' =>
      match evaluate m with
      | Ok v => forEachUncached evaluate names' (obj_set m v out)
      | Throw e => Throw e
      | OutOfFuel => OutOfFuel
      end
  end.

Section Uncached.
Context `{Builtins}.
Variable db : InMemoryDb.
Variable factTables : FactTableRegistry.
Variable metricRegistry : MetricRegistry.
Variable transforms : ContextTransformsRegistry.

(** The reference the cached evaluation is compared with (it is not a
    function of the source): the value of a metric as the branches of
    [evaluateMetric] compute it when no cache stands in between. *)
Fixpoint evaluateUncached (fuel : nat) (metricName : string)
    (context : FilterContext) : Outcome MetricValue :=
  match fuel with
  | O => OutOfFuel
  | S fuel' =>
      match metricRegistry !! metricName with
      | None => Throw (UnknownMetric metricName)
      | Some (factMeasure def) =>
          value_of (evaluateFactMeasure db factTables metricName def context new_cache)
      | Some (expressionMetric def) =>
          value_of (evaluateExpression db factTables metricName def context new_cache)
      | Some (derived def) =>
          match forEachUncached (λ dep, evaluateUncached fuel' dep context)
                  (dependencies def) [] with
          | Ok depValues => Ok (evalFromDeps def depValues db context)
          | Throw e => Throw e
          | OutOfFuel => OutOfFuel
          end
      | Some (contextTransform def) =>
          match obj_get (transform def) transforms with
          | None => Throw (UnknownContextTransform (transform def))
          | Some (TFn transformFn) =>
              evaluateUncached fuel' (baseMeasure def) (transformFn context)
          | Some (TValue v) =>
              if filter_falsy v
              then Throw (UnknownContextTransform (transform def))
              else Throw TypeError
          end
      end
  end.

(** Every entry of the cache, read at a reachable context, is the value of
    the metric at that context. *)
Definition cache_sound (Reach : FilterContext → Prop) (st : EvalState) : Prop :=
  ∀ m c v, Reach c → cache st !! cacheKey m c = Some v →
    ∃ n, evaluateUncached n m c = Ok v.

End Uncached.

(* ===================================================================== *)
(** ** Errors on fact tables                                              *)
(* ===================================================================== *)

(** The fact table a metric reads its rows from. *)
Definition referencedTable (def : MetricDefinition) : option string :=
  match def with
  | factMeasure d => Some (factTable d)
  | expressionMetric d => Some (ex_factTable d)
  | derived _ | contextTransform _ => None
  end.

(** The error the evaluator raises for a fact table: unknown when the
    registry does not have it, without rows when the registry has it and
    the database does not. *)
Definition factTableError (db : InMemoryDb) (factTables : FactTableRegistry)
    (t : string) : option Error :=
  match factTables !! t, facts db !! t with
  | None, _ => Some (UnknownFactTable t)
  | Some _, None => Some (MissingRows t)
  | Some _, Some _ => None
  end.

(* ===================================================================== *)
(** ** The enumeration order of an object                                 *)
(* ===================================================================== *)

Definition is_index (k : string) : bool :=
  match array_index k with Some _ => true | None => false end.

Section PropertyOrderDefinitions.
Context {A : Type}.
Implicit Types (o : Obj A) (l : list (string * A)).

Definition index_of (kv : string * A) : N := default 0%N (array_index kv.1).

(** The order of the array-index properties. *)
Definition index_lt (a b : string * A) : Prop := (index_of a < index_of b)%N.

(** The properties that are not array indices, in order. *)
Definition named_part l : list (string * A) :=
  List.filter (λ kv, negb (is_index kv.1)) l.

(** [o] is the enumeration of the properties assigned in [l]: the array
    indices in ascending order, then the others as in [l]. *)
Definition enumerates o l : Prop :=
  ∃ idx, o = idx ++ named_part l
         ∧ Forall (λ kv, is_index kv.1 = true) idx
         ∧ StronglySorted index_lt idx
         ∧ o ≡ₚ l.

End PropertyOrderDefinitions.

(* ===================================================================== *)
(** ** Inputs of the concrete evaluations                                 *)
(* ===================================================================== *)

Import Demo.

Definition ctx2025_02 : FilterContext :=
  [("year", FPrim (num 2025)); ("month", FPrim (num 2))].

Definition withRow (region : string) (product : Z) : FilterContext :=
  obj_spread2 ctx2025_02
    [("regionId", FPrim (PStr region)); ("productId", FPrim (num product))].

Definition demoQuery : RunQueryOptions := {|
  rows := ["regionId"; "productId"];
  filters := Some ctx2025_02;
  metrics := ["totalSalesAmount"];
  factForRows := "sales"
|}.

Definition salesAmountYTD : ContextTransformMetric :=
  transformMetricDef "salesAmountYTD" "totalSalesAmount" "ytd".

Definition salesEarly : ContextTransformFn :=
  λ _, [("month", FRange [("lte", num 1)])].

(** [{ month: { from: undefined, lte: 1 } }]: with [from] among its
    properties the range is read as a [from]/[to] range, with no bound. *)
Definition salesEarlyFrom : ContextTransformFn :=
  λ _, [("month", FRange [("from", PUndefined); ("lte", num 1)])].

Definition collidingTransforms : ContextTransformsRegistry :=
  [("early", TFn salesEarly); ("earlyFrom", TFn salesEarlyFrom)].

Definition collidingMetrics : MetricRegistry :=
  list_to_map
    [("totalSalesAmount", factMetric "totalSalesAmount" "sales" "amount" None "currency");
     ("salesEarly", transformMetric "salesEarly" "totalSalesAmount" "early");
     ("salesEarlyFrom", transformMetric "salesEarlyFrom" "totalSalesAmount" "earlyFrom")].

Definition ytdTransforms : ContextTransformsRegistry := [("ytd", TFn ytd)].

(** The contexts [ytd] reaches from February 2025. *)
Definition ytdReach (c : FilterContext) : Prop :=
  c = ctx2025_02 ∨ c = ytd ctx2025_02 ∨ c = ytd (ytd ctx2025_02).

Definition ytdNames : list string :=
  ["salesAmountYTD"; "totalSalesAmount"; "salesVsBudgetPctYTD"; "budgetYTD"].

Definition ytdResults : Obj MetricValue :=
  match evaluateMetrics demoDb demoFactTables demoMetrics 8 ytdNames ctx2025_02
          ytdTransforms with
  | Ok results => results
  | _ => []
  end.

(* ===================================================================== *)
(** ** The rest of the engine file and its callers                        *)
(* ===================================================================== *)

(** [delete o[k]] *)
Definition obj_delete {A} (k : string) (o : Obj A) : Obj A :=
  List.filter (λ kv, negb (String.eqb kv.1 k)) o.

(** One step of the loop of [enrichDimensions]. *)
Definition enrichStep (db : InMemoryDb) (keyObj : Row) (result : Row)
    (entry : string * DimensionConfigEntry) : Row :=
  let '(dimKey, cfg) := entry in
  if nullish (cell keyObj dimKey) then result
  else match dimensions db !! table cfg with
       | None => result
       | Some dimTable =>
           match List.find (λ d, strict_eq (cell d (key cfg)) (cell keyObj dimKey))
                   dimTable with
           | Some match_ => obj_set (labelAlias cfg) (cell match_ (labelProp cfg)) result
           | None => result
           end
       end.

(** [def.name] *)
Definition metric_name (def : MetricDefinition) : string :=
  match def with
  | factMeasure d => fm_name d
  | expressionMetric d => ex_name d
  | derived d => dv_name d
  | contextTransform d => ct_name d
  end.

(** [addContextTransformMetric] (semanticEngine.ts) *)
Definition addContextTransformMetric (registry : MetricRegistry)
    (def : ContextTransformMetric) : MetricRegistry :=
  <[ct_name def := contextTransform def]> registry.

(** [buildMetricRegistry] (web/src/lib/engineBridge.ts): the demo registry,
    then each override assigned under its name, in order. *)
Definition buildMetricRegistry (overrides : list MetricDefinition) : MetricRegistry :=
  fold_left (λ registry metric, <[metric_name metric := metric]> registry)
    overrides demoMetrics.

(** [PlaygroundQueryRequest] (web/src/lib/engineBridge.ts) *)
Record PlaygroundQueryRequest := {
  rq_rows : list string;
  rq_metrics : list string;
  rq_factForRows : string;
  rq_filters : FilterContext
}.

(** The request read as the options of [runQuery], as [runPlaygroundQuery]
    passes it. *)
Definition request_options (request : PlaygroundQueryRequest) : RunQueryOptions :=
  {| rows := rq_rows request; filters := Some (rq_filters request);
     metrics := rq_metrics request; factForRows := rq_factForRows request |}.

(** [runPlaygroundQuery] (web/src/lib/engineBridge.ts): the rows of the
    result; the duration measured around the call is left out. *)
Definition runPlaygroundQuery (fuel : nat) (request : PlaygroundQueryRequest)
    (overrides : list MetricDefinition) : Outcome (list Row) :=
  runQuery demoDb demoFactTables (buildMetricRegistry overrides) fuel demoTransforms
    demoDimensionConfig (request_options request).

(** [defaultQueryRequest] (web/src/lib/engineBridge.ts) *)
Definition defaultQueryRequest : PlaygroundQueryRequest := {|
  rq_rows := ["regionId"; "productId"];
  rq_metrics := ["totalSalesAmount"; "pricePerUnit"; "salesVsBudgetPct"];
  rq_factForRows := "sales";
  rq_filters := ctx2025_02
|}.

(** The list computed by [toggleRow] and by [toggleMetric] (query builder):
    without the key when it is there, with the key at the end otherwise. *)
Definition toggle (xs : list string) (key : string) : list string :=
  if includes xs key
  then List.filter (λ dim, negb (String.eqb dim key)) xs
  else xs ++ [key].

(** [toggleRow]: the state it hands to [onChange]. *)
Definition toggleRow (state : PlaygroundQueryRequest) (key : string)
  : PlaygroundQueryRequest :=
  {| rq_rows := toggle (rq_rows state) key; rq_metrics := rq_metrics state;
     rq_factForRows := rq_factForRows state; rq_filters := rq_filters state |}.

(** [toggleMetric]: the state it hands to [onChange]. *)
Definition toggleMetric (state : PlaygroundQueryRequest) (metric : string)
  : PlaygroundQueryRequest :=
  {| rq_rows := rq_rows state; rq_metrics := toggle (rq_metrics state) metric;
     rq_factForRows := rq_factForRows state; rq_filters := rq_filters state |}.

Definition NUMERIC_FILTERS : list string := ["year"; "month"; "productId"].

Section QueryBuilder.
Context `{Builtins}.

(** [updateFilter] (query builder), the state it hands to [onChange]: the
    empty selection removes the filter, any other one stores the text, as a
    number for the numeric filters. *)
Definition updateFilter (state : PlaygroundQueryRequest) (key value : string)
  : PlaygroundQueryRequest :=
  let nextFilters := obj_assign [] (rq_filters state) in
  let nextFilters :=
    if String.eqb value EmptyString then obj_delete key nextFilters
    else
      let parsedValue :=
        if includes NUMERIC_FILTERS key then PNum (StringToNumber value)
        else PStr value in
      obj_set key (FPrim parsedValue) nextFilters in
  {| rq_rows := rq_rows state; rq_metrics := rq_metrics state;
     rq_factForRows := rq_factForRows state; rq_filters := nextFilters |}.

End QueryBuilder.

(** *** Definitions used in the further statements *)

(** The names every object inherits from [Object.prototype].  A lookup
    [o[k]] of the source finds a member there when [o] has no property [k] of
    its own, where the embedding finds nothing: what the embedding says of a
    name that is not found holds of the source for the names outside this
    list, and the statements about such a lookup say so. *)
Definition inherited_names : list string :=
  ["constructor"; "hasOwnProperty"; "isPrototypeOf"; "propertyIsEnumerable";
   "toLocaleString"; "toString"; "valueOf"; "__proto__"; "__defineGetter__";
   "__defineSetter__"; "__lookupGetter__"; "__lookupSetter__"].

Definition inherited (k : string) : bool := includes inherited_names k.

(** The row context [runQuery] builds for a group:
    [{ ...filters, ...keyObj }]. *)
Definition groupRowContext `{Builtins} (options : RunQueryOptions)
    (g : string * list Row) : FilterContext :=
  obj_spread2 (default [] (filters options))
    (map (λ kv, (kv.1, FPrim kv.2)) (groupKeyObj (rows options) g)).

(** An object as the language builds them: no key twice, the array-index
    keys first and in ascending order. *)
Definition obj_wf {A} (o : Obj A) : Prop :=
  NoDup (map fst o) ∧ enumerates o o.

(** Two objects with the same property names in the same order. *)
Definition same_keys {A} : Obj A → Obj A → Prop := Forall2 (λ a b, a.1 = b.1).

(** What an entry of the cache stands for when every evaluation runs under
    one context: its metric is no context-transform metric, and the value of
    a fact measure is the one its branch computes under that context. *)
Section CacheEntries.
Context `{Builtins}.
Variable db : InMemoryDb.
Variable factTables : FactTableRegistry.
Variable metricRegistry : MetricRegistry.
Variable context : FilterContext.

Definition entry_ok (name : string) (v : MetricValue) : Prop :=
  (∀ def, metricRegistry !! name ≠ Some (contextTransform def))
  ∧ (∀ def, metricRegistry !! name = Some (factMeasure def) →
       value_of (evaluateFactMeasure db factTables name def context new_cache) = Ok v).

Definition entries_ok (st : EvalState) : Prop :=
  ∀ name v, cache st !! cacheKey name context = Some v → entry_ok name v.

End CacheEntries.

(** *** Inputs of the further evaluations *)

(** The definition the demo registry holds under [salesVsBudgetPct]. *)
Definition salesVsBudgetPctDef : DerivedMetric :=
  {| dv_name := "salesVsBudgetPct"; dv_format := Some "percent";
     dependencies := ["totalSalesAmount"; "totalBudget"];
     evalFromDeps := λ depValues _ _,
       ratio 100 (depOrZero depValues "totalSalesAmount")
                 (depOrZero depValues "totalBudget") |}.

(** A derived metric that names itself as its dependency. *)
Definition selfDef : DerivedMetric :=
  {| dv_name := "self"; dv_format := None; dependencies := ["self"];
     evalFromDeps := λ depValues _ _, default None (obj_get "self" depValues) |}.

Definition selfMetrics : MetricRegistry := {["self" := derived selfDef]}.

(** The rows of the first demo query. *)
Definition demoQueryRows : list Row :=
  match runQuery demoDb demoFactTables demoMetrics 8 demoTransforms
          demoDimensionConfig demoQuery with
  | Ok result => result
  | _ => []
  end.

(** A fact table registry without the budget table. *)
Definition salesOnlyTables : FactTableRegistry := {["sales" := salesTable]}.

(** A query for a context-transform metric, and one whose filter no row
    passes. *)
Definition ytdQuery : RunQueryOptions := {|
  rows := ["regionId"];
  filters := Some ctx2025_02;
  metrics := ["salesAmountYTD"];
  factForRows := "sales"
|}.

Definition query1999 : RunQueryOptions := {|
  rows := ["regionId"];
  filters := Some [("year", FPrim (num 1999))];
  metrics := ["noSuchMetric"];
  factForRows := "sales"
|}.

(** The rows of the default request of the playground. *)
Definition playgroundRows : list Row :=
  match runPlaygroundQuery 8 defaultQueryRequest [] with
  | Ok result => result
  | _ => []
  end.

(* ===================================================================== *)
(** ** Properties of the filter matcher                                   *)
(* ===================================================================== *)

Section MatchesFilter.
Context `{Builtins}.

Lemma lt_Fin (x y : Qc) : lt (PNum (Fin x)) (PNum (Fin y)) = bool_decide (x < y)%Qc.
Proof. unfold lt; simpl. by destruct (bool_decide _). Qed.

Lemma gt_Fin (x y : Qc) : gt (PNum (Fin x)) (PNum (Fin y)) = bool_decide (y < x)%Qc.
Proof. unfold gt; simpl. by destruct (bool_decide _). Qed.

Lemma le_Fin (x y : Qc) : le (PNum (Fin x)) (PNum (Fin y)) = bool_decide (x ≤ y)%Qc.
Proof.
  unfold le; simpl. repeat case_bool_decide; try done.
  - exfalso. by eapply Qclt_not_le.
  - exfalso. destruct (Qclt_le_dec y x); eauto.
Qed.

Lemma ge_Fin (x y : Qc) : ge (PNum (Fin x)) (PNum (Fin y)) = bool_decide (y ≤ x)%Qc.
Proof.
  unfold ge; simpl. repeat case_bool_decide; try done.
  - exfalso. by eapply Qclt_not_le.
  - exfalso. destruct (Qclt_le_dec x y); eauto.
Qed.

Lemma numericBound_cases f b :
  numericBound f b = true → bound f b = None ∨ ∃ x, boundIs f b x.
Proof.
  unfold numericBound, boundIs. destruct (bound f b) as [[| | |[|x]|]|]; eauto; done.
Qed.

Lemma not_lt_iff (x y : Qc) : ¬ (x < y)%Qc ↔ (y ≤ x)%Qc.
Proof.
  split; [apply Qcnot_lt_le | intros ? ?; by eapply Qclt_not_le].
Qed.

Lemma not_le_iff (x y : Qc) : ¬ (x ≤ y)%Qc ↔ (y < x)%Qc.
Proof.
  split; [apply Qcnot_le_lt | intros ? ?; by eapply Qclt_not_le].
Qed.

(** One check of the matcher, on a number against a numeric bound. *)
Lemma check_bound f b v (cmp : Prim → Prim → bool) (R : Qc → Qc → Prop) :
  (∀ x, cmp (PNum (Fin v)) (PNum (Fin x)) = false ↔ R x v) →
  numericBound f b = true →
  match bound f b with Some p => cmp (PNum (Fin v)) p | None => false end = false
  ↔ (∀ x, boundIs f b x → R x v).
Proof.
  intros Hcmp [Hb | [x Hb]]%numericBound_cases.
  - rewrite Hb. split; [| done]. intros _ x Hx. unfold boundIs in Hx. congruence.
  - rewrite Hb, Hcmp. split.
    + intros HR y Hy. unfold boundIs in *. by simplify_eq.
    + intros HR. apply HR, Hb.
Qed.

Lemma lt_check v x : lt (PNum (Fin v)) (PNum (Fin x)) = false ↔ (x ≤ v)%Qc.
Proof. by rewrite lt_Fin, bool_decide_eq_false, not_lt_iff. Qed.

Lemma gt_check v x : gt (PNum (Fin v)) (PNum (Fin x)) = false ↔ (v ≤ x)%Qc.
Proof. by rewrite gt_Fin, bool_decide_eq_false, not_lt_iff. Qed.

Lemma le_check v x : le (PNum (Fin v)) (PNum (Fin x)) = false ↔ (x < v)%Qc.
Proof. by rewrite le_Fin, bool_decide_eq_false, not_le_iff. Qed.

Lemma ge_check v x : ge (PNum (Fin v)) (PNum (Fin x)) = false ↔ (v < x)%Qc.
Proof. by rewrite ge_Fin, bool_decide_eq_false, not_le_iff. Qed.

Lemma if_false_iff (a : bool) (b : bool) :
  (if a then false else b) = true ↔ a = false ∧ b = true.
Proof. destruct a; split; (intros [? ?] || intros ?); done. Qed.

(** C2, as amended.  On a number [v] and a range whose bounds are numbers:
    when [from] or [to] is a property of the range, the matcher returns true
    exactly when [from <= v] and [v <= to] for those of the two that are
    present, and the other four bounds are not looked at; otherwise it
    returns true exactly when [gte <= v], [v <= lte], [gt < v] and [v < lt]
    for the bounds present.  A range with none of the six bounds matches
    every value. *)
Theorem matchesFilter_range (f : Obj Prim) (v : Qc) :
  numericBounds f = true →
  (matchesFilter (PNum (Fin v)) (FRange f) = true ↔ withinRange f v) ∧
  (noBounds f → ∀ value, matchesFilter value (FRange f) = true).
Proof.
  intros Hnum. unfold numericBounds in Hnum. simpl in Hnum.
  repeat (apply andb_prop in Hnum as [? Hnum]).
  split.
  - unfold matchesFilter, withinRange.
    destruct (obj_has "from" f || obj_has "to" f).
    + rewrite !if_false_iff.
      rewrite (check_bound f "from" v lt (λ x v, x ≤ v)%Qc) by auto using lt_check.
      rewrite (check_bound f "to" v gt (λ x v, v ≤ x)%Qc) by auto using gt_check.
      tauto.
    + rewrite !if_false_iff.
      rewrite (check_bound f "gte" v lt (λ x v, x ≤ v)%Qc) by auto using lt_check.
      rewrite (check_bound f "lte" v gt (λ x v, v ≤ x)%Qc) by auto using gt_check.
      rewrite (check_bound f "gt" v le (λ x v, x < v)%Qc) by auto using le_check.
      rewrite (check_bound f "lt" v ge (λ x v, v < x)%Qc) by auto using ge_check.
      tauto.
  - intros Hno value. unfold noBounds in Hno.
    repeat (apply Forall_cons in Hno as [? Hno]).
    unfold matchesFilter.
    repeat match goal with Hb : bound f _ = None |- _ => rewrite Hb; clear Hb end.
    by destruct (_ || _).
Qed.

End MatchesFilter.

(* ===================================================================== *)
(** ** The evaluation monad                                               *)
(* ===================================================================== *)

Lemma bind_Ok {A B} (m : M A) (k : A → M B) st b st' :
  bind m k st = Ok (b, st') ↔ ∃ a st1, m st = Ok (a, st1) ∧ k a st1 = Ok (b, st').
Proof.
  unfold bind. split.
  - destruct (m st) as [[a st1]| |]; [eauto | done | done].
  - intros (a & st1 & -> & Hk). done.
Qed.

Lemma same_result_value {A} (o1 o2 : Outcome (A * EvalState)) :
  same_result o1 o2 → value_of o1 = value_of o2.
Proof.
  destruct o1 as [[a1 s1]| |], o2 as [[a2 s2]| |]; simpl; try done.
  - by intros [-> _].
  - by intros ->.
Qed.

Lemma cache_only_ret {A} (a : A) : cache_only (ret a).
Proof. by intros s1 s2 Hc. Qed.

Lemma cache_only_throw {A} e : cache_only (@throw A e).
Proof. by intros s1 s2 Hc. Qed.

Lemma cache_only_bind {A B} (m : M A) (k : A → M B) :
  cache_only m → (∀ a, cache_only (k a)) → cache_only (bind m k).
Proof.
  intros Hm Hk s1 s2 Hc. unfold bind. specialize (Hm s1 s2 Hc).
  destruct (m s1) as [[a1 t1]| |], (m s2) as [[a2 t2]| |]; simpl in Hm; try done.
  destruct Hm as [-> Ht]. by apply Hk.
Qed.

Lemma cache_only_or_throw {A} (o : option A) e : cache_only (or_throw o e).
Proof. destruct o; [apply cache_only_ret | apply cache_only_throw]. Qed.

Lemma cache_only_get k : cache_only (cache_get k).
Proof. intros s1 s2 Hc. simpl. by rewrite Hc. Qed.

Lemma cache_only_set k v : cache_only (cache_set k v).
Proof. intros s1 s2 Hc. simpl. by rewrite Hc. Qed.

Lemma cache_only_record e : cache_only (record e).
Proof. by intros s1 s2 Hc. Qed.

Lemma cache_only_forEachMetric evaluate names out :
  (∀ m, cache_only (evaluate m)) → cache_only (forEachMetric evaluate names out).
Proof.
  intros Hev. revert out. induction names as [|m names IH]; intros out; simpl.
  - apply cache_only_ret.
  - apply cache_only_bind; [apply Hev | intros v; apply IH].
Qed.

Create HintDb cache_only.
#[export] Hint Resolve cache_only_ret cache_only_throw cache_only_or_throw
  cache_only_get cache_only_set cache_only_record : cache_only.

Ltac cache_only_step :=
  repeat first
    [ apply cache_only_bind; [| intros ?]
    | progress auto with cache_only
    | match goal with |- cache_only (if ?b then _ else _) => destruct b end
    | match goal with |- cache_only (match ?x with _ => _ end) => destruct x end ].

Section EvaluatorFacts.
Context `{Builtins}.
Variable db : InMemoryDb.
Variable factTables : FactTableRegistry.
Variable metricRegistry : MetricRegistry.

Local Notation "'evalM'" := (evaluateMetric db factTables metricRegistry).

Lemma cache_only_evaluateFactMeasure name def context :
  cache_only (evaluateFactMeasure db factTables name def context).
Proof. unfold evaluateFactMeasure. cache_only_step. Qed.

Lemma cache_only_evaluateExpression name def context :
  cache_only (evaluateExpression db factTables name def context).
Proof. unfold evaluateExpression. cache_only_step. Qed.

(** The record of calls has no influence on an evaluation. *)
Lemma cache_only_evaluateMetric fuel name context transforms :
  cache_only (evalM fuel name context transforms).
Proof.
  revert name context. induction fuel as [|fuel IH]; intros name context.
  - by intros s1 s2 Hc.
  - cbn [evaluateMetric].
    apply cache_only_bind; [auto with cache_only | intros [v|]].
    { apply cache_only_ret. }
    apply cache_only_bind; [auto with cache_only | intros def].
    apply cache_only_bind; [| intros value; cache_only_step].
    destruct def as [d|d|d|d].
    + apply cache_only_evaluateFactMeasure.
    + apply cache_only_evaluateExpression.
    + apply cache_only_bind; [| intros ?; cache_only_step].
      apply cache_only_forEachMetric. intros m. apply IH.
    + destruct (obj_get _ _) as [[f|v]|]; cache_only_step.
Qed.

Lemma value_of_store key m st : value_of (store key m st) = value_of (m st).
Proof. unfold store, bind. by destruct (m st) as [[v st']| |]. Qed.

(** One step of [evaluateMetric] on a key that is not in the cache. *)
Lemma evaluateMetric_miss fuel name context transforms st def :
  cache st !! cacheKey name context = None →
  metricRegistry !! name = Some def →
  evalM (S fuel) name context transforms st
  = store (cacheKey name context)
      match def with
      | factMeasure def => evaluateFactMeasure db factTables name def context
      | expressionMetric def => evaluateExpression db factTables name def context
      | derived def =>
          depValues <-
            forEachMetric (λ dep, evalM fuel dep context transforms)
              (dependencies def) [] ;;
          record (CombinatorCalled name) ;;;
          ret (evalFromDeps def depValues db context)
      | contextTransform def =>
          match obj_get (transform def) transforms with
          | None => throw (UnknownContextTransform (transform def))
          | Some (TFn transformFn) =>
              record (TransformCalled (transform def)) ;;;
              evalM fuel (baseMeasure def) (transformFn context) transforms
          | Some (TValue v) =>
              if filter_falsy v
              then throw (UnknownContextTransform (transform def))
              else throw TypeError
          end
      end st.
Proof.
  intros Hmiss Hdef. cbn [evaluateMetric].
  unfold bind at 1. simpl. rewrite Hmiss.
  unfold bind at 1. rewrite Hdef. reflexivity.
Qed.

(** After a call that returns, the cache holds the returned value under the
    key of the call. *)
Lemma evaluateMetric_caches fuel name context transforms st v st' :
  evalM fuel name context transforms st = Ok (v, st') →
  cache st' !! cacheKey name context = Some v.
Proof.
  destruct fuel as [|fuel]; [done |].
  cbn [evaluateMetric]. intros Hrun.
  apply bind_Ok in Hrun as (cached & st0 & Hget & Hrun).
  unfold cache_get in Hget. injection Hget as <- <-.
  destruct (cache st !! _) as [w|] eqn:Hc.
  - unfold ret in Hrun. by simplify_eq.
  - apply bind_Ok in Hrun as (def & st1 & _ & Hrun).
    apply bind_Ok in Hrun as (value & st2 & _ & Hrun).
    apply bind_Ok in Hrun as ([] & st3 & Hset & Hrun).
    unfold cache_set, ret in *. simplify_eq. simpl. apply lookup_insert_eq.
Qed.

(** A call whose key is in the cache returns the cached value and leaves the
    state as it is. *)
Lemma evaluateMetric_hit fuel name context transforms st v :
  cache st !! cacheKey name context = Some v →
  evalM (S fuel) name context transforms st = Ok (v, st).
Proof.
  intros Hc. cbn [evaluateMetric]. unfold bind, cache_get. by rewrite Hc.
Qed.

(** C5.  When a call of [evaluateMetric] has returned [v], a second call for
    the same metric and context through the same cache returns [v] again and
    leaves the state unchanged: the cache is the same and no aggregation and
    no function of the caller has been called again. *)
Theorem evaluateMetric_idempotent fuel name context transforms st v st' :
  evaluateMetric db factTables metricRegistry fuel name context transforms st
  = Ok (v, st') →
  ∀ fuel',
    evaluateMetric db factTables metricRegistry (S fuel') name context transforms st'
    = Ok (v, st').
Proof.
  intros Hrun fuel'. eapply evaluateMetric_hit, evaluateMetric_caches, Hrun.
Qed.

(** C6.  With a fresh cache, evaluating a context-transform metric under [C]
    gives what evaluating its base metric under [transform(C)] gives: the
    same value or the same error. *)
Theorem contextTransform_composition fuel name def transformFn context transforms :
  metricRegistry !! name = Some (contextTransform def) →
  obj_get (transform def) transforms = Some (TFn transformFn) →
  value_of
    (evaluateMetric db factTables metricRegistry (S fuel) name context transforms
       new_cache)
  = value_of
      (evaluateMetric db factTables metricRegistry fuel (baseMeasure def)
         (transformFn context) transforms new_cache).
Proof.
  intros Hdef Htr.
  rewrite (evaluateMetric_miss _ _ _ _ _ _ (lookup_empty _) Hdef), value_of_store.
  rewrite Htr. unfold bind, record. simpl.
  apply same_result_value. by apply cache_only_evaluateMetric.
Qed.

(** C7.  A fact-measure metric whose filtered row set is empty evaluates to 0
    under [sum] and under [count]. *)
Theorem factMeasure_empty fuel name def context transforms st factDef rows measure :
  metricRegistry !! name = Some (factMeasure def) →
  cache st !! cacheKey name context = None →
  factTables !! factTable def = Some factDef →
  facts db !! factTable def = Some rows →
  measures factDef !! factColumn def = Some measure →
  applyContextToFact rows context (default (table_grain factDef) (fm_grain def)) = [] →
  default (defaultAgg measure) (agg def) = "sum"
  ∨ default (defaultAgg measure) (agg def) = "count" →
  value_of (evaluateMetric db factTables metricRegistry (S fuel) name context transforms st)
  = Ok (Some (Fin 0%Qc)).
Proof.
  intros Hdef Hmiss Htable Hrows Hmeasure Hempty Hagg.
  rewrite (evaluateMetric_miss _ _ _ _ _ _ Hmiss Hdef), value_of_store.
  unfold evaluateFactMeasure, bind.
  rewrite Htable. simpl. rewrite Hrows. simpl. rewrite Hmeasure. simpl.
  rewrite Hempty.
  destruct Hagg as [-> | ->]; simpl; [done |].
  reflexivity.
Qed.

(** *** The grain property *)

Lemma filter_filter {A} (p1 p2 : A → bool) l :
  List.filter p2 (List.filter p1 l) = List.filter (λ x, p1 x && p2 x) l.
Proof.
  induction l as [|x l IH]; [done |]. simpl.
  destruct (p1 x); simpl; [destruct (p2 x) |]; by rewrite IH.
Qed.

Lemma filter_true {A} (l : list A) : List.filter (λ _, true) l = l.
Proof. induction l as [|x l IH]; [done |]. simpl. by rewrite IH. Qed.

Lemma applyContextToFact_filter rows context grain :
  applyContextToFact rows context grain = List.filter (passes grain context) rows.
Proof.
  unfold applyContextToFact. revert rows.
  induction context as [|[k f] context IH]; intros rows; simpl.
  - by rewrite filter_true.
  - rewrite IH. unfold passes at 2. simpl.
    destruct (filter_nullish f); [done |].
    destruct (includes grain k); simpl; [| done].
    unfold Linq.where_. by rewrite filter_filter.
Qed.

Lemma obj_get_In {A} (o : Obj A) k v : obj_get k o = Some v → In (k, v) o.
Proof.
  induction o as [|[k' v'] o IH]; [done |]. simpl.
  destruct (String.eqb_spec k' k) as [-> |]; [intros [= ->]; by left | auto].
Qed.

Lemma In_obj_get {A} (o : Obj A) k v :
  NoDup (obj_keys o) → In (k, v) o → obj_get k o = Some v.
Proof.
  induction o as [|[k' v'] o IH]; [done |]. simpl.
  intros [Hk Hnd]%NoDup_cons [[= -> ->] | Hin].
  - by rewrite String.eqb_refl.
  - destruct (String.eqb_spec k' k) as [-> |]; [| auto].
    exfalso. apply Hk. apply list_elem_of_In. unfold obj_keys.
    apply in_map_iff. by exists (k, v).
Qed.

Lemma includes_In xs k : includes xs k = true ↔ In k xs.
Proof.
  unfold includes. rewrite existsb_exists. split.
  - intros (x & Hx & ->%String.eqb_eq). done.
  - intros Hin. exists k. by rewrite String.eqb_refl.
Qed.

Lemma passes_agree grain C C' r :
  NoDup (obj_keys C') →
  (∀ k, In k grain → context_get C k = context_get C' k) →
  passes grain C r = true → passes grain C' r = true.
Proof.
  intros Hnd Hagree HC. unfold passes in *.
  rewrite forallb_forall in *. intros [k f'] Hin. simpl.
  destruct (filter_nullish f') eqn:Hnull; [done |].
  destruct (includes grain k) eqn:Hinc; [| done]. simpl.
  apply includes_In in Hinc.
  specialize (Hagree k Hinc). unfold context_get in Hagree.
  rewrite (In_obj_get C' k f' Hnd Hin) in Hagree. simpl in Hagree.
  destruct (obj_get k C) as [f|] eqn:Hget; simpl in Hagree; subst.
  - apply obj_get_In in Hget. specialize (HC _ Hget). simpl in HC.
    rewrite Hnull in HC. apply includes_In in Hinc. by rewrite Hinc in HC.
  - done.
Qed.

(** C4.  For a fact-measure metric, two contexts that carry the same filter
    on every key of the effective grain of the metric (its own grain, or
    else the grain of its fact table) evaluate to the same value, whatever
    they hold on the other keys; the evaluation ends, with a value or with
    an error. *)
Theorem grain_property fuel name def C C' transforms :
  metricRegistry !! name = Some (factMeasure def) →
  NoDup (obj_keys C) → NoDup (obj_keys C') →
  (∀ k, In k (effectiveGrain factTables def) → context_get C k = context_get C' k) →
  value_of (evaluateMetric db factTables metricRegistry (S fuel) name C transforms new_cache)
  = value_of
      (evaluateMetric db factTables metricRegistry (S fuel) name C' transforms new_cache)
  ∧ value_of
      (evaluateMetric db factTables metricRegistry (S fuel) name C transforms new_cache)
    ≠ OutOfFuel.
Proof.
  intros Hdef HndC HndC' Hagree.
  rewrite !(evaluateMetric_miss _ _ _ _ _ _ (lookup_empty _) Hdef), !value_of_store.
  unfold evaluateFactMeasure, bind, effectiveGrain in *.
  destruct (factTables !! factTable def) as [factDef|]; simpl; [| done].
  destruct (facts db !! factTable def) as [rows|]; simpl; [| done].
  assert (applyContextToFact rows C (default (table_grain factDef) (fm_grain def))
          = applyContextToFact rows C' (default (table_grain factDef) (fm_grain def)))
    as ->.
  { rewrite !applyContextToFact_filter. apply filter_ext. intros r.
    apply eq_true_iff_eq. split; apply passes_agree; auto.
    intros k Hk. symmetry. auto. }
  split; [done |].
  destruct (measures factDef !! factColumn def) as [measure|]; simpl; [| done].
  repeat match goal with |- context [String.eqb ?a ?b] => destruct (String.eqb a b) end;
    done.
Qed.

End EvaluatorFacts.

(* ===================================================================== *)
(** ** Objects: reading after writing                                     *)
(* ===================================================================== *)

Ltac eqb_cases :=
  repeat match goal with
    | |- context [String.eqb ?a ?b] => destruct (String.eqb_spec a b); subst
    end;
  try congruence; try done.

Section ObjectFacts.
Context {A : Type}.
Implicit Types (o : Obj A) (k : string) (v : A).

Lemma obj_get_update o k k' v :
  obj_get k' (obj_update k v o)
  = if String.eqb k k' then (if obj_has k o then Some v else None) else obj_get k' o.
Proof.
  unfold obj_has. induction o as [|[k0 v0] o IH]; simpl.
  - by destruct (String.eqb k k').
  - destruct (String.eqb_spec k0 k) as [-> | Hne]; simpl.
    + by destruct (String.eqb k k').
    + rewrite IH. eqb_cases.
Qed.

Lemma obj_get_insert_index o i k k' v :
  obj_get k o = None →
  obj_get k' (obj_insert_index i k v o) = if String.eqb k k' then Some v else obj_get k' o.
Proof.
  induction o as [|[k0 v0] o IH]; simpl; [done |].
  destruct (String.eqb_spec k0 k) as [-> | Hne]; [done |]. intros Hnone.
  destruct (array_index k0) as [j|]; [destruct (j <? i)%N |]; simpl; try done.
  rewrite IH by done. eqb_cases.
Qed.

Lemma obj_get_app o1 o2 k :
  obj_get k (o1 ++ o2) = match obj_get k o1 with Some v => Some v | None => obj_get k o2 end.
Proof.
  induction o1 as [|[k0 v0] o1 IH]; simpl; [done |]. by destruct (String.eqb k0 k).
Qed.

(** Reading a property after an assignment. *)
Lemma obj_get_set o k k' v :
  obj_get k' (obj_set k v o) = if String.eqb k k' then Some v else obj_get k' o.
Proof.
  unfold obj_set. destruct (obj_has k o) eqn:Hhas.
  - by rewrite obj_get_update, Hhas.
  - unfold obj_has in Hhas. destruct (obj_get k o) eqn:Hget; [done |].
    destruct (array_index k).
    + by apply obj_get_insert_index.
    + rewrite obj_get_app. simpl. destruct (String.eqb_spec k k') as [<- |].
      * by rewrite Hget.
      * by destruct (obj_get k' o).
Qed.

End ObjectFacts.

(* ===================================================================== *)
(** ** The cache is transparent when its keys are injective               *)
(* ===================================================================== *)

Section CacheTransparency.
Context `{Builtins}.
Variable db : InMemoryDb.
Variable factTables : FactTableRegistry.
Variable metricRegistry : MetricRegistry.
Variable transforms : ContextTransformsRegistry.

(** The contexts an evaluation can reach: a set closed under the registered
    transforms, on which the cache key tells metrics and contexts apart. *)
Variable Reach : FilterContext → Prop.
Hypothesis Reach_transform :
  ∀ t f c, obj_get t transforms = Some (TFn f) → Reach c → Reach (f c).
Hypothesis cacheKey_inj :
  ∀ m c m' c', Reach c → Reach c' → cacheKey m c = cacheKey m' c' → m = m' ∧ c = c'.

Local Notation "'evalM'" := (evaluateMetric db factTables metricRegistry).
Local Notation "'evalU'" := (evaluateUncached db factTables metricRegistry transforms).
Local Notation "'sound'" := (cache_sound db factTables metricRegistry transforms Reach).

(** The two branches that do not recurse run the same from every state. *)
Lemma evaluateFactMeasure_run name def c st :
  evaluateFactMeasure db factTables name def c st
  = match value_of (evaluateFactMeasure db factTables name def c new_cache) with
    | Ok v => Ok (v, {| cache := cache st; calls := calls st ++ [Aggregated name] |})
    | Throw e => Throw e
    | OutOfFuel => OutOfFuel
    end.
Proof.
  unfold evaluateFactMeasure, bind.
  destruct (factTables !! factTable def) as [factDef|]; simpl; [| done].
  destruct (facts db !! factTable def) as [rows|]; simpl; [| done].
  destruct (measures factDef !! factColumn def) as [measure|]; simpl; [| done].
  repeat match goal with |- context [String.eqb ?a ?b] => destruct (String.eqb a b) end;
    done.
Qed.

Lemma evaluateExpression_run name def c st :
  evaluateExpression db factTables name def c st
  = match value_of (evaluateExpression db factTables name def c new_cache) with
    | Ok v => Ok (v, {| cache := cache st; calls := calls st ++ [ExpressionCalled name] |})
    | Throw e => Throw e
    | OutOfFuel => OutOfFuel
    end.
Proof.
  unfold evaluateExpression, bind.
  destruct (factTables !! ex_factTable def) as [factDef|]; simpl; [| done].
  destruct (facts db !! ex_factTable def) as [rows|]; simpl; done.
Qed.

(** More fuel does not change a value. *)
Lemma forEachUncached_mono (ev1 ev2 : string → Outcome MetricValue) names out r :
  (∀ m v, ev1 m = Ok v → ev2 m = Ok v) →
  forEachUncached ev1 names out = Ok r → forEachUncached ev2 names out = Ok r.
Proof.
  intros Hev. revert out. induction names as [|m names IH]; intros out; simpl; [done |].
  destruct (ev1 m) as [v| |] eqn:H1; [| done | done].
  rewrite (Hev _ _ H1). apply IH.
Qed.

Lemma evalU_mono n n' m c v : (n ≤ n')%nat → evalU n m c = Ok v → evalU n' m c = Ok v.
Proof.
  revert n' m c v. induction n as [|n IH]; intros n' m c v Hle; [done |].
  destruct n' as [|n']; [lia |]. simpl.
  destruct (metricRegistry !! m) as [[d|d|d|d]|]; try done.
  - destruct (forEachUncached _ _ _) as [depValues| |] eqn:Hloop; [| done | done].
    intros Hv.
    rewrite (forEachUncached_mono _ (λ dep, evalU n' dep c) _ _ _
               (λ dep w, IH n' dep c w ltac:(lia)) Hloop).
    done.
  - destruct (obj_get _ _) as [[f|w]|]; [| done | done]. apply IH. lia.
Qed.

Lemma evalU_det n n' m c v v' : evalU n m c = Ok v → evalU n' m c = Ok v' → v = v'.
Proof.
  intros H1 H2.
  apply (evalU_mono _ (n `max` n')) in H1; [| lia].
  apply (evalU_mono _ (n `max` n')) in H2; [| lia].
  congruence.
Qed.

Lemma forEachMetric_mono (ev1 ev2 : string → M MetricValue) names out st r :
  (∀ m s w, ev1 m s = Ok w → ev2 m s = Ok w) →
  forEachMetric ev1 names out st = Ok r → forEachMetric ev2 names out st = Ok r.
Proof.
  intros Hev. destruct r as [res st']. revert out st.
  induction names as [|m names IH]; intros out st; simpl; [done |].
  intros (v & st1 & H1 & Hrest)%bind_Ok. apply bind_Ok.
  exists v, st1. split; [by apply Hev | by apply IH].
Qed.

Lemma evalM_mono n n' m c st r :
  (n ≤ n')%nat → evalM n m c transforms st = Ok r → evalM n' m c transforms st = Ok r.
Proof.
  revert n' m c st r. induction n as [|n IH]; intros n' m c st [v st'] Hle; [done |].
  destruct n' as [|n']; [lia |].
  destruct (cache st !! cacheKey m c) as [w|] eqn:Hc.
  { by rewrite !(evaluateMetric_hit _ _ _ _ _ _ _ _ _ Hc). }
  destruct (metricRegistry !! m) as [def|] eqn:Hdef.
  2: { cbn [evaluateMetric]. unfold bind, cache_get. rewrite Hc, Hdef. done. }
  rewrite !(evaluateMetric_miss _ _ _ _ _ _ _ _ _ Hc Hdef).
  unfold store. intros (value & st1 & Hbranch & Hset)%bind_Ok.
  apply bind_Ok. exists value, st1. split; [| done].
  destruct def as [d|d|d|d]; try done.
  - apply bind_Ok in Hbranch as (depValues & st2 & Hloop & Hrest).
    apply bind_Ok. exists depValues, st2. split; [| done].
    eapply forEachMetric_mono; [| exact Hloop].
    intros dep s w. apply IH. lia.
  - destruct (obj_get _ _) as [[f|w]|]; [| done | done].
    apply bind_Ok in Hbranch as ([] & st2 & Hrec & Hrest).
    apply bind_Ok. exists tt, st2. split; [done |]. revert Hrest. apply IH. lia.
Qed.

(** Soundness of the cache only looks at the cache. *)
Lemma sound_cache_eq st st' : cache st = cache st' → sound st → sound st'.
Proof. intros Heq Hs m c v Hr. rewrite <- Heq. by apply Hs. Qed.

Lemma sound_new_cache : sound new_cache.
Proof. intros m c v _. simpl. by rewrite lookup_empty. Qed.

Lemma sound_insert st m c n v events :
  sound st → Reach c → evalU n m c = Ok v →
  sound {| cache := <[cacheKey m c := v]> (cache st); calls := events |}.
Proof.
  intros Hs Hr Hv m' c' v' Hr'. simpl.
  destruct (decide (cacheKey m c = cacheKey m' c')) as [Heq | Hne].
  - rewrite <- Heq, lookup_insert_eq. intros [= <-].
    destruct (cacheKey_inj _ _ _ _ Hr Hr' Heq) as [<- <-]. eauto.
  - rewrite lookup_insert_ne by done. by apply Hs.
Qed.

(** The loop over the dependencies preserves soundness and computes what
    the uncached loop computes. *)
Lemma forEachMetric_sound fuel c names :
  (∀ m st v st', sound st → evalM fuel m c transforms st = Ok (v, st') →
     (∃ n, evalU n m c = Ok v) ∧ sound st') →
  ∀ out st out' st', sound st →
    forEachMetric (λ dep, evalM fuel dep c transforms) names out st = Ok (out', st') →
    (∃ n, forEachUncached (λ dep, evalU n dep c) names out = Ok out') ∧ sound st'.
Proof.
  intros Hev. induction names as [|m names IH]; intros out st out' st' Hs; simpl.
  - unfold ret. intros [= <- <-]. split; [by exists 0%nat | done].
  - intros (v & st1 & H1 & Hrest)%bind_Ok.
    destruct (Hev _ _ _ _ Hs H1) as [[n1 Hn1] Hs1].
    destruct (IH _ _ _ _ Hs1 Hrest) as [[n2 Hn2] Hs']. split; [| done].
    exists (n1 `max` n2). rewrite (evalU_mono n1 (n1 `max` n2) _ _ _ ltac:(lia) Hn1).
    eapply forEachUncached_mono; [| exact Hn2].
    intros dep w. apply evalU_mono. lia.
Qed.

(** A cached evaluation from a sound cache returns the uncached value and
    leaves a sound cache. *)
Lemma evalM_sound fuel m c st v st' :
  Reach c → sound st → evalM fuel m c transforms st = Ok (v, st') →
  (∃ n, evalU n m c = Ok v) ∧ sound st'.
Proof.
  revert m c st v st'. induction fuel as [|fuel IH]; intros m c st v st' Hr Hs; [done |].
  destruct (cache st !! cacheKey m c) as [w|] eqn:Hc.
  { rewrite (evaluateMetric_hit _ _ _ _ _ _ _ _ _ Hc). intros [= <- <-]. eauto. }
  destruct (metricRegistry !! m) as [def|] eqn:Hdef.
  2: { cbn [evaluateMetric]. unfold bind, cache_get. rewrite Hc, Hdef. done. }
  rewrite (evaluateMetric_miss _ _ _ _ _ _ _ _ _ Hc Hdef).
  unfold store. intros (value & st1 & Hbranch & Hset)%bind_Ok.
  unfold bind, cache_set, ret in Hset. injection Hset as <- <-.
  cut ((∃ n, evalU n m c = Ok value) ∧ sound st1).
  { intros [[n Hn] Hs1]. split; [eauto |]. by eapply sound_insert. }
  destruct def as [d|d|d|d].
  - rewrite evaluateFactMeasure_run in Hbranch.
    destruct (value_of _) as [w| |] eqn:Hpure; [| done | done].
    injection Hbranch as <- <-. split.
    + exists 1%nat. simpl. by rewrite Hdef.
    + by eapply sound_cache_eq; [| exact Hs].
  - rewrite evaluateExpression_run in Hbranch.
    destruct (value_of _) as [w| |] eqn:Hpure; [| done | done].
    injection Hbranch as <- <-. split.
    + exists 1%nat. simpl. by rewrite Hdef.
    + by eapply sound_cache_eq; [| exact Hs].
  - apply bind_Ok in Hbranch as (depValues & st2 & Hloop & Hrest).
    unfold bind, record, ret in Hrest. injection Hrest as <- <-.
    destruct (forEachMetric_sound fuel c (dependencies d)
                (λ m0 s w s' Hs0, IH m0 c s w s' Hr Hs0) _ _ _ _ Hs Hloop)
      as [[n Hn] Hs2].
    split.
    + exists (S n). simpl. by rewrite Hdef, Hn.
    + by eapply sound_cache_eq; [| exact Hs2].
  - destruct (obj_get (transform d) transforms) as [[f|w]|] eqn:Htr; [| | done].
    2: { by destruct (filter_falsy w). }
    apply bind_Ok in Hbranch as ([] & st2 & Hrec & Hrest).
    unfold record in Hrec. injection Hrec as <-.
    apply IH in Hrest as [[n Hn] Hs1]; [| by eapply Reach_transform | done].
    split; [| done]. exists (S n). simpl. by rewrite Hdef, Htr.
Qed.

(** Conversely, where the uncached evaluation returns a value, the cached
    one returns it too, from every sound cache. *)
Lemma forEachMetric_complete n c names :
  (∀ m v st, sound st → evalU n m c = Ok v →
     ∃ fuel st', evalM fuel m c transforms st = Ok (v, st')) →
  Reach c →
  ∀ out st out', sound st →
    forEachUncached (λ dep, evalU n dep c) names out = Ok out' →
    ∃ fuel st', forEachMetric (λ dep, evalM fuel dep c transforms) names out st
                = Ok (out', st').
Proof.
  intros Hev Hr. induction names as [|m names IH]; intros out st out' Hs; simpl.
  - intros [= <-]. by exists 0%nat, st.
  - destruct (evalU n m c) as [v| |] eqn:Hv; [| done | done]. intros Hrest.
    destruct (Hev _ _ _ Hs Hv) as (f1 & st1 & H1).
    destruct (evalM_sound _ _ _ _ _ _ Hr Hs H1) as [_ Hs1].
    destruct (IH _ _ _ Hs1 Hrest) as (f2 & st2 & H2).
    exists (f1 `max` f2), st2. apply bind_Ok. exists v, st1. split.
    + eapply evalM_mono; [| exact H1]. lia.
    + eapply forEachMetric_mono; [| exact H2].
      intros dep s w. apply evalM_mono. lia.
Qed.

Lemma evalM_complete n m c v st :
  Reach c → sound st → evalU n m c = Ok v →
  ∃ fuel st', evalM fuel m c transforms st = Ok (v, st').
Proof.
  revert m c v st. induction n as [|n IH]; intros m c v st Hr Hs; [done |].
  intros Hu.
  destruct (cache st !! cacheKey m c) as [w|] eqn:Hc.
  { destruct (Hs _ _ _ Hr Hc) as [n' Hn'].
    rewrite (evalU_det _ _ _ _ _ _ Hu Hn').
    exists 1%nat, st. by apply evaluateMetric_hit. }
  simpl in Hu. destruct (metricRegistry !! m) as [def|] eqn:Hdef; [| done].
  cut (∃ fuel st1,
         match def with
         | factMeasure def => evaluateFactMeasure db factTables m def c
         | expressionMetric def => evaluateExpression db factTables m def c
         | derived def =>
             depValues <-
               forEachMetric (λ dep, evalM fuel dep c transforms)
                 (dependencies def) [] ;;
             record (CombinatorCalled m) ;;;
             ret (evalFromDeps def depValues db c)
         | contextTransform def =>
             match obj_get (transform def) transforms with
             | None => throw (UnknownContextTransform (transform def))
             | Some (TFn transformFn) =>
                 record (TransformCalled (transform def)) ;;;
                 evalM fuel (baseMeasure def) (transformFn c) transforms
             | Some (TValue v) =>
                 if filter_falsy v
                 then throw (UnknownContextTransform (transform def))
                 else throw TypeError
             end
         end st = Ok (v, st1)).
  { intros (fuel & st1 & Hbranch). exists (S fuel). eexists.
    rewrite (evaluateMetric_miss _ _ _ _ _ _ _ _ _ Hc Hdef).
    unfold store. apply bind_Ok. exists v, st1. split; [exact Hbranch | done]. }
  destruct def as [d|d|d|d].
  - exists 0%nat. rewrite evaluateFactMeasure_run, Hu. eauto.
  - exists 0%nat. rewrite evaluateExpression_run, Hu. eauto.
  - destruct (forEachUncached _ _ _) as [depValues| |] eqn:Hloop; [| done | done].
    injection Hu as <-.
    destruct (forEachMetric_complete n c (dependencies d)
                (λ m0 w s Hs0 Hw, IH m0 c w s Hr Hs0 Hw) Hr _ _ _ Hs Hloop)
      as (fuel & st2 & Hrun).
    exists fuel. eexists. apply bind_Ok. exists depValues, st2. split; [done |].
    done.
  - destruct (obj_get (transform d) transforms) as [[f|w]|] eqn:Htr; [| | done].
    2: { by destruct (filter_falsy w). }
    destruct (IH (baseMeasure d) (f c) v
                {| cache := cache st; calls := calls st ++ [TransformCalled (transform d)] |})
      as (fuel & st1 & Hrun); [by eapply Reach_transform | | done |].
    { by eapply sound_cache_eq; [| exact Hs]. }
    exists fuel, st1. apply bind_Ok. eexists tt, _. split; [reflexivity | exact Hrun].
Qed.

(** The loop of [evaluateMetrics]: every requested name ends up with its
    uncached value. *)
Lemma evaluateMetrics_loop fuel c names :
  Reach c →
  ∀ out st out' st', sound st →
    forEachMetric (λ m, evalM fuel m c transforms) names out st = Ok (out', st') →
    (∀ name, In name names →
       ∃ n v, evalU n name c = Ok v ∧ obj_get name out' = Some v)
    ∧ (∀ name, ¬ In name names → obj_get name out' = obj_get name out)
    ∧ sound st'.
Proof.
  intros Hr. induction names as [|m names IH]; intros out st out' st' Hs; simpl.
  - unfold ret. intros [= <- <-]. repeat split; [intros name [] | done].
  - intros (v & st1 & H1 & Hrest)%bind_Ok.
    destruct (evalM_sound _ _ _ _ _ _ Hr Hs H1) as [[n1 Hn1] Hs1].
    destruct (IH _ _ _ _ Hs1 Hrest) as (Hin & Hout & Hs').
    split; [| split; [| done]].
    + intros name [<- | Hname]; [| by apply Hin].
      destruct (in_dec String.string_dec m names) as [Hm | Hm]; [by apply Hin |].
      exists n1, v. split; [done |].
      by rewrite (Hout _ Hm), obj_get_set, String.eqb_refl.
    + intros name Hname. rewrite Hout by tauto. rewrite obj_get_set.
      destruct (String.eqb_spec m name); [tauto | done].
Qed.

(** C10, as amended.  Let the contexts an evaluation can reach (a set holding
    the given context and closed under the registered transforms) be such
    that the cache key tells apart every two pairs of a metric name and a
    reachable context.  Then each name requested from [evaluateMetrics] has,
    in the map returned, the value that a standalone [evaluateMetric] call
    with a fresh cache returns for that name and context. *)
Theorem evaluateMetrics_transparent fuel names context results :
  Reach context →
  evaluateMetrics db factTables metricRegistry fuel names context transforms = Ok results →
  ∀ name, In name names →
    ∃ fuel' v,
      value_of
        (evaluateMetric db factTables metricRegistry fuel' name context transforms
           new_cache)
      = Ok v
      ∧ obj_get name results = Some v.
Proof.
  intros Hr Hrun name Hname. unfold evaluateMetrics in Hrun.
  destruct (forEachMetric _ _ _ _) as [[out' st']| |] eqn:Hloop; [| done | done].
  injection Hrun as ->.
  destruct (evaluateMetrics_loop _ _ _ Hr _ _ _ _ sound_new_cache Hloop) as (Hin & _ & _).
  destruct (Hin _ Hname) as (n & v & Hv & Hget).
  destruct (evalM_complete _ _ _ _ _ Hr sound_new_cache Hv) as (fuel' & st1 & Hrun).
  exists fuel', v. by rewrite Hrun.
Qed.

End CacheTransparency.

(* ===================================================================== *)
(** ** Grouping in [runQuery]                                             *)
(* ===================================================================== *)

Section Grouping.
Context `{Builtins}.

(** What [pick] leaves in its result: the requested columns that the row
    defines. *)
Lemma pick_get (r : Row) (keys : list string) (k : string) :
  obj_get k (pick r keys)
  = if includes keys k
    then match cell r k with PUndefined => None | v => Some v end
    else None.
Proof.
  unfold pick.
  cut (∀ out,
         obj_get k (fold_left (λ out k0, match cell r k0 with
                                         | PUndefined => out
                                         | v => obj_set k0 v out
                                         end) keys out)
         = if includes keys k
           then match cell r k with PUndefined => obj_get k out | v => Some v end
           else obj_get k out).
  { intros Hcut. rewrite Hcut. simpl. by destruct (includes keys k), (cell r k). }
  induction keys as [|k0 keys IH]; intros out; [done |].
  cbn [fold_left]. rewrite IH. unfold includes. cbn [existsb].
  fold (includes keys k).
  destruct (String.eqb_spec k k0) as [<- | Hne]; simpl.
  - destruct (includes keys k), (cell r k) eqn:Hcell; try done;
      by rewrite obj_get_set, String.eqb_refl.
  - assert (∀ v, obj_get k (obj_set k0 v out) = obj_get k out) as Hset.
    { intros v. rewrite obj_get_set. by destruct (String.eqb_spec k0 k). }
    destruct (includes keys k), (cell r k0); by rewrite ?Hset.
Qed.

(** [pick] only reads the requested columns. *)
Lemma pick_ext (r1 r2 : Row) (keys : list string) :
  (∀ k, In k keys → cell r1 k = cell r2 k) → pick r1 keys = pick r2 keys.
Proof.
  unfold pick. generalize (@nil (string * Prim)).
  induction keys as [|k keys IH]; intros out Hagree; [done |].
  cbn [fold_left]. rewrite (Hagree k) by by left.
  apply IH. intros k' Hk'. apply Hagree. by right.
Qed.

End Grouping.

Section GroupBy.
Context {A : Type} (f : A → string).

Lemma group_add_keys key (x : A) gs :
  map fst (Linq.group_add key x gs)
  = if bool_decide (key ∈ map fst gs) then map fst gs else map fst gs ++ [key].
Proof.
  induction gs as [|[k xs] gs IH]; simpl; [done |].
  destruct (String.eqb_spec k key) as [-> | Hne]; simpl.
  - rewrite bool_decide_eq_true_2; [done | by left].
  - rewrite IH. case_bool_decide as Hin.
    + rewrite bool_decide_eq_true_2; [done | by right].
    + rewrite bool_decide_eq_false_2; [done |].
      intros [? | ?]%elem_of_cons; congruence.
Qed.

Lemma group_add_keeps key (x : A) gs k xs y :
  In (k, xs) gs → In y xs →
  ∃ xs', In (k, xs') (Linq.group_add key x gs) ∧ In y xs'.
Proof.
  induction gs as [|[k0 xs0] gs IH]; simpl; [done |].
  intros [[= -> ->] | Hin] Hy.
  - destruct (String.eqb k key).
    + exists (xs ++ [x]). split; [by left | apply in_or_app; by left].
    + exists xs. split; [by left | done].
  - destruct (String.eqb k0 key).
    + exists xs. split; [by right | done].
    + destruct (IH Hin Hy) as (xs' & Hin' & Hy').
      exists xs'. split; [by right | done].
Qed.

Lemma group_add_new key (x : A) gs :
  ∃ xs, In (key, xs) (Linq.group_add key x gs) ∧ In x xs.
Proof.
  induction gs as [|[k0 xs0] gs IH]; simpl.
  - exists [x]. split; by left.
  - destruct (String.eqb_spec k0 key) as [-> | Hne].
    + exists (xs0 ++ [x]). split; [by left | apply in_or_app; right; by left].
    + destruct IH as (xs & Hin & Hx). exists xs. split; [by right | done].
Qed.

Lemma groupBy_snoc (l : list A) x :
  Linq.groupBy f (l ++ [x]) = Linq.group_add (f x) x (Linq.groupBy f l).
Proof. unfold Linq.groupBy. by rewrite fold_left_app. Qed.

(** The keys of the groups are pairwise distinct. *)
Lemma groupBy_NoDup (l : list A) : NoDup (map fst (Linq.groupBy f l)).
Proof.
  induction l as [|x l IH] using rev_ind; [constructor |].
  rewrite groupBy_snoc, group_add_keys. case_bool_decide as Hin; [done |].
  apply NoDup_app. split; [done |]. split.
  - by intros k Hk ->%list_elem_of_singleton.
  - apply NoDup_singleton.
Qed.

(** Every element is a member of the group of its key. *)
Lemma groupBy_member (l : list A) x :
  In x l → ∃ xs, In (f x, xs) (Linq.groupBy f l) ∧ In x xs.
Proof.
  induction l as [|y l IH] using rev_ind; [done |].
  rewrite groupBy_snoc. intros [Hin | [-> | []]]%in_app_or.
  - destruct (IH Hin) as (xs & Hg & Hx). by eapply group_add_keeps.
  - apply group_add_new.
Qed.


Lemma group_add_inv key (x : A) gs k xs :
  In (k, xs) (Linq.group_add key x gs) →
  In (k, xs) gs
  ∨ (k = key ∧ xs = [x])
  ∨ (k = key ∧ ∃ xs0, xs = xs0 ++ [x] ∧ In (key, xs0) gs).
Proof.
  induction gs as [|[k0 xs0] gs IH]; simpl.
  - intros [[= <- <-] | []]. right. by left.
  - destruct (String.eqb_spec k0 key) as [-> | Hne].
    + intros [[= <- <-] | Hin].
      * right. right. split; [done |]. exists xs0. split; [done | by left].
      * left. by right.
    + intros [[= <- <-] | Hin]; [left; by left |].
      destruct (IH Hin) as [H1 | [H2 | (-> & xs1 & -> & H3)]].
      * left. by right.
      * right. by left.
      * right. right. split; [done |]. exists xs1. split; [done | by right].
Qed.

(** A group is not empty and its members all have its key. *)
Lemma groupBy_key (l : list A) k xs :
  In (k, xs) (Linq.groupBy f l) → xs ≠ [] ∧ ∀ x, In x xs → f x = k.
Proof.
  revert k xs. induction l as [|y l IH] using rev_ind; intros k xs; [done |].
  rewrite groupBy_snoc.
  intros [Hin | [[-> ->] | (-> & xs0 & -> & Hin)]]%group_add_inv.
  - by apply IH.
  - split; [done |]. by intros x [<- | []].
  - destruct (IH _ _ Hin) as [_ Hkeys]. split.
    + by destruct xs0.
    + intros x [Hx | [<- | []]]%in_app_or; auto.
Qed.

End GroupBy.

Section GroupKey.
Context `{Builtins}.


(** The key of a group of [runQuery] is the key of its first row, which is
    what [groupKeyObj] reads it from. *)
Lemma group_key_of_first_row (rowDims : list string) (rows : list Row) g :
  In g (Linq.groupBy (groupKey rowDims) rows) →
  ∃ r members, g.2 = r :: members ∧ g.1 = groupKey rowDims r.
Proof.
  destruct g as [k xs]. intros [Hne Hkeys]%groupBy_key. simpl.
  destruct xs as [|r members]; [done |].
  exists r, members. split; [done |]. symmetry. apply Hkeys. by left.
Qed.


End GroupKey.

(* ===================================================================== *)
(** ** Errors on fact tables                                              *)
(* ===================================================================== *)

Section FactTableErrors.
Context `{Builtins}.
Variable db : InMemoryDb.
Variable factTables : FactTableRegistry.
Variable metricRegistry : MetricRegistry.

Lemma forEachMetric_throw (evaluate : string → M MetricValue) m names out st e :
  evaluate m st = Throw e → forEachMetric evaluate (m :: names) out st = Throw e.
Proof. intros Hm. simpl. unfold bind. by rewrite Hm. Qed.

Lemma bind_Throw {A B} (m : M A) (k : A → M B) st e :
  m st = Throw e → bind m k st = Throw e.
Proof. intros Hm. unfold bind. by rewrite Hm. Qed.

Lemma bind_Ok_run {A B} (m : M A) (k : A → M B) st a st' :
  m st = Ok (a, st') → bind m k st = k a st'.
Proof. intros Hm. unfold bind. by rewrite Hm. Qed.

(** A loop over a list is the loop over its first part, then the loop over
    the rest. *)
Lemma forEachMetric_app (evaluate : string → M MetricValue) before after out st :
  forEachMetric evaluate (before ++ after) out st
  = bind (forEachMetric evaluate before out)
      (λ out1, forEachMetric evaluate after out1) st.
Proof.
  revert out st. induction before as [|m before IH]; intros out st; simpl;
    [reflexivity |].
  unfold bind in *. destruct (evaluate m st) as [[v st1]| |]; [| done | done].
  apply IH.
Qed.

Lemma runQueryMetrics_app fuel transforms rowContext before after metricValues st :
  runQueryMetrics db factTables metricRegistry fuel transforms rowContext
    (before ++ after) metricValues st
  = bind (runQueryMetrics db factTables metricRegistry fuel transforms rowContext
            before metricValues)
      (λ values, runQueryMetrics db factTables metricRegistry fuel transforms
                   rowContext after values) st.
Proof.
  revert metricValues st.
  induction before as [|m before IH]; intros metricValues st; simpl; [reflexivity |].
  unfold bind in *.
  destruct (evaluateMetric _ _ _ _ _ _ _ st) as [[v st1]| |]; [| done | done].
  destruct (or_throw _ _ st1) as [[def st2]| |]; [| done | done].
  apply IH.
Qed.

Lemma runQueryGroups_app fuel transforms dimensionConfig options before after result st :
  runQueryGroups db factTables metricRegistry fuel transforms dimensionConfig options
    (before ++ after) result st
  = bind (runQueryGroups db factTables metricRegistry fuel transforms dimensionConfig
            options before result)
      (λ result1, runQueryGroups db factTables metricRegistry fuel transforms
                    dimensionConfig options after result1) st.
Proof.
  revert result st.
  induction before as [|g before IH]; intros result st; simpl; [reflexivity |].
  unfold bind in *.
  destruct (runQueryMetrics _ _ _ _ _ _ _ _ st) as [[values st1]| |]; [| done | done].
  apply IH.
Qed.

(** C8, as amended.  Evaluating, on a key that is not cached, a fact-measure
    or expression metric whose fact table is not in the fact table registry
    throws "Unknown fact table"; when the table is in the registry and the
    database has no rows for it, it throws "Missing rows for fact table"
    (the table name being none that every object inherits).  An error thrown
    by an evaluation is what the enclosing call throws, in place of any
    result: the derived metric whose dependency it is, whatever dependencies
    were evaluated before; the context-transform metric whose base it is;
    [evaluateMetrics], whatever names were evaluated before; and [runQuery],
    whatever groups and metrics were evaluated before.  [runQuery] throws
    "Unknown fact table" when the database has no rows for [factForRows],
    whatever the fact table registry holds. *)
Theorem unknownFactTable_errors :
  (∀ fuel name def t e context transforms st,
     metricRegistry !! name = Some def →
     referencedTable def = Some t →
     inherited t = false →
     factTableError db factTables t = Some e →
     cache st !! cacheKey name context = None →
     evaluateMetric db factTables metricRegistry (S fuel) name context transforms st
     = Throw e)
  ∧ (∀ fuel name def before dep after values context transforms st st1 e,
       metricRegistry !! name = Some (derived def) →
       cache st !! cacheKey name context = None →
       dependencies def = before ++ dep :: after →
       forEachMetric
         (λ d, evaluateMetric db factTables metricRegistry fuel d context transforms)
         before [] st = Ok (values, st1) →
       evaluateMetric db factTables metricRegistry fuel dep context transforms st1
       = Throw e →
       evaluateMetric db factTables metricRegistry (S fuel) name context transforms st
       = Throw e)
  ∧ (∀ fuel name def transformFn context transforms st e,
       metricRegistry !! name = Some (contextTransform def) →
       cache st !! cacheKey name context = None →
       obj_get (transform def) transforms = Some (TFn transformFn) →
       evaluateMetric db factTables metricRegistry fuel (baseMeasure def)
         (transformFn context) transforms
         {| cache := cache st;
            calls := calls st ++ [TransformCalled (transform def)] |}
       = Throw e →
       evaluateMetric db factTables metricRegistry (S fuel) name context transforms st
       = Throw e)
  ∧ (∀ fuel before name after values context transforms st1 e,
       forEachMetric
         (λ m, evaluateMetric db factTables metricRegistry fuel m context transforms)
         before [] new_cache = Ok (values, st1) →
       evaluateMetric db factTables metricRegistry fuel name context transforms st1
       = Throw e →
       evaluateMetrics db factTables metricRegistry fuel (before ++ name :: after)
         context transforms
       = Throw e)
  ∧ (∀ fuel transforms dimensionConfig options factRows groupsBefore g groupsAfter
       result st1 metricsBefore m metricsAfter metricValues st2 e,
       facts db !! factForRows options = Some factRows →
       Linq.groupBy (groupKey (rows options))
         (applyContextToFact factRows (default [] (filters options))
            (obj_keys (default [] (head factRows))))
       = groupsBefore ++ g :: groupsAfter →
       runQueryGroups db factTables metricRegistry fuel transforms dimensionConfig
         options groupsBefore [] new_cache = Ok (result, st1) →
       metrics options = metricsBefore ++ m :: metricsAfter →
       runQueryMetrics db factTables metricRegistry fuel transforms
         (groupRowContext options g) metricsBefore [] st1 = Ok (metricValues, st2) →
       evaluateMetric db factTables metricRegistry fuel m
         (context_of_transforms transforms)
         (transforms_of_context (groupRowContext options g)) st2
       = Throw e →
       runQuery db factTables metricRegistry fuel transforms dimensionConfig options
       = Throw e)
  ∧ (∀ fuel transforms dimensionConfig options,
       facts db !! factForRows options = None →
       inherited (factForRows options) = false →
       runQuery db factTables metricRegistry fuel transforms dimensionConfig options
       = Throw (UnknownFactTable (factForRows options))).
Proof.
  repeat split.
  - intros fuel name def t e context transforms st Hdef Ht _ He Hmiss.
    rewrite (evaluateMetric_miss _ _ _ _ _ _ _ _ _ Hmiss Hdef).
    unfold store, bind, factTableError in *.
    destruct def as [d|d|d|d]; simpl in Ht; simplify_eq.
    + unfold evaluateFactMeasure, bind.
      destruct (factTables !! factTable d); simpl; [| congruence].
      destruct (facts db !! factTable d); simpl; congruence.
    + unfold evaluateExpression, bind.
      destruct (factTables !! ex_factTable d); simpl; [| congruence].
      destruct (facts db !! ex_factTable d); simpl; congruence.
  - intros fuel name def before dep after values context transforms st st1 e
      Hdef Hmiss Hdeps Hbefore Hdep.
    rewrite (evaluateMetric_miss _ _ _ _ _ _ _ _ _ Hmiss Hdef).
    unfold store. rewrite Hdeps. apply bind_Throw, bind_Throw.
    rewrite forEachMetric_app, (bind_Ok_run _ _ _ _ _ Hbefore).
    by apply forEachMetric_throw.
  - intros fuel name def transformFn context transforms st e Hdef Hmiss Htr Hbase.
    rewrite (evaluateMetric_miss _ _ _ _ _ _ _ _ _ Hmiss Hdef).
    unfold store. rewrite Htr. apply bind_Throw.
    unfold bind at 1. unfold record at 1. exact Hbase.
  - intros fuel before name after values context transforms st1 e Hbefore Hname.
    unfold evaluateMetrics.
    rewrite forEachMetric_app, (bind_Ok_run _ _ _ _ _ Hbefore).
    by rewrite (forEachMetric_throw _ _ _ _ _ e).
  - intros fuel transforms dimensionConfig options factRows groupsBefore g groupsAfter
      result st1 metricsBefore m metricsAfter metricValues st2 e
      Hrows Hgroups Hbefore Hmetrics HmetricsBefore Hm.
    unfold runQuery, Row, Obj in *. rewrite Hrows, Hgroups.
    rewrite runQueryGroups_app, (bind_Ok_run _ _ _ _ _ Hbefore).
    cbn [runQueryGroups]. fold (groupRowContext options g).
    rewrite (bind_Throw _ _ _ e); [done |].
    rewrite Hmetrics, runQueryMetrics_app, (bind_Ok_run _ _ _ _ _ HmetricsBefore).
    cbn [runQueryMetrics]. by apply bind_Throw.
  - intros fuel transforms dimensionConfig options Hrows _.
    unfold runQuery.
    by destruct (facts db !! factForRows options) eqn:Hlook; [congruence |].
Qed.

End FactTableErrors.

(* ===================================================================== *)
(** ** Concrete evaluations on the demo data                              *)
(* ===================================================================== *)


(** C1.  On the first demo query of the source (sales of February 2025 by
    region and product), [runQuery] gives both groups the total of all the
    sales rows, 5750, while evaluating the metric under the row context of
    each group gives 950 and 450: the call in [runQuery] passes [transforms]
    and [rowContext] in each other's position, so every group is evaluated
    under the transforms registry, whose cache key is the same for all. *)
Theorem runQuery_demo_row_context :
  runQuery demoDb demoFactTables demoMetrics 8 demoTransforms demoDimensionConfig
    demoQuery
  = Ok [[("regionId", PStr "NA"); ("productId", num 1);
         ("regionName", PStr "North America"); ("productName", PStr "Widget A");
         ("totalSalesAmount", PStr "$5750.00")];
        [("regionId", PStr "EU"); ("productId", num 2);
         ("regionName", PStr "Europe"); ("productName", PStr "Widget B");
         ("totalSalesAmount", PStr "$5750.00")]]
  ∧ evaluate "totalSalesAmount" (withRow "NA" 1) = Ok (Some (num_of_Z 950))
  ∧ evaluate "totalSalesAmount" (withRow "EU" 2) = Ok (Some (num_of_Z 450))
  ∧ formatValue (Some (num_of_Z 950)) (Some "currency") = PStr "$950.00".
Proof. repeat split; vm_compute; reflexivity. Qed.

(** The figures of the source's own description of the demo. *)
Example demo_total_2025_02 :
  evaluate "totalSalesAmount" ctx2025_02 = Ok (Some (num_of_Z 1400)).
Proof. vm_compute. reflexivity. Qed.

Example demo_year_region_grain :
  evaluate "salesAmountYearRegion"
    [("year", FPrim (num 2025)); ("month", FPrim (num 2));
     ("regionId", FPrim (PStr "NA"))]
  = Ok (Some (num_of_Z 2550)).
Proof. vm_compute. reflexivity. Qed.

Example demo_sales_vs_budget :
  match evaluate "salesVsBudgetPct"
          [("year", FPrim (num 2024)); ("regionId", FPrim (PStr "NA"))] with
  | Ok v => formatValue v (Some "percent") = PStr "122.00%"
  | _ => False
  end.
Proof. vm_compute. reflexivity. Qed.

(** C2, counterexample.  The range [{from: 1, gt: 5}] matches 3, which is not
    above 5: with [from] present, [gt] is not looked at. *)
Lemma matchesFilter_from_hides_gt :
  matchesFilter (num 3) (FRange [("from", num 1); ("gt", num 5)]) = true
  ∧ satisfiesEveryBound (num 3) [("from", num 1); ("gt", num 5)] = false.
Proof. split; vm_compute; reflexivity. Qed.

(** A cell that does not compare with a number (a missing column) passes
    every check of the matcher. *)
Example matchesFilter_missing_cell :
  matchesFilter PUndefined (FRange [("gte", num 5)]) = true.
Proof. reflexivity. Qed.

Lemma matchesFilter_range_witness :
  let f := [("gte", num 1); ("lt", num 5)] in
  (matchesFilter (num 3) (FRange f) = true ↔ withinRange f (Q2Qc (inject_Z 3)))
  ∧ (noBounds f → ∀ value, matchesFilter value (FRange f) = true).
Proof.
  apply (matchesFilter_range [("gte", num 1); ("lt", num 5)] (Q2Qc (inject_Z 3))).
  vm_compute. reflexivity.
Defined.

(** C3, counterexample.  The same two pairs, assigned in the two orders, give
    two different cache keys. *)
Lemma cacheKey_order_dependent :
  let c1 := obj_assign [] [("year", FPrim (num 2025)); ("month", FPrim (num 2))] in
  let c2 := obj_assign [] [("month", FPrim (num 2)); ("year", FPrim (num 2025))] in
  c1 ≡ₚ c2 ∧ cacheKey "totalSalesAmount" c1 ≠ cacheKey "totalSalesAmount" c2.
Proof. split; [apply perm_swap | vm_compute; discriminate]. Qed.

(** C8, counterexample.  With an empty fact table registry, [runQuery] on the
    fact table [sales] returns its rows: the registry is not consulted for
    [factForRows]. *)
Lemma runQuery_unregistered_fact_table :
  (∅ : FactTableRegistry) !! "sales" = None
  ∧ runQuery demoDb ∅ demoMetrics 8 demoTransforms demoDimensionConfig
      {| rows := ["regionId"]; filters := None; metrics := [];
         factForRows := "sales" |}
    = Ok [[("regionId", PStr "NA"); ("regionName", PStr "North America")];
          [("regionId", PStr "EU"); ("regionName", PStr "Europe")]].
Proof. split; vm_compute; reflexivity. Qed.

Lemma unknownFactTable_errors_witness :
  evaluateMetrics demoDb salesOnlyTables demoMetrics 1
    (["totalSalesAmount"] ++ "totalBudget" :: ["totalSalesQuantity"]) ctx2025_02
    demoTransforms
  = Throw (UnknownFactTable "budget")
  ∧ runQuery demoDb demoFactTables demoMetrics 8 demoTransforms demoDimensionConfig
      {| rows := ["regionId"]; filters := None; metrics := [];
         factForRows := "returns" |}
    = Throw (UnknownFactTable "returns").
Proof.
  split.
  - eapply (proj1 (proj2 (proj2 (proj2
              (unknownFactTable_errors demoDb salesOnlyTables demoMetrics))))
              1%nat ["totalSalesAmount"] "totalBudget" ["totalSalesQuantity"] _
              ctx2025_02 demoTransforms _ (UnknownFactTable "budget")).
    + vm_compute. reflexivity.
    + apply (proj1 (unknownFactTable_errors demoDb salesOnlyTables demoMetrics) 0%nat
               "totalBudget"
               (factMetric "totalBudget" "budget" "budgetAmount" None "currency")
               "budget" (UnknownFactTable "budget") ctx2025_02 demoTransforms);
        vm_compute; reflexivity.
  - apply (proj2 (proj2 (proj2 (proj2 (proj2
             (unknownFactTable_errors demoDb demoFactTables demoMetrics))))) 8%nat
             demoTransforms demoDimensionConfig
             {| rows := ["regionId"]; filters := None; metrics := [];
                factForRows := "returns" |});
      vm_compute; reflexivity.
Defined.



Lemma grain_property_witness :
  value_of (evaluateMetric demoDb demoFactTables demoMetrics 8 "salesAmountYearRegion"
              [("year", FPrim (num 2025)); ("month", FPrim (num 2));
               ("regionId", FPrim (PStr "NA"))]
              demoTransforms new_cache)
  = value_of (evaluateMetric demoDb demoFactTables demoMetrics 8 "salesAmountYearRegion"
                [("regionId", FPrim (PStr "NA")); ("productId", FPrim (num 1));
                 ("year", FPrim (num 2025))]
                demoTransforms new_cache).
Proof.
  apply (grain_property demoDb demoFactTables demoMetrics 7 "salesAmountYearRegion"
           (factMetricDef "salesAmountYearRegion" "sales" "amount"
              (Some ["year"; "regionId"]) "currency")).
  - vm_compute. reflexivity.
  - apply (bool_decide_unpack _). vm_compute. exact I.
  - apply (bool_decide_unpack _). vm_compute. exact I.
  - intros k Hk. vm_compute in Hk. destruct Hk as [<- | [<- | []]]; reflexivity.
Defined.

Lemma evaluateMetric_idempotent_witness :
  ∃ v st',
    evaluateMetric demoDb demoFactTables demoMetrics 8 "salesVsBudgetPct" ctx2025_02
      demoTransforms new_cache = Ok (v, st')
    ∧ evaluateMetric demoDb demoFactTables demoMetrics 1 "salesVsBudgetPct" ctx2025_02
        demoTransforms st' = Ok (v, st').
Proof.
  eexists _, _. split.
  - vm_compute. reflexivity.
  - apply (evaluateMetric_idempotent demoDb demoFactTables demoMetrics 8
             "salesVsBudgetPct" ctx2025_02 demoTransforms new_cache).
    vm_compute. reflexivity.
Defined.

Lemma contextTransform_composition_witness :
  value_of (evaluateMetric demoDb demoFactTables demoMetrics 8 "salesAmountYTD"
              ctx2025_02 demoTransforms new_cache)
  = value_of (evaluateMetric demoDb demoFactTables demoMetrics 7
                (baseMeasure salesAmountYTD) (ytd ctx2025_02) demoTransforms new_cache).
Proof.
  apply (contextTransform_composition demoDb demoFactTables demoMetrics 7
           "salesAmountYTD" salesAmountYTD ytd ctx2025_02 demoTransforms);
    reflexivity.
Defined.

Lemma factMeasure_empty_witness :
  value_of (evaluateMetric demoDb demoFactTables demoMetrics 1 "totalSalesAmount"
              [("year", FPrim (num 1999))] demoTransforms new_cache)
  = Ok (Some (Fin 0%Qc)).
Proof.
  apply (factMeasure_empty demoDb demoFactTables demoMetrics 0 "totalSalesAmount"
           (factMetricDef "totalSalesAmount" "sales" "amount" None "currency")
           [("year", FPrim (num 1999))] demoTransforms new_cache
           salesTable salesRows amountMeasure);
    try (vm_compute; reflexivity).
  left. reflexivity.
Defined.

(** *** Two contexts with one cache key *)

(** C10, counterexample.  The two transformed contexts serialize to the same
    text, so under the shared cache the second metric gets the value cached
    for the first one, 3280, where a standalone call returns 5750. *)
Lemma evaluateMetrics_key_collision :
  cacheKey "totalSalesAmount" (salesEarly []) = cacheKey "totalSalesAmount" (salesEarlyFrom [])
  ∧ evaluateMetrics demoDb demoFactTables collidingMetrics 8
      ["salesEarly"; "salesEarlyFrom"] [] collidingTransforms
    = Ok [("salesEarly", Some (num_of_Z 3280)); ("salesEarlyFrom", Some (num_of_Z 3280))]
  ∧ value_of (evaluateMetric demoDb demoFactTables collidingMetrics 8 "salesEarlyFrom" []
                collidingTransforms new_cache)
    = Ok (Some (num_of_Z 5750)).
Proof. repeat split; vm_compute; reflexivity. Qed.

(** *** An instance where the cache keys are injective *)

Lemma list_ascii_app (s1 s2 : string) :
  String.list_ascii_of_string (s1 +:+ s2)
  = String.list_ascii_of_string s1 ++ String.list_ascii_of_string s2.
Proof. induction s1 as [|a s1 IH]; simpl; [done | by rewrite IH]. Qed.

Lemma list_ascii_inj (s1 s2 : string) :
  String.list_ascii_of_string s1 = String.list_ascii_of_string s2 → s1 = s2.
Proof.
  intros Heq. rewrite <- (String.string_of_list_ascii_of_string s1),
    <- (String.string_of_list_ascii_of_string s2). by rewrite Heq.
Qed.

(** Two equal concatenations: equal parts, or one tail is a proper suffix of
    the other. *)
Lemma append_eq_inv (m m' s s' : string) :
  m +:+ s = m' +:+ s' →
  (m = m' ∧ s = s')
  ∨ (s ≠ s'
     ∧ (String.list_ascii_of_string s `suffix_of` String.list_ascii_of_string s'
        ∨ String.list_ascii_of_string s' `suffix_of` String.list_ascii_of_string s)).
Proof.
  intros Heq. apply (f_equal String.list_ascii_of_string) in Heq.
  rewrite !list_ascii_app in Heq.
  destruct (decide (s = s')) as [-> | Hne].
  - left. split; [| done]. apply app_inv_tail in Heq. by apply list_ascii_inj.
  - right. split; [done |].
    eapply (suffix_weak_total _ _ (String.list_ascii_of_string m ++ _)).
    + by eexists.
    + rewrite Heq. by eexists.
Qed.

Lemma ytdReach_closed t f c :
  obj_get t ytdTransforms = Some (TFn f) → ytdReach c → ytdReach (f c).
Proof.
  unfold ytdTransforms. cbn [obj_get]. destruct (String.eqb "ytd" t); [| done].
  intros [= <-] [-> | [-> | ->]]; unfold ytdReach.
  - right. by left.
  - right. by right.
  - right. right. vm_compute. reflexivity.
Qed.

Lemma ytdReach_keys m c m' c' :
  ytdReach c → ytdReach c' → cacheKey m c = cacheKey m' c' → m = m' ∧ c = c'.
Proof.
  intros Hc Hc' Hkey. unfold cacheKey in Hkey.
  apply append_eq_inv in Hkey as [[-> Hs] | [Hne Hsuffix]].
  - split; [done |].
    destruct Hc as [-> | [-> | ->]], Hc' as [-> | [-> | ->]]; try done;
      vm_compute in Hs; discriminate.
  - exfalso.
    destruct Hc as [-> | [-> | ->]], Hc' as [-> | [-> | ->]]; try done;
      destruct Hsuffix as [Hs | Hs]; pose proof (bool_decide_pack _ Hs) as Hb;
      vm_compute in Hb; exact Hb.
Qed.

Lemma evaluateMetrics_transparent_witness :
  ∃ fuel' v,
    value_of (evaluateMetric demoDb demoFactTables demoMetrics fuel' "budgetYTD"
                ctx2025_02 ytdTransforms new_cache) = Ok v
    ∧ obj_get "budgetYTD" ytdResults = Some v.
Proof.
  apply (evaluateMetrics_transparent demoDb demoFactTables demoMetrics ytdTransforms
           ytdReach ytdReach_closed ytdReach_keys 8 ytdNames ctx2025_02 ytdResults).
  - by left.
  - vm_compute. reflexivity.
  - vm_compute. tauto.
Defined.

(* ===================================================================== *)
(** ** The enumeration order of an object and the cache key               *)
(* ===================================================================== *)

Section PropertyOrder.
Context {A : Type}.
Implicit Types (o idx rest : Obj A) (l : list (string * A)) (k : string) (v : A).

Lemma array_index_pretty k i : array_index k = Some i → k = pretty i.
Proof.
  unfold array_index. destruct k as [|a k]; [done |].
  destruct (parse_digits _ _) as [n|]; [| done].
  destruct (bool_decide _) eqn:Hp; simpl; [| done].
  apply bool_decide_eq_true in Hp. destruct (n <? _)%N; [| done].
  by intros [= <-].
Qed.

Lemma obj_get_None o k : k ∉ map fst o → obj_get k o = None.
Proof.
  induction o as [|[k' v'] o IH]; simpl; [done |].
  intros Hk. destruct (String.eqb_spec k' k) as [-> | Hne].
  - exfalso. apply Hk. by left.
  - apply IH. intros Hin. apply Hk. by right.
Qed.

Lemma named_part_app l1 l2 : named_part (l1 ++ l2) = named_part l1 ++ named_part l2.
Proof. unfold named_part. apply List.filter_app. Qed.

Lemma named_part_named l :
  Forall (λ kv, is_index kv.1 = false) (named_part l).
Proof.
  apply List.Forall_forall. intros kv [_ Hkv]%filter_In. by apply negb_true_iff.
Qed.

Lemma insert_index_app i k v idx rest :
  Forall (λ kv, is_index kv.1 = true) idx →
  Forall (λ kv, is_index kv.1 = false) rest →
  obj_insert_index i k v (idx ++ rest) = obj_insert_index i k v idx ++ rest.
Proof.
  intros Hidx Hrest. induction Hidx as [|[k0 v0] idx Hk0 _ IH]; simpl.
  - destruct Hrest as [|[k0 v0] rest Hk0 _]; simpl; [done |].
    unfold is_index in Hk0. simpl in Hk0. by destruct (array_index k0).
  - unfold is_index in Hk0. simpl in Hk0.
    destruct (array_index k0) as [j|]; [| done].
    destruct (j <? i)%N; [by rewrite IH | done].
Qed.

Lemma insert_index_perm i k v idx : obj_insert_index i k v idx ≡ₚ (k, v) :: idx.
Proof.
  induction idx as [|[k0 v0] idx IH]; simpl; [done |].
  destruct (array_index k0) as [j|]; [| done].
  destruct (j <? i)%N; [| done]. rewrite IH. apply perm_swap.
Qed.

Lemma insert_index_sorted i k v idx :
  array_index k = Some i →
  Forall (λ kv, is_index kv.1 = true) idx →
  Forall (λ kv, index_of kv ≠ i) idx →
  StronglySorted index_lt idx →
  StronglySorted index_lt (obj_insert_index i k v idx).
Proof.
  intros Hk Hidx Hne Hsorted.
  induction Hsorted as [|[k0 v0] idx Hs IH Hall]; simpl.
  - repeat constructor.
  - apply Forall_cons in Hidx as [Hk0 Hidx]. apply Forall_cons in Hne as [Hne0 Hne].
    unfold is_index in Hk0. unfold index_of in Hne0. simpl in Hk0, Hne0.
    destruct (array_index k0) as [j|] eqn:Hj; [| done]. simpl in Hne0.
    destruct (N.ltb_spec j i) as [Hlt | Hge].
    + constructor; [by apply IH |].
      rewrite insert_index_perm. constructor; [| done].
      unfold index_lt, index_of. simpl. by rewrite Hj, Hk.
    + assert (index_lt (k, v) (k0, v0)) as Hlt.
      { unfold index_lt, index_of. simpl. rewrite Hj, Hk. simpl. lia. }
      constructor; [by constructor |]. constructor; [done |].
      eapply Forall_impl; [exact Hall |].
      intros y Hy. unfold index_lt in *. lia.
Qed.

(** One more assignment, to a key that has not been assigned yet. *)
Lemma enumerates_set o l k v :
  k ∉ map fst l → enumerates o l → enumerates (obj_set k v o) (l ++ [(k, v)]).
Proof.
  intros Hfresh (idx & -> & Hidx & Hsorted & Hperm).
  assert (k ∉ map fst (idx ++ named_part l)) as Hfresh'.
  { by rewrite Hperm. }
  unfold obj_set, obj_has. rewrite (obj_get_None _ _ Hfresh').
  assert (named_part (l ++ [(k, v)])
          = named_part l ++ (if is_index k then [] else [(k, v)])) as Hnamed.
  { rewrite named_part_app. unfold named_part at 2. simpl. by destruct (is_index k). }
  unfold enumerates. rewrite Hnamed. unfold is_index.
  destruct (array_index k) as [i|] eqn:Hk.
  - rewrite insert_index_app by auto using named_part_named.
    exists (obj_insert_index i k v idx).
    rewrite app_nil_r. split; [done |]. split; [| split].
    + rewrite insert_index_perm. constructor; [| done].
      unfold is_index. simpl. by rewrite Hk.
    + apply insert_index_sorted; try done.
      apply List.Forall_forall. intros [k0 v0] Hin Heq.
      pose proof (proj1 (List.Forall_forall _ _) Hidx _ Hin) as Hk0.
      unfold is_index, index_of in *. simpl in *.
      destruct (array_index k0) as [j|] eqn:Hj; [| done]. simpl in Heq. subst j.
      apply array_index_pretty in Hj, Hk. subst.
      apply Hfresh'. apply list_elem_of_In, in_map_iff. exists (pretty i, v0).
      split; [done |]. apply in_or_app. by left.
    + rewrite insert_index_perm. simpl.
      etrans; [| apply Permutation_cons_append]. by constructor.
  - exists idx.
    split; [by rewrite app_assoc |]. split; [done |]. split; [done |].
    by apply Permutation_app_tail.
Qed.

Lemma obj_assign_snoc l k v :
  obj_assign [] (l ++ [(k, v)]) = obj_set k v (obj_assign [] l).
Proof. unfold obj_assign. by rewrite fold_left_app. Qed.

(** An object literal enumerates its pairs. *)
Lemma enumerates_assign l : NoDup (map fst l) → enumerates (obj_assign [] l) l.
Proof.
  induction l as [|[k v] l IH] using rev_ind.
  - intros _. exists []. repeat split; constructor.
  - rewrite map_app. simpl. intros [Hnd [Hk _]]%NoDup_app.
    rewrite obj_assign_snoc. apply enumerates_set; [| by apply IH].
    intros Hin. apply (Hk _ Hin). by left.
Qed.

(** The enumeration is determined by the pairs and by the order of the
    keys that are not array indices. *)
Lemma enumerates_unique o1 o2 l1 l2 :
  enumerates o1 l1 → enumerates o2 l2 →
  l1 ≡ₚ l2 → named_part l1 = named_part l2 → o1 = o2.
Proof.
  intros (idx1 & -> & _ & Hs1 & Hp1) (idx2 & -> & _ & Hs2 & Hp2) Hperm Hnamed.
  rewrite Hnamed. f_equal.
  apply (StronglySorted_unique_strong index_lt); try done.
  - intros x1 x2 _ _. unfold index_lt. lia.
  - apply (Permutation_app_inv_r (named_part l2)).
    rewrite <- Hnamed at 1. by rewrite Hp1, Hp2.
Qed.

End PropertyOrder.

(** Two contexts built from the same key/value pairs have the same cache
    key when their keys that are not array indices were assigned in the same
    order: they are the same object. *)
Lemma cacheKey_same_named_order `{Builtins} (metricName : string)
    (l1 l2 : list (string * FilterValue)) :
  NoDup (map fst l1) →
  l1 ≡ₚ l2 →
  named_part l1 = named_part l2 →
  cacheKey metricName (obj_assign [] l1) = cacheKey metricName (obj_assign [] l2).
Proof.
  intros Hnd Hperm Hnamed.
  assert (NoDup (map fst l2)) as Hnd2.
  { by rewrite <- Hperm. }
  assert (obj_assign [] l1 = obj_assign [] l2) as ->; [| done].
  apply (enumerates_unique _ _ l1 l2); auto using enumerates_assign.
Qed.

(* ===================================================================== *)
(** ** Further properties: matching and filtering                         *)
(* ===================================================================== *)

Section FilterFacts.
Context `{Builtins}.

(** X1.  A primitive filter matches exactly the values that are the same
    primitive, of the same type; the filter NaN matches nothing. *)
Theorem matchesFilter_primitive (value p : Prim) :
  matchesFilter value (FPrim p) = true ↔ value = p ∧ p ≠ PNum NaN.
Proof.
  destruct value as [| |x|[|x]|s], p as [| |y|[|y]|t]; simpl;
    try (split; [done | intros [? ?]; congruence]);
    try (split; [done | intros [? ?]; done]).
  - rewrite Bool.eqb_true_iff. split; [by intros -> | by intros [[= ->] _]].
  - rewrite bool_decide_eq_true. split; [by intros -> | by intros [[= ->] _]].
  - rewrite String.eqb_eq. split; [by intros -> | by intros [[= ->] _]].
Qed.

(** The condition one entry of the context puts on a row. *)
Lemma passes_forall grain context r :
  passes grain context r = true
  ↔ ∀ k f, In (k, f) context → filter_nullish f = false → In k grain →
      matchesFilter (cell r k) f = true.
Proof.
  unfold passes. rewrite forallb_forall. split.
  - intros Hall k f Hin Hnull Hk. specialize (Hall _ Hin). simpl in Hall.
    rewrite Hnull in Hall. apply includes_In in Hk. by rewrite Hk in Hall.
  - intros Hall [k f] Hin. simpl.
    destruct (filter_nullish f) eqn:Hnull; [done |].
    destruct (includes grain k) eqn:Hinc; [| done]. simpl.
    apply Hall; [done | done | by apply includes_In].
Qed.


Lemma passes_perm grain C C' r : C ≡ₚ C' → passes grain C r = passes grain C' r.
Proof.
  intros Hperm. apply eq_true_iff_eq. rewrite !passes_forall.
  split; intros Hall k f Hin; apply Hall;
    revert Hin; rewrite <- !list_elem_of_In; by rewrite Hperm.
Qed.

(** X3.  The order of the entries of the context has no influence on the
    rows [applyContextToFact] keeps. *)
Theorem applyContextToFact_order rows C C' grain :
  C ≡ₚ C' → applyContextToFact rows C grain = applyContextToFact rows C' grain.
Proof.
  intros Hperm. rewrite !applyContextToFact_filter.
  apply filter_ext. intros r. by apply passes_perm.
Qed.

(** X4.  Filtering twice with a context is filtering once, and two
    filterings, each with its context and grain, commute. *)
Theorem applyContextToFact_twice rows C1 g1 C2 g2 :
  applyContextToFact (applyContextToFact rows C1 g1) C1 g1
  = applyContextToFact rows C1 g1
  ∧ applyContextToFact (applyContextToFact rows C1 g1) C2 g2
    = applyContextToFact (applyContextToFact rows C2 g2) C1 g1.
Proof.
  rewrite !applyContextToFact_filter, !filter_filter. split.
  - apply filter_ext. intros r. by destruct (passes g1 C1 r).
  - apply filter_ext. intros r. apply andb_comm.
Qed.

End FilterFacts.

(* ===================================================================== *)
(** ** Further properties: objects, [pick], [enrichDimensions], [cacheKey] *)
(* ===================================================================== *)

Section AssignFacts.
Context {A : Type}.
Implicit Types (o : Obj A) (l : list (string * A)) (k : string) (v : A).

Lemma obj_has_In o k : obj_has k o = true ↔ In k (map fst o).
Proof.
  unfold obj_has. induction o as [|[k0 v0] o IH]; simpl; [by split |].
  destruct (String.eqb_spec k0 k) as [-> | Hne]; [by split; auto |].
  rewrite IH. split; [by right | by intros [? | ?]].
Qed.

(** Reading a property after a sequence of assignments: the last one to the
    key, or else what the object held. *)
Lemma obj_get_assign init l k :
  obj_get k (obj_assign init l)
  = match obj_get k (rev l) with Some v => Some v | None => obj_get k init end.
Proof.
  induction l as [|[k0 v0] l IH] using rev_ind; [done |].
  unfold obj_assign. rewrite fold_left_app, rev_app_distr. simpl.
  fold (obj_assign init l). rewrite obj_get_set, IH.
  by destruct (String.eqb k0 k).
Qed.

Lemma obj_get_rev o k : NoDup (map fst o) → obj_get k (rev o) = obj_get k o.
Proof.
  intros Hnd.
  assert (NoDup (map fst (rev o))) as Hnd'.
  { rewrite map_rev. by apply NoDup_ListNoDup, List.NoDup_rev, NoDup_ListNoDup. }
  destruct (obj_get k (rev o)) as [v|] eqn:Hrev.
  - apply obj_get_In, in_rev in Hrev. symmetry. by apply In_obj_get.
  - destruct (obj_get k o) as [v|] eqn:Hget; [| done].
    apply obj_get_In, in_rev in Hget. apply In_obj_get in Hget; [| done]. congruence.
Qed.

(** The copy [{ ...o }] reads as [o]. *)
Lemma obj_get_copy o k : NoDup (map fst o) → obj_get k (obj_assign [] o) = obj_get k o.
Proof.
  intros Hnd. rewrite obj_get_assign, obj_get_rev by done.
  by destruct (obj_get k o).
Qed.

End AssignFacts.

Section PickFacts.
Context `{Builtins}.

Lemma pick_cell (obj : Row) (keys : list string) (k : string) :
  cell (pick obj keys) k = if includes keys k then cell obj k else PUndefined.
Proof.
  unfold cell at 1. rewrite pick_get.
  destruct (includes keys k); [| done]. by destruct (cell obj k).
Qed.

(** X5.  [pick(obj, keys)[k]] is [obj[k]] for a requested key and undefined
    for any other key. *)
Theorem pick_lookup (obj : Row) (keys : list string) (k : string) :
  cell (pick obj keys) k = if includes keys k then cell obj k else PUndefined.
Proof. apply pick_cell. Qed.

(** X6.  Picking from a picked object gives what picking from the object
    itself gives, for keys among those already picked; in particular [pick]
    with fixed keys is idempotent. *)
Theorem pick_pick (obj : Row) (keys keys' : list string) :
  (∀ k, In k keys' → In k keys) →
  pick (pick obj keys) keys' = pick obj keys'.
Proof.
  intros Hsub. apply pick_ext. intros k Hk.
  rewrite pick_cell. apply Hsub, includes_In in Hk. by rewrite Hk.
Qed.

End PickFacts.

Section EnrichFacts.
Variable db : InMemoryDb.

Lemma enrichDimensions_fold keyObj config :
  enrichDimensions keyObj db config
  = fold_left (enrichStep db keyObj) config (obj_assign [] keyObj).
Proof.
  unfold enrichDimensions. generalize (obj_assign [] keyObj).
  induction config as [|[dimKey cfg] config IH]; intros result; [done |].
  simpl. apply IH.
Qed.

Lemma enrichStep_other keyObj result entry k :
  labelAlias entry.2 ≠ k →
  obj_get k (enrichStep db keyObj result entry) = obj_get k result.
Proof.
  destruct entry as [dimKey cfg]. simpl. intros Hne.
  destruct (nullish _); [done |].
  destruct (dimensions db !! table cfg) as [dimTable|]; [| done].
  destruct (List.find _ _); [| done].
  rewrite obj_get_set. by apply String.eqb_neq in Hne as ->.
Qed.

Lemma enrich_fold_other keyObj config result k :
  (∀ entry, In entry config → labelAlias entry.2 ≠ k) →
  obj_get k (fold_left (enrichStep db keyObj) config result) = obj_get k result.
Proof.
  revert result. induction config as [|entry config IH]; intros result Hall; [done |].
  simpl. rewrite IH by (intros e He; apply Hall; by right).
  apply enrichStep_other, Hall. by left.
Qed.



End EnrichFacts.

Section CacheKeyFacts.
Context `{Builtins}.

Lemma cacheKey_same_context (m m' : string) (context : FilterContext) :
  cacheKey m context = cacheKey m' context → m = m'.
Proof.
  unfold cacheKey. intros [[-> _] | [Hne _]]%append_eq_inv; done.
Qed.

(** X9.  Under one context, two metric names with the same cache key are the
    same name. *)
Theorem cacheKey_name_inj (m m' : string) (context : FilterContext) :
  cacheKey m context = cacheKey m' context → m = m'.
Proof. apply cacheKey_same_context. Qed.

Lemma json_object_skip {A} (ser : A → option string) (c1 c2 : Obj A) k v :
  ser v = None → json_object ser (c1 ++ (k, v) :: c2) = json_object ser (c1 ++ c2).
Proof.
  intros Hv. unfold json_object. do 2 f_equal.
  rewrite !omap_app. simpl. by rewrite Hv.
Qed.

(** X10.  The cache key does not tell apart a context with a property whose
    value is undefined or a function from the context without it, nor the
    value NaN from the value null. *)
Theorem cacheKey_lossy (m : string) (c1 c2 : FilterContext) (k : string) :
  cacheKey m (c1 ++ (k, FPrim PUndefined) :: c2) = cacheKey m (c1 ++ c2)
  ∧ cacheKey m (c1 ++ (k, FFunction) :: c2) = cacheKey m (c1 ++ c2)
  ∧ cacheKey m (c1 ++ (k, FPrim (PNum NaN)) :: c2)
    = cacheKey m (c1 ++ (k, FPrim PNull) :: c2).
Proof.
  unfold cacheKey. repeat split; f_equal; f_equal.
  - by apply json_object_skip.
  - by apply json_object_skip.
  - unfold json_object. do 2 f_equal. by rewrite !omap_app.
Qed.

End CacheKeyFacts.

(* ===================================================================== *)
(** ** Further properties: the evaluator                                  *)
(* ===================================================================== *)

Section EvaluatorErrors.
Context `{Builtins}.
Variable db : InMemoryDb.
Variable factTables : FactTableRegistry.
Variable metricRegistry : MetricRegistry.

Local Notation "'evalM'" := (evaluateMetric db factTables metricRegistry).

Lemma evaluateMetric_unregistered fuel name context transforms st :
  metricRegistry !! name = None →
  cache st !! cacheKey name context = None →
  evalM (S fuel) name context transforms st = Throw (UnknownMetric name).
Proof.
  intros Hdef Hmiss. cbn [evaluateMetric]. unfold bind, cache_get.
  by rewrite Hmiss, Hdef.
Qed.

(** X11.  A name that is neither cached nor registered, and that is none of
    the names every object inherits, makes the evaluation throw "Unknown
    metric" for that name: when it is the metric asked for, when it is the
    first dependency of a derived metric and when it is the base of a
    context-transform metric. *)
Theorem unknownMetric_errors :
  (∀ fuel name context transforms st,
     metricRegistry !! name = None →
     inherited name = false →
     cache st !! cacheKey name context = None →
     evaluateMetric db factTables metricRegistry (S fuel) name context transforms st
     = Throw (UnknownMetric name))
  ∧ (∀ fuel name def dep deps context transforms st,
       metricRegistry !! name = Some (derived def) →
       dependencies def = dep :: deps →
       metricRegistry !! dep = None →
       inherited dep = false →
       cache st !! cacheKey name context = None →
       cache st !! cacheKey dep context = None →
       evaluateMetric db factTables metricRegistry (S (S fuel)) name context
         transforms st
       = Throw (UnknownMetric dep))
  ∧ (∀ fuel name def transformFn context transforms st,
       metricRegistry !! name = Some (contextTransform def) →
       obj_get (transform def) transforms = Some (TFn transformFn) →
       metricRegistry !! baseMeasure def = None →
       inherited (baseMeasure def) = false →
       cache st !! cacheKey name context = None →
       cache st !! cacheKey (baseMeasure def) (transformFn context) = None →
       evaluateMetric db factTables metricRegistry (S (S fuel)) name context
         transforms st
       = Throw (UnknownMetric (baseMeasure def))).
Proof.
  split; [| split].
  - intros. by apply evaluateMetric_unregistered.
  - intros fuel name def dep deps context transforms st Hdef Hdeps Hdep _ Hmiss Hmiss'.
    rewrite (evaluateMetric_miss _ _ _ _ _ _ _ _ _ Hmiss Hdef).
    unfold store. rewrite Hdeps. cbn [forEachMetric]. unfold bind at 1 2 3.
    by rewrite evaluateMetric_unregistered.
  - intros fuel name def f context transforms st Hdef Htr Hbase _ Hmiss Hmiss'.
    rewrite (evaluateMetric_miss _ _ _ _ _ _ _ _ _ Hmiss Hdef).
    unfold store. rewrite Htr. unfold bind at 1 2. unfold record at 1.
    by rewrite evaluateMetric_unregistered.
Qed.

(** X12.  A fact-measure metric whose table is registered and has rows
    throws "Unknown fact column" when its column is not a measure of the
    table, whatever its aggregation, and "Unsupported aggregation" when its
    aggregation is none of sum, avg and count; a context-transform metric
    whose transform is not in the registry throws "Unknown context
    transform", whether or not its base metric is registered.  The column
    and the transform that are not found are none of the names every object
    inherits. *)
Theorem reference_errors :
  (∀ fuel name def factDef factRows context transforms st,
     metricRegistry !! name = Some (factMeasure def) →
     cache st !! cacheKey name context = None →
     factTables !! factTable def = Some factDef →
     facts db !! factTable def = Some factRows →
     (measures factDef !! factColumn def = None →
      inherited (factColumn def) = false →
      evaluateMetric db factTables metricRegistry (S fuel) name context transforms st
      = Throw (UnknownFactColumn (factColumn def) (factTable def)))
     ∧ (∀ measure,
          measures factDef !! factColumn def = Some measure →
          ¬ In (default (defaultAgg measure) (agg def)) ["sum"; "avg"; "count"] →
          evaluateMetric db factTables metricRegistry (S fuel) name context
            transforms st
          = Throw (UnsupportedAggregation (default (defaultAgg measure) (agg def)))))
  ∧ (∀ fuel name def context transforms st,
       metricRegistry !! name = Some (contextTransform def) →
       cache st !! cacheKey name context = None →
       obj_get (transform def) transforms = None →
       inherited (transform def) = false →
       evaluateMetric db factTables metricRegistry (S fuel) name context transforms st
       = Throw (UnknownContextTransform (transform def))).
Proof.
  split.
  - intros fuel name def factDef factRows context transforms st Hdef Hmiss Htable Hrows.
    rewrite (evaluateMetric_miss _ _ _ _ _ _ _ _ _ Hmiss Hdef).
    unfold store, evaluateFactMeasure, bind. rewrite Htable. simpl.
    rewrite Hrows. simpl. split.
    + by intros -> _.
    + intros measure -> Hagg. simpl.
      destruct (String.eqb_spec (default (defaultAgg measure) (agg def)) "sum")
        as [Heq |]; [exfalso; apply Hagg; rewrite Heq; by left |].
      destruct (String.eqb_spec (default (defaultAgg measure) (agg def)) "avg")
        as [Heq |]; [exfalso; apply Hagg; rewrite Heq; right; by left |].
      destruct (String.eqb_spec (default (defaultAgg measure) (agg def)) "count")
        as [Heq |]; [exfalso; apply Hagg; rewrite Heq; right; right; by left |].
      done.
  - intros fuel name def context transforms st Hdef Hmiss Htr _.
    rewrite (evaluateMetric_miss _ _ _ _ _ _ _ _ _ Hmiss Hdef).
    unfold store, bind. by rewrite Htr.
Qed.

(** The cache only grows. *)
Lemma cache_grows fuel name context transforms st v st' :
  evalM fuel name context transforms st
  = Ok (v, st') →
  cache st ⊆ cache st' ∧ cache st' !! cacheKey name context = Some v.
Proof.
  intros Hrun. split; [| by eapply evaluateMetric_caches].
  revert name context st v st' Hrun.
  induction fuel as [|fuel IH]; intros name context st v st'; [done |].
  destruct (cache st !! cacheKey name context) as [w|] eqn:Hc.
  { rewrite (evaluateMetric_hit _ _ _ _ _ _ _ _ _ Hc). by intros [= <- <-]. }
  destruct (metricRegistry !! name) as [def|] eqn:Hdef.
  2: { by rewrite evaluateMetric_unregistered. }
  rewrite (evaluateMetric_miss _ _ _ _ _ _ _ _ _ Hc Hdef).
  unfold store. intros (value & st1 & Hbranch & Hset)%bind_Ok.
  unfold bind, cache_set, ret in Hset. injection Hset as <- <-. simpl.
  cut (cache st ⊆ cache st1).
  { intros Hsub. by apply insert_subseteq_r. }
  destruct def as [d|d|d|d].
  - rewrite evaluateFactMeasure_run in Hbranch.
    destruct (value_of _); [| done | done]. by injection Hbranch as <- <-.
  - rewrite evaluateExpression_run in Hbranch.
    destruct (value_of _); [| done | done]. by injection Hbranch as <- <-.
  - apply bind_Ok in Hbranch as (depValues & st2 & Hdeps & Hrec).
    unfold bind, record, ret in Hrec. injection Hrec as <- <-. simpl.
    clear Hc Hdef. revert Hdeps. generalize (@nil (string * MetricValue)).
    revert st. induction (dependencies d) as [|dep deps IHdeps]; intros st out; simpl.
    + unfold ret. by intros [= <- <-].
    + intros (w & st3 & Hdep & Hrest)%bind_Ok.
      etrans; [by eapply IH | by eapply IHdeps].
  - destruct (obj_get (transform d) transforms) as [[f|w]|]; [| | done].
    + apply bind_Ok in Hbranch as ([] & st2 & Hrec & Hbase).
      unfold record in Hrec. injection Hrec as <-.
      by apply IH in Hbase.
    + by destruct (filter_falsy w).
Qed.

(** X13.  An evaluation that returns has only added to the cache: every
    entry it found is still there with its value, and the metric asked for
    is now cached with the value returned. *)
Theorem evaluateMetric_cache_grows fuel name context transforms st v st' :
  evaluateMetric db factTables metricRegistry fuel name context transforms st
  = Ok (v, st') →
  cache st ⊆ cache st' ∧ cache st' !! cacheKey name context = Some v.
Proof. apply cache_grows. Qed.

(** X14.  A derived metric whose first dependency is itself never returns:
    on a key that is not cached the evaluation recurses on the same key
    whatever the depth allowed, where the source overflows the stack. *)
Theorem self_dependency_diverges name def deps context transforms st :
  metricRegistry !! name = Some (derived def) →
  dependencies def = name :: deps →
  cache st !! cacheKey name context = None →
  ∀ fuel,
    evaluateMetric db factTables metricRegistry fuel name context transforms st
    = OutOfFuel.
Proof.
  intros Hdef Hdeps Hmiss fuel. induction fuel as [|fuel IH]; [done |].
  rewrite (evaluateMetric_miss _ _ _ _ _ _ _ _ _ Hmiss Hdef).
  unfold store. rewrite Hdeps. cbn [forEachMetric]. unfold bind at 1 2 3.
  by rewrite IH.
Qed.

End EvaluatorErrors.

(* ===================================================================== *)
(** ** Further properties: derived metrics and the result map             *)
(* ===================================================================== *)

Section Composition.
Context `{Builtins}.
Variable db : InMemoryDb.
Variable factTables : FactTableRegistry.
Variable metricRegistry : MetricRegistry.
Variable transforms : ContextTransformsRegistry.
Variable Reach : FilterContext → Prop.
Hypothesis Reach_transform :
  ∀ t f c, obj_get t transforms = Some (TFn f) → Reach c → Reach (f c).
Hypothesis cacheKey_inj :
  ∀ m c m' c', Reach c → Reach c' → cacheKey m c = cacheKey m' c' → m = m' ∧ c = c'.

Local Notation "'evalM'" := (evaluateMetric db factTables metricRegistry).
Local Notation "'evalU'" := (evaluateUncached db factTables metricRegistry transforms).

Lemma forEachUncached_values (ev : string → Outcome MetricValue) names :
  ∀ out out', forEachUncached ev names out = Ok out' →
    (∀ name, In name names → ∃ v, ev name = Ok v ∧ obj_get name out' = Some v)
    ∧ (∀ name, ¬ In name names → obj_get name out' = obj_get name out).
Proof.
  induction names as [|m names IH]; intros out out'; simpl.
  - intros [= <-]. split; [intros name [] | done].
  - destruct (ev m) as [v| |] eqn:Hv; [| done | done]. intros Hrest.
    destruct (IH _ _ Hrest) as [Hin Hout]. split.
    + intros name [<- | Hname]; [| by apply Hin].
      destruct (in_dec String.string_dec m names) as [Hm | Hm].
      * destruct (Hin _ Hm) as (w & Hw & Hget). exists w. split; [done | done].
      * exists v. split; [done |].
        by rewrite (Hout _ Hm), obj_get_set, String.eqb_refl.
    + intros name Hname. rewrite Hout by tauto. rewrite obj_get_set.
      destruct (String.eqb_spec m name); [tauto | done].
Qed.

(** X15.  When the cache key tells apart the metrics and the contexts an
    evaluation can reach, the value a derived metric returns from a fresh
    cache is its [evalFromDeps] applied to a map that holds, under each
    dependency, the value a standalone evaluation of that dependency returns
    at the same context, and that holds nothing else. *)
Theorem derived_composition fuel name def context v :
  Reach context →
  metricRegistry !! name = Some (derived def) →
  value_of (evaluateMetric db factTables metricRegistry fuel name context transforms
              new_cache) = Ok v →
  ∃ depValues,
    v = evalFromDeps def depValues db context
    ∧ (∀ dep, In dep (dependencies def) →
         ∃ fuel' w,
           value_of (evaluateMetric db factTables metricRegistry fuel' dep context
                       transforms new_cache) = Ok w
           ∧ obj_get dep depValues = Some w)
    ∧ (∀ k, ¬ In k (dependencies def) → obj_get k depValues = None).
Proof.
  intros Hr Hdef Hrun.
  destruct (evalM fuel name context transforms new_cache) as [[v' st']| |] eqn:Hm;
    [| done | done].
  injection Hrun as ->.
  pose proof (sound_new_cache db factTables metricRegistry transforms Reach) as Hnew.
  destruct (evalM_sound db factTables metricRegistry transforms Reach Reach_transform
              cacheKey_inj _ _ _ _ _ _ Hr Hnew Hm) as [[n Hn] _].
  destruct n as [|n]; [done |]. simpl in Hn. rewrite Hdef in Hn.
  destruct (forEachUncached _ _ _) as [depValues| |] eqn:Hloop; [| done | done].
  injection Hn as <-. exists depValues. split; [done |].
  destruct (forEachUncached_values _ _ _ _ Hloop) as [Hin Hout]. split.
  - intros dep Hdep. destruct (Hin _ Hdep) as (w & Hw & Hget).
    destruct (evalM_complete db factTables metricRegistry transforms Reach
                Reach_transform cacheKey_inj _ _ _ _ _ Hr Hnew Hw)
      as (fuel' & st1 & Hrun).
    exists fuel', w. by rewrite Hrun.
  - intros k Hk. by rewrite Hout.
Qed.

End Composition.

Section ResultMap.
Context `{Builtins}.
Variable db : InMemoryDb.
Variable factTables : FactTableRegistry.

Lemma forEachMetric_keys (ev : string → M MetricValue) names :
  ∀ out st out' st', forEachMetric ev names out st = Ok (out', st') →
    ∀ k, is_Some (obj_get k out') ↔ In k names ∨ is_Some (obj_get k out).
Proof.
  induction names as [|m names IH]; intros out st out' st'; simpl.
  - unfold ret. intros [= <- <-] k. tauto.
  - intros (v & st1 & _ & Hrest)%bind_Ok k.
    rewrite (IH _ _ _ _ Hrest k), obj_get_set.
    destruct (String.eqb_spec m k) as [-> | Hne].
    + split; [tauto | intros _; right; eauto].
    + split; [tauto | intros [[? | ?] | ?]; [done | tauto | tauto]].
Qed.

(** X16.  The map [evaluateMetrics] returns has a value under each
    requested name and under no other name, whatever the registry holds; a
    name requested twice is one property. *)
Theorem evaluateMetrics_keys metricRegistry fuel names context transforms results :
  evaluateMetrics db factTables metricRegistry fuel names context transforms
  = Ok results →
  ∀ k, is_Some (obj_get k results) ↔ In k names.
Proof.
  unfold evaluateMetrics.
  destruct (forEachMetric _ _ _ _) as [[out' st']| |] eqn:Hloop; [| done | done].
  intros [= <-] k. rewrite (forEachMetric_keys _ _ _ _ _ _ Hloop k). simpl.
  split; [intros [? | [? [=]]]; done | tauto].
Qed.

Lemma evaluateMetric_registry_mono (reg reg' : MetricRegistry) :
  reg ⊆ reg' →
  ∀ fuel name context transforms st r,
    evaluateMetric db factTables reg fuel name context transforms st = Ok r →
    evaluateMetric db factTables reg' fuel name context transforms st = Ok r.
Proof.
  intros Hsub fuel. induction fuel as [|fuel IH]; intros name context transforms st r;
    [done |].
  destruct (cache st !! cacheKey name context) as [w|] eqn:Hc.
  { by rewrite !(evaluateMetric_hit _ _ _ _ _ _ _ _ _ Hc). }
  destruct (reg !! name) as [def|] eqn:Hdef.
  2: { rewrite evaluateMetric_unregistered; done. }
  pose proof (lookup_weaken _ _ _ _ Hdef Hsub) as Hdef'.
  rewrite (evaluateMetric_miss _ _ _ _ _ _ _ _ _ Hc Hdef).
  rewrite (evaluateMetric_miss _ _ _ _ _ _ _ _ _ Hc Hdef').
  unfold store. destruct r as [v st'].
  intros (value & st1 & Hbranch & Hset)%bind_Ok. apply bind_Ok.
  exists value, st1. split; [| done]. clear Hset.
  destruct def as [d|d|d|d]; [done | done | |].
  - apply bind_Ok in Hbranch as (depValues & st2 & Hdeps & Hrec). apply bind_Ok.
    exists depValues, st2. split; [| done].
    eapply forEachMetric_mono; [| exact Hdeps]. intros m s w. apply IH.
  - destruct (obj_get (transform d) transforms) as [[f|w]|]; [| done | done].
    apply bind_Ok in Hbranch as ([] & st2 & Hrec & Hbase). apply bind_Ok.
    exists (), st2. split; [done |]. by apply IH.
Qed.

(** X17.  Registering a context-transform metric under a name the registry
    does not use changes no evaluation that returned: the same call on the
    extended registry returns the same value and leaves the same cache and
    the same calls. *)
Theorem addContextTransformMetric_conservative (registry : MetricRegistry)
    (def : ContextTransformMetric) fuel name context transforms st r :
  registry !! ct_name def = None →
  evaluateMetric db factTables registry fuel name context transforms st = Ok r →
  evaluateMetric db factTables (addContextTransformMetric registry def) fuel name
    context transforms st = Ok r.
Proof.
  intros Hfresh. apply evaluateMetric_registry_mono.
  unfold addContextTransformMetric. by apply insert_subseteq.
Qed.

End ResultMap.

(** What [buildMetricRegistry] holds under a name. *)
Lemma buildMetricRegistry_entry (overrides : list MetricDefinition) (name : string) :
  buildMetricRegistry overrides !! name
  = match List.find (λ metric, String.eqb (metric_name metric) name) (rev overrides) with
    | Some metric => Some metric
    | None => demoMetrics !! name
    end.
Proof.
  unfold buildMetricRegistry. generalize demoMetrics.
  induction overrides as [|metric overrides IH] using rev_ind; intros registry; [done |].
  rewrite fold_left_app, rev_unit. simpl.
  destruct (String.eqb_spec (metric_name metric) name) as [-> | Hne].
  - apply lookup_insert_eq.
  - etrans; [by apply lookup_insert_ne | apply IH].
Qed.


(* ===================================================================== *)
(** ** Further properties: [runQuery]                                     *)
(* ===================================================================== *)

Section SetFacts.
Context {A : Type}.
Implicit Types (o : Obj A) (l : list (string * A)) (k : string) (v : A).

Lemma obj_update_keys o k v : map fst (obj_update k v o) = map fst o.
Proof.
  induction o as [|[k0 v0] o IH]; simpl; [done |].
  destruct (String.eqb_spec k0 k) as [-> | Hne]; simpl; [done | by rewrite IH].
Qed.

(** An assignment keeps the property names of an object distinct. *)
Lemma obj_set_NoDup o k v : NoDup (map fst o) → NoDup (map fst (obj_set k v o)).
Proof.
  intros Hnd. unfold obj_set. destruct (obj_has k o) eqn:Hhas.
  - by rewrite obj_update_keys.
  - assert (k ∉ map fst o) as Hk.
    { intros Hin%list_elem_of_In%obj_has_In. congruence. }
    destruct (array_index k) as [i|].
    + rewrite (fmap_Permutation fst _ _ (insert_index_perm i k v o)).
      simpl. by apply NoDup_cons.
    + rewrite map_app. simpl. apply NoDup_app. split; [done |]. split.
      * by intros k' Hk' ->%list_elem_of_singleton.
      * apply NoDup_singleton.
Qed.

Lemma obj_assign_NoDup init l :
  NoDup (map fst init) → NoDup (map fst (obj_assign init l)).
Proof.
  unfold obj_assign. revert init.
  induction l as [|[k v] l IH]; intros init Hnd; simpl; [done |].
  by apply IH, obj_set_NoDup.
Qed.

(** [{ ...a, ...b }[k]] is [b[k]] when [b] has the property. *)
Lemma obj_get_spread2 (a b : Obj A) k v :
  NoDup (map fst b) → obj_get k b = Some v → obj_get k (obj_spread2 a b) = Some v.
Proof.
  intros Hnd Hget. unfold obj_spread2.
  by rewrite obj_get_assign, obj_get_rev, Hget.
Qed.

End SetFacts.

Section GroupCount.
Context {A : Type}.
Variable f : A → string.

Lemma groupBy_keys (l : list A) k :
  In k (map fst (Linq.groupBy f l)) ↔ ∃ x, In x l ∧ f x = k.
Proof.
  induction l as [|y l IH] using rev_ind.
  - simpl. split; [done | by intros (x & [] & _)].
  - rewrite groupBy_snoc, group_add_keys. case_bool_decide as Hin.
    + rewrite IH. split.
      * intros (x & Hx & Hk). exists x. split; [apply in_or_app; by left | done].
      * intros (x & [Hx | [<- | []]]%in_app_or & Hk); [by exists x |].
        apply IH. rewrite <- Hk. by apply list_elem_of_In.
    + rewrite in_app_iff, IH. simpl. split.
      * intros [(x & Hx & Hk) | [<- | []]].
        -- exists x. split; [apply in_or_app; by left | done].
        -- exists y. split; [apply in_or_app; right; by left | done].
      * intros (x & [Hx | [<- | []]]%in_app_or & Hk); [left; by exists x |].
        right. by left.
Qed.

End GroupCount.

Section RunQueryFacts.
Context `{Builtins}.
Variable db : InMemoryDb.
Variable factTables : FactTableRegistry.
Variable metricRegistry : MetricRegistry.

Local Notation "'evalM'" := (evaluateMetric db factTables metricRegistry).

(** What one pass over the metrics of a group leaves: the cache has grown,
    and each metric's property is the formatted value that the cache holds
    under the metric's key at the context the call passes. *)
Lemma runQueryMetrics_values fuel transforms rowContext ms :
  ∀ metricValues st metricValues' st',
    NoDup (map fst metricValues) →
    runQueryMetrics db factTables metricRegistry fuel transforms rowContext ms
      metricValues st = Ok (metricValues', st') →
    cache st ⊆ cache st'
    ∧ NoDup (map fst metricValues')
    ∧ (∀ m, ¬ In m ms → obj_get m metricValues' = obj_get m metricValues)
    ∧ ∀ m, In m ms →
        ∃ v def,
          cache st' !! cacheKey m (context_of_transforms transforms) = Some v
          ∧ metricRegistry !! m = Some def
          ∧ obj_get m metricValues' = Some (formatValue v (metric_format def)).
Proof.
  induction ms as [|m ms IH]; intros mv st mv' st' Hnd; simpl.
  - unfold ret. intros [= <- <-]. repeat split; [done | done | intros m []].
  - intros (v & st1 & Hm & Hrest)%bind_Ok.
    apply bind_Ok in Hrest as (def & st2 & Hdef & Hrest).
    destruct (metricRegistry !! m) as [def'|] eqn:Hreg; [| done].
    unfold or_throw, ret in Hdef. injection Hdef as <- <-.
    destruct (IH _ _ _ _ (obj_set_NoDup _ _ _ Hnd) Hrest)
      as (Hsub & Hnd' & Hother & Hvals).
    pose proof (cache_grows _ _ _ _ _ _ _ _ _ _ Hm) as [Hsub1 Hkey].
    split; [by etrans |]. split; [done |]. split.
    + intros m' Hm'. rewrite Hother by tauto. rewrite obj_get_set.
      destruct (String.eqb_spec m m'); [tauto | done].
    + intros m' [<- | Hm']; [| by apply Hvals].
      destruct (in_dec String.string_dec m ms) as [Hin | Hin]; [by apply Hvals |].
      exists v, def'. split; [by eapply lookup_weaken |]. split; [done |].
      by rewrite (Hother _ Hin), obj_get_set, String.eqb_refl.
Qed.

(** What the loop over the groups leaves: one new row per group, each with
    the formatted value that the final cache holds for each metric. *)
Lemma runQueryGroups_values fuel transforms dimensionConfig options groups :
  ∀ result st result' st',
    runQueryGroups db factTables metricRegistry fuel transforms dimensionConfig
      options groups result st = Ok (result', st') →
    cache st ⊆ cache st'
    ∧ ∃ new,
        result' = result ++ new
        ∧ length new = length groups
        ∧ ∀ row, In row new → ∀ m, In m (metrics options) →
            ∃ v def,
              cache st' !! cacheKey m (context_of_transforms transforms) = Some v
              ∧ metricRegistry !! m = Some def
              ∧ obj_get m row = Some (formatValue v (metric_format def)).
Proof.
  induction groups as [|g groups IH]; intros result st result' st'; simpl.
  - unfold ret. intros [= <- <-]. split; [done |]. exists [].
    rewrite app_nil_r. repeat split. intros row [].
  - intros (mv & st1 & Hmv & Hrest)%bind_Ok.
    destruct (runQueryMetrics_values _ _ _ _ [] _ _ _ (NoDup_nil_2 (A:=string)) Hmv)
      as (Hsub1 & Hnd & _ & Hvals).
    destruct (IH _ _ _ _ Hrest) as (Hsub & new & -> & Hlen & Hnew).
    split; [by etrans |].
    eexists (_ :: new). split; [by rewrite <- app_assoc |].
    split; [simpl; by rewrite Hlen |].
    intros row [<- | Hrow] m Hm; [| by apply Hnew].
    destruct (Hvals _ Hm) as (v & def & Hkey & Hdef & Hget).
    exists v, def. split; [by eapply lookup_weaken |]. split; [done |].
    by apply obj_get_spread2.
Qed.

(** X19.  When no row of the fact table passes the filters (the table may
    be empty), [runQuery] returns no rows at every depth and whatever the
    metrics requested are, registered or not: no metric is evaluated. *)
Theorem runQuery_no_rows fuel transforms dimensionConfig options factRows :
  facts db !! factForRows options = Some factRows →
  applyContextToFact factRows (default [] (filters options))
    (obj_keys (default [] (head factRows))) = [] →
  runQuery db factTables metricRegistry fuel transforms dimensionConfig options
  = Ok [].
Proof. intros Hrows Hnone. unfold runQuery, Row, Obj in *. by rewrite Hrows, Hnone. Qed.

(** X20.  A query that returns has one row per distinct group key of the
    rows that pass the filters: the number of result rows is the length of
    a duplicate-free list of exactly the group keys of those rows. *)
Theorem runQuery_row_count fuel transforms dimensionConfig options factRows result :
  facts db !! factForRows options = Some factRows →
  runQuery db factTables metricRegistry fuel transforms dimensionConfig options
  = Ok result →
  ∃ keys,
    length result = length keys
    ∧ NoDup keys
    ∧ ∀ k, In k keys ↔
        ∃ r, In r (applyContextToFact factRows (default [] (filters options))
                     (obj_keys (default [] (head factRows))))
             ∧ groupKey (rows options) r = k.
Proof.
  intros Hrows. unfold runQuery, Row, Obj in *. rewrite Hrows.
  destruct (runQueryGroups _ _ _ _ _ _ _ _ _ _) as [[result' st']| |] eqn:Hloop;
    [| done | done].
  intros [= ->].
  destruct (runQueryGroups_values _ _ _ _ _ _ _ _ _ Hloop)
    as (_ & new & -> & Hlen & _).
  eexists (map fst (Linq.groupBy (groupKey (rows options)) _)).
  split; [by rewrite length_map |]. split; [apply groupBy_NoDup |].
  apply groupBy_keys.
Qed.

Lemma formatValue_shape (value : MetricValue) (format : option string) :
  formatValue value format = PNull ∨ ∃ s, formatValue value format = PStr s.
Proof.
  unfold formatValue. destruct value as [[|n]|]; [by left | | by left]. right.
  repeat match goal with |- context [String.eqb ?a ?b] => destruct (String.eqb a b) end;
    by eexists.
Qed.

(** X21.  In the rows a query returns, a requested metric shows the same
    cell in every row, and the cell is null or a string: each group is
    evaluated under the same context (the transforms registry, which the
    call passes in the place of the context), so the groups after the first
    read the cache entry the first one left. *)
Theorem runQuery_metric_uniform fuel transforms dimensionConfig options result :
  runQuery db factTables metricRegistry fuel transforms dimensionConfig options
  = Ok result →
  ∀ m, In m (metrics options) →
    ∃ shown,
      (shown = PNull ∨ ∃ s, shown = PStr s)
      ∧ ∀ row, In row result → obj_get m row = Some shown.
Proof.
  unfold runQuery. destruct (facts db !! factForRows options) as [factRows|]; [| done].
  destruct (runQueryGroups _ _ _ _ _ _ _ _ _ _) as [[result' st']| |] eqn:Hloop;
    [| done | done].
  intros [= ->] m Hm.
  destruct (runQueryGroups_values _ _ _ _ _ _ _ _ _ Hloop)
    as (_ & new & -> & _ & Hnew).
  destruct new as [|row0 new]; [exists PNull; split; [by left | intros row []] |].
  destruct (Hnew row0 ltac:(by left) _ Hm) as (v & def & Hkey & Hdef & Hget).
  exists (formatValue v (metric_format def)). split; [apply formatValue_shape |].
  intros row Hrow.
  destruct (Hnew _ Hrow _ Hm) as (v' & def' & Hkey' & Hdef' & ->). congruence.
Qed.

Lemma runQueryMetrics_registry_mono (reg reg' : MetricRegistry) :
  reg ⊆ reg' →
  ∀ fuel transforms rowContext ms metricValues st r,
    runQueryMetrics db factTables reg fuel transforms rowContext ms metricValues st
    = Ok r →
    runQueryMetrics db factTables reg' fuel transforms rowContext ms metricValues st
    = Ok r.
Proof.
  intros Hsub fuel transforms rowContext ms.
  induction ms as [|m ms IH]; intros mv st [mv' st']; simpl; [done |].
  intros (v & st1 & Hm & Hrest)%bind_Ok.
  apply bind_Ok in Hrest as (def & st2 & Hdef & Hrest).
  destruct (reg !! m) as [def'|] eqn:Hreg; [| done].
  unfold or_throw, ret in Hdef. injection Hdef as <- <-.
  apply bind_Ok. exists v, st1.
  split; [by eapply evaluateMetric_registry_mono |].
  apply bind_Ok. exists def', st1.
  split; [| by apply IH].
  pose proof (lookup_weaken _ _ _ _ Hreg Hsub) as Hreg'.
  unfold or_throw, MetricRegistry in *. by rewrite Hreg'.
Qed.

Lemma runQuery_registry_mono (reg reg' : MetricRegistry) :
  reg ⊆ reg' →
  ∀ fuel transforms dimensionConfig options result,
    runQuery db factTables reg fuel transforms dimensionConfig options = Ok result →
    runQuery db factTables reg' fuel transforms dimensionConfig options = Ok result.
Proof.
  intros Hsub fuel transforms dimensionConfig options result. unfold runQuery.
  destruct (facts db !! factForRows options) as [factRows|]; [| done].
  generalize (Linq.groupBy (groupKey (rows options))
                (applyContextToFact factRows (default [] (filters options))
                   (obj_keys (default [] (head factRows))))).
  intros groups.
  cut (∀ acc st r,
         runQueryGroups db factTables reg fuel transforms dimensionConfig options
           groups acc st = Ok r →
         runQueryGroups db factTables reg' fuel transforms dimensionConfig options
           groups acc st = Ok r).
  { intros Hloop.
    destruct (runQueryGroups db factTables reg _ _ _ _ _ _ _) as [r| |] eqn:Hrun;
      [| done | done].
    by rewrite (Hloop _ _ _ Hrun). }
  induction groups as [|g groups IH]; intros acc st [r st']; simpl; [done |].
  intros (mv & st1 & Hmv & Hrest)%bind_Ok. apply bind_Ok. exists mv, st1.
  split; [by eapply runQueryMetrics_registry_mono | by apply IH].
Qed.

End RunQueryFacts.

(* ===================================================================== *)
(** ** Further properties: the demo transforms                            *)
(* ===================================================================== *)

Section WellFormed.
Context {A : Type}.
Implicit Types (o : Obj A) (l : list (string * A)) (k : string) (v : A).

Lemma same_keys_refl o : same_keys o o.
Proof. by apply Forall_Forall2_diag, Forall_forall. Qed.

Lemma same_keys_update o k v : same_keys o (obj_update k v o).
Proof.
  induction o as [|[k0 v0] o IH]; simpl; [constructor |].
  destruct (String.eqb_spec k0 k); constructor; try done. apply same_keys_refl.
Qed.

Lemma same_keys_Forall (P : string → Prop) o o' :
  same_keys o o' → Forall (λ kv, P kv.1) o → Forall (λ kv, P kv.1) o'.
Proof.
  induction 1 as [|a b o o' Hab _ IH]; [done |].
  intros [Ha Ho]%Forall_cons. constructor; [by rewrite <- Hab | by apply IH].
Qed.

Lemma same_keys_sorted o o' :
  same_keys o o' → StronglySorted index_lt o → StronglySorted index_lt o'.
Proof.
  induction 1 as [|a b o o' Hab Hoo' IH]; [done |].
  intros [Hs Hall]%StronglySorted_inv. constructor; [by apply IH |].
  unfold index_lt, index_of in *. rewrite <- Hab.
  by apply (same_keys_Forall (λ k, (default 0 (array_index a.1) < default 0 (array_index k))%N)
              o o').
Qed.

Lemma named_part_none l : Forall (λ kv, is_index kv.1 = true) l → named_part l = [].
Proof.
  induction 1 as [|[k v] l Hk _ IH]; [done |]. unfold named_part in *. simpl in *.
  by rewrite Hk.
Qed.

Lemma named_part_all l : Forall (λ kv, is_index kv.1 = false) l → named_part l = l.
Proof.
  induction 1 as [|[k v] l Hk _ IH]; [done |]. unfold named_part in *. simpl in *.
  rewrite Hk. simpl. by rewrite IH.
Qed.

Lemma named_part_Forall l : Forall (λ kv, is_index kv.1 = false) (named_part l).
Proof.
  unfold named_part. apply Forall_forall. intros kv [_ Hkv]%list_elem_of_In%filter_In.
  by destruct (is_index kv.1).
Qed.

(** Being well formed depends on the property names only. *)
Lemma obj_wf_same_keys o o' : same_keys o o' → obj_wf o → obj_wf o'.
Proof.
  intros Hkeys [Hnd (idx & Ho & Hidx & Hsorted & _)].
  assert (map fst o' = map fst o) as Hmap.
  { clear -Hkeys. induction Hkeys as [|a b o o' Hab _ IH]; [done |]. simpl. congruence. }
  split; [by rewrite Hmap |].
  rewrite Ho in Hkeys. apply Forall2_app_inv_l in Hkeys as (idx' & named' & Hi & Hn & ->).
  pose proof (same_keys_Forall (λ k, is_index k = true) _ _ Hi Hidx) as Hidx'.
  pose proof (same_keys_Forall (λ k, is_index k = false) _ _ Hn (named_part_Forall o))
    as Hnamed'.
  exists idx'. split; [| split; [done | split; [by eapply same_keys_sorted | done]]].
  by rewrite named_part_app, (named_part_none idx'), (named_part_all named').
Qed.

(** Copying a well-formed object gives the object. *)
Lemma obj_copy_wf o : obj_wf o → obj_assign [] o = o.
Proof.
  intros [Hnd Henum].
  by apply (enumerates_unique _ _ o o (enumerates_assign o Hnd) Henum).
Qed.

Lemma obj_set_present o k v : is_Some (obj_get k o) → obj_set k v o = obj_update k v o.
Proof. intros [w Hw]. unfold obj_set, obj_has. by rewrite Hw. Qed.

Lemma obj_update_comm o k k' v v' :
  k ≠ k' →
  obj_update k v (obj_update k' v' o) = obj_update k' v' (obj_update k v o).
Proof.
  intros Hne. induction o as [|[k0 v0] o IH]; simpl; [done |].
  destruct (String.eqb_spec k0 k') as [-> | Hne']; simpl.
  - destruct (String.eqb_spec k' k) as [-> | _]; [done |]. simpl.
    by rewrite String.eqb_refl.
  - destruct (String.eqb_spec k0 k) as [-> | Hne'']; simpl.
    + by rewrite (proj2 (String.eqb_neq _ _) Hne').
    + by rewrite (proj2 (String.eqb_neq _ _) Hne'), IH.
Qed.

End WellFormed.

Section TransformFacts.

Lemma absent_update (ctx : FilterContext) k k' v :
  absent (obj_update k v ctx) k'
  = if String.eqb k k'
    then (if obj_has k ctx then filter_nullish v else true)
    else absent ctx k'.
Proof.
  unfold absent. rewrite obj_get_update.
  destruct (String.eqb k k'); [| done]. by destruct (obj_has k ctx).
Qed.

Lemma numberOf_update (ctx : FilterContext) k k' v :
  k ≠ k' → numberOf (obj_update k v ctx) k' = numberOf ctx k'.
Proof.
  intros Hne. unfold numberOf. rewrite obj_get_update.
  by rewrite (proj2 (String.eqb_neq _ _) Hne).
Qed.

Lemma absent_present (ctx : FilterContext) k :
  absent ctx k = false → is_Some (obj_get k ctx) ∧ obj_has k ctx = true.
Proof.
  unfold absent, obj_has. destruct (obj_get k ctx); [| done]. intros _. by eauto.
Qed.

Lemma obj_wf_update (ctx : FilterContext) k v : obj_wf ctx → obj_wf (obj_update k v ctx).
Proof. apply obj_wf_same_keys, same_keys_update. Qed.

Lemma lastYear_present (ctx : FilterContext) :
  obj_wf ctx → absent ctx "year" = false →
  lastYear ctx
  = obj_update "year" (FPrim (PNum (minus_one (numberOf ctx "year")))) ctx.
Proof.
  intros Hwf Hyear. unfold lastYear. rewrite Hyear, (obj_copy_wf _ Hwf).
  apply obj_set_present. by apply absent_present.
Qed.

Lemma ytd_present (ctx : FilterContext) :
  obj_wf ctx → absent ctx "year" = false → absent ctx "month" = false →
  ytd ctx = obj_update "month" (FRange [("lte", PNum (numberOf ctx "month"))]) ctx.
Proof.
  intros Hwf Hyear Hmonth. unfold ytd. rewrite Hyear, Hmonth, (obj_copy_wf _ Hwf). simpl.
  apply obj_set_present. by apply absent_present.
Qed.

(** X22.  On a context that has no year, or that has a month, the demo
    transform [ytdLastYear] is [lastYear] followed by [ytd] and also [ytd]
    followed by [lastYear].  On a context with a year and no month it is
    not: [ytdLastYear] returns the context as it is, while both
    compositions return [lastYear] of it. *)
Theorem ytdLastYear_composition (ctx : FilterContext) :
  obj_wf ctx →
  (absent ctx "year" = true ∨ absent ctx "month" = false →
   ytd (lastYear ctx) = ytdLastYear ctx ∧ lastYear (ytd ctx) = ytdLastYear ctx)
  ∧ (absent ctx "year" = false → absent ctx "month" = true →
     ytdLastYear ctx = ctx
     ∧ ytd (lastYear ctx) = lastYear ctx
     ∧ lastYear (ytd ctx) = lastYear ctx).
Proof.
  intros Hwf. split.
  - intros [Hyear | Hmonth].
    + unfold ytd, lastYear, ytdLastYear. rewrite !Hyear. simpl. by rewrite !Hyear.
    + destruct (absent ctx "year") eqn:Hyear.
      { unfold ytd, lastYear, ytdLastYear. rewrite !Hyear. simpl. by rewrite !Hyear. }
      destruct (absent_present _ _ Hyear) as [Hy Hhas].
      destruct (absent_present _ _ Hmonth) as [Hm Hhas'].
      assert (ytdLastYear ctx
              = obj_update "month" (FRange [("lte", PNum (numberOf ctx "month"))])
                  (obj_update "year"
                     (FPrim (PNum (minus_one (numberOf ctx "year")))) ctx)) as ->.
      { unfold ytdLastYear. rewrite Hyear, Hmonth, (obj_copy_wf _ Hwf). simpl.
        rewrite (obj_set_present ctx "year") by done.
        apply obj_set_present. rewrite obj_get_update. by simpl. }
      split.
      * rewrite (lastYear_present _ Hwf Hyear).
        rewrite ytd_present.
        -- by rewrite numberOf_update.
        -- by apply obj_wf_update.
        -- rewrite absent_update. simpl. by rewrite Hhas.
        -- by rewrite absent_update.
      * rewrite (ytd_present _ Hwf Hyear Hmonth).
        rewrite lastYear_present.
        -- rewrite numberOf_update by done. by apply obj_update_comm.
        -- by apply obj_wf_update.
        -- by rewrite absent_update.
  - intros Hyear Hmonth. split; [| split].
    + unfold ytdLastYear. by rewrite Hyear, Hmonth.
    + rewrite (lastYear_present _ Hwf Hyear). unfold ytd.
      by rewrite !absent_update, Hmonth, orb_true_r.
    + unfold ytd. by rewrite Hyear, Hmonth.
Qed.

End TransformFacts.

(* ===================================================================== *)
(** ** Further properties: the playground                                 *)
(* ===================================================================== *)

Lemma demoMetrics_extended (overrides : list MetricDefinition) :
  (∀ metric, In metric overrides → demoMetrics !! metric_name metric = None) →
  demoMetrics ⊆ buildMetricRegistry overrides.
Proof.
  intros Hfresh. apply map_subseteq_spec. intros name def Hdef.
  rewrite buildMetricRegistry_entry.
  destruct (List.find _ _) as [metric|] eqn:Hfind; [| done].
  apply find_some in Hfind as [Hin%in_rev Hname%String.eqb_eq].
  specialize (Hfresh _ Hin). rewrite Hname in Hfresh.
  unfold MetricRegistry in *. rewrite Hdef in Hfresh. done.
Qed.

(** X23.  Overrides under names the demo registry does not use change no
    playground query that returned: the query returns the same rows with
    them as without them. *)
Theorem runPlaygroundQuery_fresh_overrides fuel request overrides result :
  (∀ metric, In metric overrides → demoMetrics !! metric_name metric = None) →
  runPlaygroundQuery fuel request [] = Ok result →
  runPlaygroundQuery fuel request overrides = Ok result.
Proof.
  intros Hfresh. unfold runPlaygroundQuery.
  apply runQuery_registry_mono. by apply (demoMetrics_extended overrides).
Qed.

Lemma In_filter_ne (xs : list string) key k :
  In k (List.filter (λ dim, negb (String.eqb dim key)) xs) ↔ k ≠ key ∧ In k xs.
Proof.
  rewrite filter_In. destruct (String.eqb_spec k key); simpl; split; try tauto.
  by intros [_ [=]].
Qed.

Lemma toggle_In (xs : list string) key k :
  In k (toggle xs key) ↔ (k = key ∧ ¬ In key xs) ∨ (k ≠ key ∧ In k xs).
Proof.
  unfold toggle. destruct (includes xs key) eqn:Hinc.
  - apply includes_In in Hinc. rewrite In_filter_ne. tauto.
  - assert (¬ In key xs) as Hnot.
    { intros Hin%includes_In. congruence. }
    rewrite in_app_iff. simpl.
    destruct (String.string_dec k key) as [-> | Hne]; [tauto |].
    split; [intros [? | [? | []]]; [tauto | congruence] | tauto].
Qed.

Lemma toggle_toggle (xs : list string) key :
  ¬ In key xs → toggle (toggle xs key) key = xs.
Proof.
  intros Hnot. unfold toggle at 2.
  destruct (includes xs key) eqn:Hinc; [by apply includes_In in Hinc |].
  unfold toggle.
  assert (includes (xs ++ [key]) key = true) as ->.
  { apply includes_In, in_or_app. right. by left. }
  rewrite List.filter_app. simpl. rewrite String.eqb_refl. simpl.
  rewrite app_nil_r. clear Hinc.
  induction xs as [|x xs IH]; [done |]. simpl.
  destruct (String.eqb_spec x key) as [-> | Hne]; simpl.
  - exfalso. apply Hnot. by left.
  - rewrite IH; [done |]. intros Hin. apply Hnot. by right.
Qed.

(** X24.  After [toggleRow], a dimension other than the toggled one is
    selected exactly when it was, and the toggled one exactly when it was
    not; toggling a dimension that was not selected twice gives back the
    state.  The same holds of [toggleMetric] on the metrics. *)
Theorem toggle_membership (state : PlaygroundQueryRequest) (key : string) :
  (∀ k, In k (rq_rows (toggleRow state key))
        ↔ (k = key ∧ ¬ In key (rq_rows state)) ∨ (k ≠ key ∧ In k (rq_rows state)))
  ∧ (∀ k, In k (rq_metrics (toggleMetric state key))
          ↔ (k = key ∧ ¬ In key (rq_metrics state))
            ∨ (k ≠ key ∧ In k (rq_metrics state)))
  ∧ (¬ In key (rq_rows state) → toggleRow (toggleRow state key) key = state)
  ∧ (¬ In key (rq_metrics state) → toggleMetric (toggleMetric state key) key = state).
Proof.
  destruct state as [rs ms fact fs]. unfold toggleRow, toggleMetric. simpl.
  repeat split; try apply toggle_In.
  - intros Hnot. by rewrite toggle_toggle.
  - intros Hnot. by rewrite toggle_toggle.
Qed.

Section UpdateFilterFacts.
Context `{Builtins}.

Lemma obj_get_delete {A} (o : Obj A) key k :
  obj_get k (obj_delete key o) = if String.eqb k key then None else obj_get k o.
Proof.
  unfold obj_delete. induction o as [|[k0 v0] o IH]; simpl.
  - by destruct (String.eqb k key).
  - destruct (String.eqb_spec k0 key) as [-> | Hne]; simpl.
    + rewrite IH. rewrite (String.eqb_sym key k). by destruct (String.eqb k key).
    + rewrite IH. destruct (String.eqb_spec k0 k) as [-> | Hne'].
      * by rewrite (proj2 (String.eqb_neq _ _) Hne).
      * done.
Qed.

(** X25.  After [updateFilter] the filter of the key is gone when the
    value is the empty text, and is otherwise the text, converted to a
    number for [year], [month] and [productId]; every other filter reads as
    before. *)
Theorem updateFilter_lookup (state : PlaygroundQueryRequest) (key value k : string) :
  NoDup (obj_keys (rq_filters state)) →
  obj_get k (rq_filters (updateFilter state key value))
  = if String.eqb k key
    then (if String.eqb value EmptyString then None
          else Some (FPrim (if includes NUMERIC_FILTERS key
                            then PNum (StringToNumber value) else PStr value)))
    else obj_get k (rq_filters state).
Proof.
  intros Hnd. unfold updateFilter. simpl.
  destruct (String.eqb value EmptyString).
  - rewrite obj_get_delete, obj_get_copy by done. done.
  - rewrite obj_get_set, obj_get_copy by done. by rewrite (String.eqb_sym key k).
Qed.

End UpdateFilterFacts.

(* ===================================================================== *)
(** ** Further properties: what [runQuery] evaluates its metrics under    *)
(* ===================================================================== *)

Section RunQueryContext.
Context `{Builtins}.
Variable db : InMemoryDb.
Variable factTables : FactTableRegistry.
Variable metricRegistry : MetricRegistry.
Variable context : FilterContext.

Local Notation "'evalM'" := (evaluateMetric db factTables metricRegistry).

Local Notation "'entry_ok'" := (entry_ok db factTables metricRegistry context).
Local Notation "'entries_ok'" := (entries_ok db factTables metricRegistry context).

(** A row context read as a transforms registry holds no function. *)
Lemma transforms_of_context_values (c : FilterContext) k f :
  obj_get k (transforms_of_context c) ≠ Some (TFn f).
Proof.
  unfold transforms_of_context. induction c as [|[k0 v0] c IH]; simpl; [done |].
  by destruct (String.eqb k0 k).
Qed.

Lemma entries_ok_insert st name v events :
  entries_ok st → entry_ok name v →
  entries_ok {| cache := <[cacheKey name context := v]> (cache st); calls := events |}.
Proof.
  intros Hinv Hentry name' v'. simpl.
  destruct (decide (cacheKey name context = cacheKey name' context)) as [Heq | Hne].
  - rewrite <- Heq, lookup_insert_eq. intros [= <-].
    by rewrite <- (cacheKey_same_context _ _ _ Heq).
  - rewrite lookup_insert_ne by done. apply Hinv.
Qed.

Lemma forEachMetric_entries_ok (ev : string → M MetricValue) names :
  (∀ name st v st', entries_ok st → ev name st = Ok (v, st') → entries_ok st') →
  ∀ out st out' st',
    entries_ok st → forEachMetric ev names out st = Ok (out', st') → entries_ok st'.
Proof.
  intros Hev. induction names as [|m names IH]; intros out st out' st' Hinv; simpl.
  - unfold ret. by intros [= <- <-].
  - intros (v & st1 & Hm & Hrest)%bind_Ok. eapply IH; [| exact Hrest]. by eapply Hev.
Qed.

(** An evaluation under the one context, with a registry of transforms that
    holds no function, keeps the entries as described and returns such a
    value. *)
Lemma evaluateMetric_entries_ok fuel :
  ∀ name transforms st v st',
    (∀ k f, obj_get k transforms ≠ Some (TFn f)) →
    entries_ok st →
    evalM fuel name context transforms st = Ok (v, st') →
    entries_ok st' ∧ entry_ok name v.
Proof.
  induction fuel as [|fuel IH]; intros name transforms st v st' Hvalues Hinv; [done |].
  destruct (cache st !! cacheKey name context) as [w|] eqn:Hc.
  { rewrite (evaluateMetric_hit _ _ _ _ _ _ _ _ _ Hc). intros [= <- <-].
    split; [done | by apply Hinv]. }
  destruct (metricRegistry !! name) as [def|] eqn:Hdef.
  2: { by rewrite evaluateMetric_unregistered. }
  rewrite (evaluateMetric_miss _ _ _ _ _ _ _ _ _ Hc Hdef).
  unfold store. intros (value & st1 & Hbranch & Hset)%bind_Ok.
  unfold bind, cache_set, ret in Hset. injection Hset as <- <-.
  cut (entries_ok st1 ∧ entry_ok name value).
  { intros [Hinv1 Hentry]. split; [by apply entries_ok_insert | done]. }
  destruct def as [d|d|d|d].
  - rewrite evaluateFactMeasure_run in Hbranch.
    destruct (value_of _) as [w| |] eqn:Hw; [| done | done].
    injection Hbranch as <- <-. split; [exact Hinv |]. split.
    + intros def. by rewrite Hdef.
    + intros def. rewrite Hdef. by intros [= <-].
  - rewrite evaluateExpression_run in Hbranch.
    destruct (value_of _) as [w| |] eqn:Hw; [| done | done].
    injection Hbranch as <- <-. split; [exact Hinv |].
    split; intros def; by rewrite Hdef.
  - apply bind_Ok in Hbranch as (depValues & st2 & Hdeps & Hrec).
    unfold bind, record, ret in Hrec. injection Hrec as <- <-.
    split; [| split; intros def; by rewrite Hdef].
    cut (entries_ok st2); [done |].
    eapply forEachMetric_entries_ok; [| exact Hinv | exact Hdeps].
    intros dep s w s' Hs Hdep. simpl in Hdep.
    by destruct (IH _ _ _ _ _ Hvalues Hs Hdep).
  - destruct (obj_get (transform d) transforms) as [[f|w]|] eqn:Htr; [| | done].
    + by destruct (Hvalues _ _ Htr).
    + by destruct (filter_falsy w).
Qed.

Lemma runQueryMetrics_entries_ok fuel transforms rowContext ms :
  context = context_of_transforms transforms →
  ∀ metricValues st metricValues' st',
    entries_ok st →
    runQueryMetrics db factTables metricRegistry fuel transforms rowContext ms
      metricValues st = Ok (metricValues', st') →
    entries_ok st'
    ∧ ∀ m def, In m ms → metricRegistry !! m ≠ Some (contextTransform def).
Proof.
  intros Hctx. induction ms as [|m ms IH]; intros mv st mv' st' Hinv; simpl.
  - unfold ret. intros [= <- <-]. split; [done | by intros m def []].
  - rewrite <- Hctx. intros (v & st1 & Hm & Hrest)%bind_Ok.
    apply bind_Ok in Hrest as (def & st2 & Hdef & Hrest).
    destruct (metricRegistry !! m) as [def'|] eqn:Hreg; [| done].
    unfold or_throw, ret in Hdef. injection Hdef as <- <-.
    destruct (evaluateMetric_entries_ok _ _ _ _ _ _
                (transforms_of_context_values rowContext) Hinv Hm) as [Hinv1 [Hno _]].
    destruct (IH _ _ _ _ Hinv1 Hrest) as [Hinv' Hrest'].
    split; [done |]. intros m' d [<- | Hm']; [| by apply Hrest'].
    rewrite Hreg. intros [= ->]. by apply (Hno d).
Qed.

Lemma runQueryGroups_entries_ok fuel transforms dimensionConfig options groups :
  context = context_of_transforms transforms →
  ∀ result st result' st',
    entries_ok st →
    runQueryGroups db factTables metricRegistry fuel transforms dimensionConfig
      options groups result st = Ok (result', st') →
    entries_ok st'
    ∧ (groups ≠ [] →
       ∀ m def, In m (metrics options) →
         metricRegistry !! m ≠ Some (contextTransform def)).
Proof.
  intros Hctx. induction groups as [|g groups IH]; intros result st result' st' Hinv;
    simpl.
  - unfold ret. intros [= <- <-]. by split.
  - intros (mv & st1 & Hmv & Hrest)%bind_Ok.
    destruct (runQueryMetrics_entries_ok _ _ _ _ Hctx _ _ _ _ Hinv Hmv)
      as [Hinv1 Hno].
    destruct (IH _ _ _ _ Hinv1 Hrest) as [Hinv' _]. by split.
Qed.

Lemma entries_ok_new_cache : entries_ok new_cache.
Proof. intros name v. simpl. by rewrite lookup_empty. Qed.

End RunQueryContext.

Section RunQueryBranches.
Context `{Builtins}.
Variable db : InMemoryDb.
Variable factTables : FactTableRegistry.
Variable metricRegistry : MetricRegistry.

(** Filters on columns outside the grain leave the rows as they are. *)
Lemma applyContextToFact_skip (rows : list Row) (context : FilterContext)
    (grain : list string) :
  (∀ k, In k (obj_keys context) → ¬ In k grain) →
  applyContextToFact rows context grain = rows.
Proof.
  unfold applyContextToFact. revert rows.
  induction context as [|[k f] context IH]; intros rows Hskip; simpl; [done |].
  assert (includes grain k = false) as ->.
  { destruct (includes grain k) eqn:Hinc; [| done].
    apply includes_In in Hinc. destruct (Hskip k); [by left | done]. }
  simpl. destruct (filter_nullish f); apply IH; intros k' Hk'; apply Hskip; by right.
Qed.

Lemma context_of_transforms_keys (transforms : ContextTransformsRegistry) :
  obj_keys (context_of_transforms transforms) = obj_keys transforms.
Proof.
  unfold obj_keys, context_of_transforms. rewrite map_map. by apply map_ext.
Qed.

Lemma groupBy_nonempty {A} (f : A → string) (l : list A) :
  l ≠ [] → Linq.groupBy f l ≠ [].
Proof.
  destruct l as [|x l]; [done |]. intros _ Hnil.
  destruct (groupBy_member f (x :: l) x) as (xs & Hin & _); [by left |].
  by rewrite Hnil in Hin.
Qed.

(** X26.  A query that requests a context-transform metric whose transform
    is none of the names every object inherits does not return when some row
    passes its filters: [runQuery] hands [evaluateMetric] the row context
    where the transforms registry is expected, and a row context holds no
    function of its own to call. *)
Theorem runQuery_contextTransform_fails fuel transforms dimensionConfig options
    factRows m def result :
  facts db !! factForRows options = Some factRows →
  applyContextToFact factRows (default [] (filters options))
    (obj_keys (default [] (head factRows))) ≠ [] →
  In m (metrics options) →
  metricRegistry !! m = Some (contextTransform def) →
  inherited (transform def) = false →
  runQuery db factTables metricRegistry fuel transforms dimensionConfig options
  ≠ Ok result.
Proof.
  intros Hrows Hsome Hm Hdef _. unfold runQuery, Row, Obj in *. rewrite Hrows.
  destruct (runQueryGroups _ _ _ _ _ _ _ _ _ _) as [[result' st']| |] eqn:Hloop;
    [| done | done].
  destruct (runQueryGroups_entries_ok db factTables metricRegistry
              (context_of_transforms transforms) _ _ _ _ _ eq_refl _ _ _ _
              (entries_ok_new_cache _ _ _ _) Hloop) as [_ Hno].
  destruct (Hno (groupBy_nonempty _ _ Hsome) m def Hm Hdef).
Qed.

(** X27.  In the rows a query returns, a fact-measure metric shows its
    value under the empty context, whatever the filters and the group of the
    row are, when no transform is named like a column of the metric's grain:
    the call in [runQuery] passes the transforms registry as the context. *)
Theorem runQuery_factMeasure_unfiltered fuel transforms dimensionConfig options
    m def result :
  runQuery db factTables metricRegistry fuel transforms dimensionConfig options
  = Ok result →
  In m (metrics options) →
  metricRegistry !! m = Some (factMeasure def) →
  (∀ factDef k, factTables !! factTable def = Some factDef →
     In k (obj_keys transforms) →
     ¬ In k (default (table_grain factDef) (fm_grain def))) →
  ∀ row, In row result →
    ∃ v, value_of (evaluateFactMeasure db factTables m def [] new_cache) = Ok v
         ∧ obj_get m row = Some (formatValue v (fm_format def)).
Proof.
  unfold runQuery. destruct (facts db !! factForRows options) as [factRows|]; [| done].
  destruct (runQueryGroups _ _ _ _ _ _ _ _ _ _) as [[result' st']| |] eqn:Hloop;
    [| done | done].
  intros [= ->] Hm Hdef Hgrain row Hrow.
  destruct (runQueryGroups_values _ _ _ _ _ _ _ _ _ _ _ _ Hloop)
    as (_ & new & -> & _ & Hnew).
  destruct (Hnew _ Hrow _ Hm) as (v & def' & Hkey & Hdef' & Hget).
  destruct (runQueryGroups_entries_ok db factTables metricRegistry
              (context_of_transforms transforms) _ _ _ _ _ eq_refl _ _ _ _
              (entries_ok_new_cache _ _ _ _) Hloop) as [Hinv _].
  destruct (Hinv _ _ Hkey) as [_ Hvalue]. specialize (Hvalue _ Hdef).
  exists v. split.
  - rewrite <- Hvalue. unfold evaluateFactMeasure, bind.
    destruct (factTables !! factTable def) as [factDef|] eqn:Htable; simpl; [| done].
    destruct (facts db !! factTable def) as [tableRows|]; simpl; [| done].
    rewrite applyContextToFact_skip; [done |].
    intros k Hk. rewrite context_of_transforms_keys in Hk. by eapply Hgrain.
  - rewrite Hget. unfold MetricRegistry in *. rewrite Hdef in Hdef'.
    by injection Hdef' as <-.
Qed.

End RunQueryBranches.

Section RunQueryRows.
Context `{Builtins}.
Variable db : InMemoryDb.
Variable factTables : FactTableRegistry.
Variable metricRegistry : MetricRegistry.

Lemma pick_NoDup (r : Row) (keys : list string) : NoDup (map fst (pick r keys)).
Proof.
  unfold pick.
  cut (∀ out : Row, NoDup (map fst out) →
         NoDup (map fst (fold_left (λ out k, match cell r k with
                                             | PUndefined => out
                                             | v => obj_set k v out
                                             end) keys out))).
  { intros Hcut. apply Hcut. constructor. }
  induction keys as [|k keys IH]; intros out Hnd; simpl; [done |].
  apply IH. destruct (cell r k); try done; by apply obj_set_NoDup.
Qed.

Lemma obj_get_omap (o : Row) k :
  NoDup (map fst o) →
  obj_get k (omap (λ kv, v ← json_roundtrip_prim kv.2; Some (kv.1, v)) o)
  = obj_get k o ≫= json_roundtrip_prim.
Proof.
  induction o as [|[k0 v0] o IH]; simpl; [done |].
  intros [Hk0 Hnd]%NoDup_cons.
  destruct (json_roundtrip_prim v0) as [v'|] eqn:Hv; simpl.
  - destruct (String.eqb_spec k0 k) as [-> | Hne]; [by simpl | by apply IH].
  - destruct (String.eqb_spec k0 k) as [-> | Hne]; [| by apply IH].
    etrans; [by apply IH |]. simpl. rewrite Hv.
    by rewrite (obj_get_None o k).
Qed.

Lemma omap_keys_NoDup (o : Row) :
  NoDup (map fst o) →
  NoDup (map fst (omap (λ kv, v ← json_roundtrip_prim kv.2; Some (kv.1, v)) o)).
Proof.
  induction o as [|[k0 v0] o IH]; simpl; [done |].
  intros [Hk0 Hnd]%NoDup_cons.
  destruct (json_roundtrip_prim v0) as [v'|]; simpl; [| by apply IH].
  apply NoDup_cons. split; [| by apply IH].
  intros Hin. apply Hk0. apply list_elem_of_fmap in Hin as ([k1 v1] & -> & Hin).
  apply list_elem_of_omap in Hin as ([k2 v2] & Hin & Heq). simpl in *.
  destruct (json_roundtrip_prim v2); simplify_eq/=.
  apply list_elem_of_fmap. by exists (k1, v2).
Qed.

(** What the key object of a group reads as: the picked cells of the first
    row, as JSON gives them back. *)
Lemma json_roundtrip_pick (r : Row) (keys : list string) k :
  In k keys →
  cell (json_roundtrip (pick r keys)) k
  = match cell r k with PNum NaN => PNull | v => v end.
Proof.
  intros Hk. unfold cell at 1, json_roundtrip.
  rewrite obj_get_copy by apply omap_keys_NoDup, pick_NoDup.
  rewrite obj_get_omap by apply pick_NoDup.
  rewrite pick_get. apply includes_In in Hk. rewrite Hk.
  destruct (cell r k) as [| |b|[|q]|s]; done.
Qed.

Lemma enrichDimensions_NoDup (keyObj : Row) (config : DimensionConfig) :
  NoDup (map fst (enrichDimensions keyObj db config)).
Proof.
  rewrite enrichDimensions_fold.
  cut (∀ result, NoDup (map fst result) →
         NoDup (map fst (fold_left (enrichStep db keyObj) config result))).
  { intros Hcut. apply Hcut, obj_assign_NoDup. constructor. }
  induction config as [|[dimKey cfg] config IH]; intros result Hnd; simpl; [done |].
  apply IH. destruct (nullish _); [done |].
  destruct (dimensions db !! table cfg) as [dimTable|]; [| done].
  destruct (List.find _ _); [| done]. by apply obj_set_NoDup.
Qed.

(** The rows the loop over the groups adds, group by group. *)
Lemma runQueryGroups_rows fuel transforms dimensionConfig options groups :
  ∀ result st result' st',
    runQueryGroups db factTables metricRegistry fuel transforms dimensionConfig
      options groups result st = Ok (result', st') →
    ∃ new,
      result' = result ++ new
      ∧ Forall2
          (λ g row, ∀ k, ¬ In k (metrics options) →
             (∀ entry, In entry dimensionConfig → labelAlias entry.2 ≠ k) →
             cell row k = cell (groupKeyObj (rows options) g) k)
          groups new.
Proof.
  induction groups as [|g groups IH]; intros result st result' st'; simpl.
  - unfold ret. intros [= <- <-]. exists []. by rewrite app_nil_r.
  - intros (mv & st1 & Hmv & Hrest)%bind_Ok.
    destruct (runQueryMetrics_values _ _ _ _ _ _ _ [] _ _ _ (NoDup_nil_2 (A:=string)) Hmv)
      as (_ & Hnd & Hother & _).
    destruct (IH _ _ _ _ Hrest) as (new & -> & Hnew).
    eexists (_ :: new). split; [by rewrite <- app_assoc |].
    constructor; [| done]. intros k Hk Halias. unfold cell, obj_spread2.
    rewrite obj_get_assign, obj_get_rev, (Hother _ Hk) by done. simpl.
    rewrite obj_get_copy by apply enrichDimensions_NoDup.
    rewrite enrichDimensions_fold, enrich_fold_other by done.
    destruct g as [key [|r members]]; [done |].
    unfold groupKeyObj. simpl. rewrite obj_get_copy; [done |].
    unfold json_roundtrip. apply obj_assign_NoDup. constructor.
Qed.

(** X28.  The rows a query returns are in the order of the groups, that
    is, of the first occurrence of each group key among the rows that pass
    the filters; each shows, under a requested dimension that is neither a
    requested metric nor a label alias, the value of the first row of its
    group, with null for NaN. *)
Theorem runQuery_row_dimensions fuel transforms dimensionConfig options factRows result :
  facts db !! factForRows options = Some factRows →
  runQuery db factTables metricRegistry fuel transforms dimensionConfig options
  = Ok result →
  Forall2
    (λ g row,
       ∃ r members,
         g.2 = r :: members
         ∧ ∀ k, In k (rows options) → ¬ In k (metrics options) →
             (∀ entry, In entry dimensionConfig → labelAlias entry.2 ≠ k) →
             cell row k = match cell r k with PNum NaN => PNull | v => v end)
    (Linq.groupBy (groupKey (rows options))
       (applyContextToFact factRows (default [] (filters options))
          (obj_keys (default [] (head factRows)))))
    result.
Proof.
  intros Hrows. unfold runQuery, Row, Obj in *. rewrite Hrows.
  pose proof (group_key_of_first_row (rows options)
                (applyContextToFact factRows (default [] (filters options))
                   (obj_keys (default [] (head factRows))))) as Hfirst.
  revert Hfirst. unfold Row, Obj.
  generalize (Linq.groupBy (groupKey (rows options))
                (applyContextToFact factRows (default [] (filters options))
                   (obj_keys (default [] (head factRows))))).
  intros groups Hfirst.
  destruct (runQueryGroups _ _ _ _ _ _ _ _ _ _) as [[result' st']| |] eqn:Hloop;
    [| done | done].
  intros [= ->].
  destruct (runQueryGroups_rows _ _ _ _ _ _ _ _ _ Hloop) as (new & -> & Hnew).
  simpl. clear Hloop.
  induction Hnew as [|g row groups' new Hrow _ IH]; constructor.
  - destruct (Hfirst g (or_introl eq_refl)) as (r & members & Hmembers & _).
    exists r, members. split; [done |]. intros k Hk Hmetric Halias.
    rewrite (Hrow k Hmetric Halias). destruct g as [key xs]. simpl in Hmembers.
    subst xs. unfold groupKeyObj. simpl. by apply json_roundtrip_pick.
  - apply IH. intros g' Hg'. apply Hfirst. right. exact Hg'.
Qed.

End RunQueryRows.

(* ===================================================================== *)
(** ** The further properties on the demo data                            *)
(* ===================================================================== *)

Lemma applyContextToFact_order_witness :
  applyContextToFact salesRows
    [("year", FPrim (num 2025)); ("month", FPrim (num 2))]
    ["year"; "month"; "regionId"; "productId"]
  = applyContextToFact salesRows
      [("month", FPrim (num 2)); ("year", FPrim (num 2025))]
      ["year"; "month"; "regionId"; "productId"].
Proof.
  apply (applyContextToFact_order salesRows
           [("year", FPrim (num 2025)); ("month", FPrim (num 2))]
           [("month", FPrim (num 2)); ("year", FPrim (num 2025))]
           ["year"; "month"; "regionId"; "productId"]).
  apply perm_swap.
Defined.

Lemma pick_pick_witness :
  pick (pick (salesRow 2025 2 "NA" 1 8 950) ["regionId"; "productId"]) ["regionId"]
  = pick (salesRow 2025 2 "NA" 1 8 950) ["regionId"].
Proof.
  apply (pick_pick (salesRow 2025 2 "NA" 1 8 950) ["regionId"; "productId"]
           ["regionId"]).
  intros k [<- | []]. by left.
Defined.



Lemma cacheKey_name_inj_witness :
  cacheKey "totalSalesAmount" ctx2025_02 = cacheKey "totalSalesAmount" ctx2025_02
  ∧ "totalSalesAmount" = "totalSalesAmount".
Proof.
  split; [reflexivity |].
  apply (cacheKey_name_inj "totalSalesAmount" "totalSalesAmount" ctx2025_02).
  reflexivity.
Defined.

Lemma evaluateMetric_cache_grows_witness :
  ∃ v st',
    evaluateMetric demoDb demoFactTables demoMetrics 8 "salesVsBudgetPct" ctx2025_02
      demoTransforms new_cache = Ok (v, st')
    ∧ cache new_cache ⊆ cache st'
    ∧ cache st' !! cacheKey "salesVsBudgetPct" ctx2025_02 = Some v.
Proof.
  eexists _, _. split.
  - vm_compute. reflexivity.
  - apply (evaluateMetric_cache_grows demoDb demoFactTables demoMetrics 8
             "salesVsBudgetPct" ctx2025_02 demoTransforms new_cache).
    vm_compute. reflexivity.
Defined.

Lemma self_dependency_diverges_witness :
  evaluateMetric demoDb demoFactTables selfMetrics 1000 "self" ctx2025_02
    demoTransforms new_cache
  = OutOfFuel.
Proof.
  apply (self_dependency_diverges demoDb demoFactTables selfMetrics "self" selfDef []
           ctx2025_02 demoTransforms new_cache); reflexivity.
Defined.

Lemma derived_composition_witness :
  ∃ v depValues,
    v = evalFromDeps salesVsBudgetPctDef depValues demoDb ctx2025_02
    ∧ (∀ dep, In dep (dependencies salesVsBudgetPctDef) →
         ∃ fuel' w,
           value_of (evaluateMetric demoDb demoFactTables demoMetrics fuel' dep
                       ctx2025_02 ytdTransforms new_cache) = Ok w
           ∧ obj_get dep depValues = Some w)
    ∧ (∀ k, ¬ In k (dependencies salesVsBudgetPctDef) → obj_get k depValues = None).
Proof.
  eexists.
  apply (derived_composition demoDb demoFactTables demoMetrics ytdTransforms ytdReach
           ytdReach_closed ytdReach_keys 8 "salesVsBudgetPct" salesVsBudgetPctDef
           ctx2025_02).
  - by left.
  - reflexivity.
  - vm_compute. reflexivity.
Defined.

Lemma evaluateMetrics_keys_witness :
  is_Some (obj_get "budgetYTD" ytdResults) ↔ In "budgetYTD" ytdNames.
Proof.
  apply (evaluateMetrics_keys demoDb demoFactTables demoMetrics 8 ytdNames ctx2025_02
           ytdTransforms ytdResults).
  vm_compute. reflexivity.
Defined.

Lemma addContextTransformMetric_conservative_witness :
  ∃ r,
    evaluateMetric demoDb demoFactTables
      (addContextTransformMetric demoMetrics
         (transformMetricDef "budgetYTDLastYear" "totalBudget" "ytdLastYear"))
      8 "salesVsBudgetPct" ctx2025_02 demoTransforms new_cache
    = Ok r.
Proof.
  eexists.
  apply (addContextTransformMetric_conservative demoDb demoFactTables demoMetrics
           (transformMetricDef "budgetYTDLastYear" "totalBudget" "ytdLastYear")
           8 "salesVsBudgetPct" ctx2025_02 demoTransforms new_cache).
  - vm_compute. reflexivity.
  - vm_compute. reflexivity.
Defined.

Lemma runQuery_no_rows_witness :
  runQuery demoDb demoFactTables demoMetrics 8 demoTransforms demoDimensionConfig
    query1999
  = Ok [].
Proof.
  apply (runQuery_no_rows demoDb demoFactTables demoMetrics 8 demoTransforms
           demoDimensionConfig query1999 salesRows).
  - vm_compute. reflexivity.
  - vm_compute. reflexivity.
Defined.

Lemma runQuery_row_count_witness :
  ∃ keys,
    length demoQueryRows = length keys
    ∧ NoDup keys
    ∧ ∀ k, In k keys ↔
        ∃ r, In r (applyContextToFact salesRows (default [] (filters demoQuery))
                     (obj_keys (default [] (head salesRows))))
             ∧ groupKey (rows demoQuery) r = k.
Proof.
  apply (runQuery_row_count demoDb demoFactTables demoMetrics 8 demoTransforms
           demoDimensionConfig demoQuery salesRows demoQueryRows).
  - vm_compute. reflexivity.
  - vm_compute. reflexivity.
Defined.

Lemma runQuery_metric_uniform_witness :
  ∃ shown,
    (shown = PNull ∨ ∃ s, shown = PStr s)
    ∧ ∀ row, In row demoQueryRows → obj_get "totalSalesAmount" row = Some shown.
Proof.
  apply (runQuery_metric_uniform demoDb demoFactTables demoMetrics 8 demoTransforms
           demoDimensionConfig demoQuery demoQueryRows).
  - vm_compute. reflexivity.
  - by left.
Defined.

Lemma ctx2025_02_wf : obj_wf ctx2025_02.
Proof.
  split.
  - apply (bool_decide_unpack _). vm_compute. exact I.
  - exists []. split; [reflexivity |]. split; [constructor |].
    split; [constructor | reflexivity].
Qed.

Lemma ytdLastYear_composition_witness :
  ytd (lastYear ctx2025_02) = ytdLastYear ctx2025_02
  ∧ lastYear (ytd ctx2025_02) = ytdLastYear ctx2025_02.
Proof.
  apply (proj1 (ytdLastYear_composition ctx2025_02 ctx2025_02_wf)).
  right. reflexivity.
Defined.

Lemma runPlaygroundQuery_fresh_overrides_witness :
  runPlaygroundQuery 8 defaultQueryRequest
    [factMetric "salesCount" "sales" "quantity" None "integer"]
  = Ok playgroundRows.
Proof.
  apply (runPlaygroundQuery_fresh_overrides 8 defaultQueryRequest
           [factMetric "salesCount" "sales" "quantity" None "integer"] playgroundRows).
  - intros metric [<- | []]. vm_compute. reflexivity.
  - vm_compute. reflexivity.
Defined.

Lemma updateFilter_lookup_witness :
  obj_get "month" (rq_filters (updateFilter defaultQueryRequest "month" "3"))
  = Some (FPrim (num 3))
  ∧ obj_get "year" (rq_filters (updateFilter defaultQueryRequest "month" "3"))
    = Some (FPrim (num 2025)).
Proof.
  split.
  - etrans; [apply (updateFilter_lookup defaultQueryRequest "month" "3" "month") |].
    + apply (bool_decide_unpack _). vm_compute. exact I.
    + vm_compute. reflexivity.
  - etrans; [apply (updateFilter_lookup defaultQueryRequest "month" "3" "year") |].
    + apply (bool_decide_unpack _). vm_compute. exact I.
    + vm_compute. reflexivity.
Defined.

Lemma runQuery_contextTransform_fails_witness :
  In "salesAmountYTD" (metrics ytdQuery)
  ∧ runQuery demoDb demoFactTables demoMetrics 8 demoTransforms demoDimensionConfig
      ytdQuery
    ≠ Ok [].
Proof.
  split; [by left |].
  apply (runQuery_contextTransform_fails demoDb demoFactTables demoMetrics 8
           demoTransforms demoDimensionConfig ytdQuery salesRows "salesAmountYTD"
           salesAmountYTD []).
  - vm_compute. reflexivity.
  - vm_compute. discriminate.
  - by left.
  - reflexivity.
  - reflexivity.
Defined.

Lemma runQuery_factMeasure_unfiltered_witness :
  ∃ v,
    value_of (evaluateFactMeasure demoDb demoFactTables "totalSalesAmount"
                (factMetricDef "totalSalesAmount" "sales" "amount" None "currency")
                [] new_cache) = Ok v
    ∧ obj_get "totalSalesAmount"
        [("regionId", PStr "NA"); ("productId", num 1);
         ("regionName", PStr "North America"); ("productName", PStr "Widget A");
         ("totalSalesAmount", PStr "$5750.00")]
      = Some (formatValue v (Some "currency")).
Proof.
  apply (runQuery_factMeasure_unfiltered demoDb demoFactTables demoMetrics 8
           demoTransforms demoDimensionConfig demoQuery "totalSalesAmount"
           (factMetricDef "totalSalesAmount" "sales" "amount" None "currency")
           demoQueryRows).
  - vm_compute. reflexivity.
  - by left.
  - reflexivity.
  - intros factDef k Hdef Hk Hin. vm_compute in Hdef. injection Hdef as <-.
    simpl in Hk, Hin.
    destruct Hk as [<- | [<- | [<- | []]]];
      destruct Hin as [Hin | [Hin | [Hin | [Hin | []]]]]; discriminate.
  - left. reflexivity.
Defined.

Lemma unknownMetric_errors_witness :
  evaluateMetric demoDb demoFactTables demoMetrics 1 "noSuchMetric" ctx2025_02
    demoTransforms new_cache
  = Throw (UnknownMetric "noSuchMetric").
Proof.
  apply (proj1 (unknownMetric_errors demoDb demoFactTables demoMetrics) 0%nat
           "noSuchMetric" ctx2025_02 demoTransforms new_cache);
    vm_compute; reflexivity.
Defined.

Lemma reference_errors_witness :
  evaluateMetric demoDb demoFactTables demoMetrics 1 "salesAmountYTD" ctx2025_02
    [("lastYear", TFn lastYear)] new_cache
  = Throw (UnknownContextTransform "ytd").
Proof.
  apply (proj2 (reference_errors demoDb demoFactTables demoMetrics) 0%nat
           "salesAmountYTD" salesAmountYTD ctx2025_02 [("lastYear", TFn lastYear)]
           new_cache);
    reflexivity.
Defined.

Lemma toggle_membership_witness :
  toggleRow (toggleRow defaultQueryRequest "year") "year" = defaultQueryRequest.
Proof.
  apply (proj1 (proj2 (proj2 (toggle_membership defaultQueryRequest "year")))).
  intros [Hin | [Hin | []]]; discriminate.
Defined.

Lemma runQuery_row_dimensions_witness :
  Forall2
    (λ g row,
       ∃ r members,
         g.2 = r :: members
         ∧ ∀ k, In k (rows demoQuery) → ¬ In k (metrics demoQuery) →
             (∀ entry, In entry demoDimensionConfig → labelAlias entry.2 ≠ k) →
             cell row k = match cell r k with PNum NaN => PNull | v => v end)
    (Linq.groupBy (groupKey (rows demoQuery))
       (applyContextToFact salesRows (default [] (filters demoQuery))
          (obj_keys (default [] (head salesRows)))))
    demoQueryRows.
Proof.
  apply (runQuery_row_dimensions demoDb demoFactTables demoMetrics 8 demoTransforms
           demoDimensionConfig demoQuery salesRows demoQueryRows);
    vm_compute; reflexivity.
Defined.

(* ===================================================================== *)
(** ** The cache key and the order of the properties                      *)
(* ===================================================================== *)

Section JsonText.

Local Notation "'chars'" := (String.list_ascii_of_string).

(** The escapes of two different characters do not start alike, and no
    escape starts with the quote. *)
Lemma json_escape_char_codes :
  forallb
    (λ n1, forallb
             (λ n2, bool_decide (n1 = n2)
                    || negb (bool_decide
                               (chars (json_escape_char (ascii_of_nat n1))
                                `prefix_of`
                                chars (json_escape_char (ascii_of_nat n2)))))
             (seq 0 256))
    (seq 0 256)
  = true
  ∧ forallb
      (λ n, match json_escape_char (ascii_of_nat n) with
            | String a _ => negb (Ascii.eqb a dquote)
            | EmptyString => false
            end)
      (seq 0 256)
    = true.
Proof. split; vm_compute; reflexivity. Qed.

Lemma ascii_code (c : ascii) :
  In (nat_of_ascii c) (seq 0 256) ∧ ascii_of_nat (nat_of_ascii c) = c.
Proof.
  split; [| apply ascii_nat_embedding].
  apply in_seq. pose proof (nat_ascii_bounded c). lia.
Qed.

Lemma json_escape_char_prefix (c1 c2 : ascii) :
  chars (json_escape_char c1) `prefix_of` chars (json_escape_char c2) → c1 = c2.
Proof.
  intros Hprefix. destruct json_escape_char_codes as [Hcodes _].
  destruct (ascii_code c1) as [Hin1 Hc1], (ascii_code c2) as [Hin2 Hc2].
  rewrite forallb_forall in Hcodes. specialize (Hcodes _ Hin1).
  rewrite forallb_forall in Hcodes. specialize (Hcodes _ Hin2).
  rewrite Hc1, Hc2 in Hcodes.
  apply orb_true_iff in Hcodes as [Heq%bool_decide_eq_true | Hno].
  - by rewrite <- Hc1, <- Hc2, Heq.
  - apply negb_true_iff, bool_decide_eq_false in Hno. by destruct Hno.
Qed.

Lemma json_escape_char_head (c : ascii) :
  ∃ a s, json_escape_char c = String a s ∧ a ≠ dquote.
Proof.
  destruct json_escape_char_codes as [_ Hcodes].
  destruct (ascii_code c) as [Hin Hc].
  rewrite forallb_forall in Hcodes. specialize (Hcodes _ Hin). rewrite Hc in Hcodes.
  destruct (json_escape_char c) as [|a s]; [done |]. exists a, s. split; [done |].
  intros ->. by rewrite Ascii.eqb_refl in Hcodes.
Qed.

(** The text of a quoted string ends at its closing quote: what follows two
    quoted strings that start a text alike is the same. *)
Lemma json_escape_term (k1 k2 : string) (r1 r2 : list ascii) :
  chars (json_escape k1) ++ dquote :: r1 = chars (json_escape k2) ++ dquote :: r2 →
  k1 = k2 ∧ r1 = r2.
Proof.
  revert k2. induction k1 as [|c1 k1 IH]; intros [|c2 k2]; simpl.
  - by intros [= ->].
  - rewrite list_ascii_app.
    destruct (json_escape_char_head c2) as (a & s & -> & Ha). simpl. congruence.
  - rewrite list_ascii_app.
    destruct (json_escape_char_head c1) as (a & s & -> & Ha). simpl. congruence.
  - rewrite !list_ascii_app, <- !app_assoc. intros Heq.
    assert (c1 = c2) as <-.
    { destruct (prefix_weak_total (chars (json_escape_char c1))
                  (chars (json_escape_char c2))
                  (chars (json_escape_char c1) ++ chars (json_escape k1) ++ dquote :: r1))
        as [Hp | Hp].
      - by eexists.
      - rewrite Heq. by eexists.
      - by apply json_escape_char_prefix.
      - symmetry. by apply json_escape_char_prefix. }
    apply app_inv_head in Heq. destruct (IH _ Heq) as [-> ->]. done.
Qed.

Lemma json_quote_term (k1 k2 : string) (r1 r2 : list ascii) :
  chars (json_quote k1) ++ r1 = chars (json_quote k2) ++ r2 → k1 = k2 ∧ r1 = r2.
Proof.
  unfold json_quote. simpl. rewrite !list_ascii_app. simpl.
  rewrite <- !app_assoc. simpl. intros [= Heq]. by apply json_escape_term.
Qed.

(** The text of the entries of an object, as [json_object] joins them. *)
Lemma join_cons (e : string) (es : list string) :
  chars (join "," (e :: es))
  = chars e ++ match es with
               | [] => []
               | _ :: _ => chars "," ++ chars (join "," es)
               end.
Proof.
  destruct es as [|e' es]; simpl; [by rewrite app_nil_r |].
  by rewrite !list_ascii_app.
Qed.

Lemma pair_unique {A} (o : Obj A) k v v' :
  NoDup (map fst o) → In (k, v) o → In (k, v') o → v = v'.
Proof.
  intros Hnd Hv Hv'. apply In_obj_get in Hv; [| done]. apply In_obj_get in Hv'; [| done].
  congruence.
Qed.

Local Notation "'entries' ser o" :=
  (omap (λ kv, s ← ser kv.2; Some (json_quote kv.1 +:+ ":" +:+ s)) o)
  (at level 10, ser at level 9, o at level 9, only parsing).

Lemma entries_cons {A} (ser : A → option string) k v s (o : Obj A) :
  ser v = Some s →
  entries ser ((k, v) :: o) = (json_quote k +:+ ":" +:+ s) :: entries ser o.
Proof. intros Hs. cbn [omap list_omap]. simpl. by rewrite Hs. Qed.

(** Two objects with the same properties, all of them written, whose texts
    are the same, list their properties in the same order. *)
Lemma json_entries_inj {A} (ser : A → option string) (o1 : Obj A) :
  ∀ o2 : Obj A,
    NoDup (map fst o1) → o1 ≡ₚ o2 →
    (∀ kv, In kv o1 → ser kv.2 ≠ None) →
    chars (join "," (entries ser o1)) = chars (join "," (entries ser o2)) →
    o1 = o2.
Proof.
  cut (∀ o2 : Obj A,
         NoDup (map fst o1) → o1 ≡ₚ o2 →
         (∀ kv, In kv o1 → ser kv.2 ≠ None) →
         ∀ r,
           chars (join "," (entries ser o1)) ++ r
           = chars (join "," (entries ser o2)) ++ r →
           o1 = o2).
  { intros Hcut o2 Hnd Hperm Hser Heq. apply (Hcut o2 Hnd Hperm Hser []).
    by rewrite !app_nil_r. }
  induction o1 as [|[k1 v1] o1 IH]; intros o2 Hnd Hperm Hser r.
  { apply Permutation_nil_l in Hperm as ->. done. }
  destruct o2 as [|[k2 v2] o2]; [by apply Permutation_nil_r in Hperm |].
  assert (∀ kv, In kv ((k2, v2) :: o2) → ser kv.2 ≠ None) as Hser2.
  { intros kv Hkv. apply Hser. apply list_elem_of_In. rewrite Hperm.
    by apply list_elem_of_In. }
  destruct (ser v1) as [s1|] eqn:Hs1; [| by destruct (Hser (k1, v1)); [left |]].
  destruct (ser v2) as [s2|] eqn:Hs2; [| by destruct (Hser2 (k2, v2)); [left |]].
  rewrite (entries_cons ser k1 v1 s1 o1 Hs1), (entries_cons ser k2 v2 s2 o2 Hs2).
  rewrite !join_cons, !list_ascii_app, <- !app_assoc. intros Heq.
  apply json_quote_term in Heq as [<- Heq].
  assert (v2 = v1) as ->.
  { apply (pair_unique ((k1, v1) :: o1) k1); [done | | by left].
    apply list_elem_of_In. rewrite Hperm. by left. }
  rewrite Hs1 in Hs2. injection Hs2 as <-.
  apply Permutation_cons_inv in Hperm.
  apply app_inv_head, app_inv_head in Heq.
  f_equal. simpl in Hnd. apply NoDup_cons in Hnd as [_ Hnd].
  assert (∀ kv, In kv o1 → ser kv.2 ≠ None) as Hser1.
  { intros kv Hkv. apply Hser. by right. }
  destruct o1 as [|[k3 v3] o1'], o2 as [|[k4 v4] o2'].
  - done.
  - by apply Permutation_nil_l in Hperm.
  - by apply Permutation_nil_r in Hperm.
  - apply (IH _ Hnd Hperm Hser1 r).
    assert (∀ kv, In kv ((k4, v4) :: o2') → ser kv.2 ≠ None) as Hser4.
    { intros kv Hkv. apply Hser2. by right. }
    destruct (ser v3) as [s3|] eqn:Hs3; [| by destruct (Hser1 (k3, v3)); [left |]].
    destruct (ser v4) as [s4|] eqn:Hs4; [| by destruct (Hser4 (k4, v4)); [left |]].
    revert Heq.
    rewrite (entries_cons ser k3 v3 s3 o1' Hs3), (entries_cons ser k4 v4 s4 o2' Hs4).
    rewrite <- !app_assoc. intros Heq. by apply app_inv_head in Heq.
Qed.

End JsonText.

Section CacheKeyOrder.
Context `{Builtins}.

Lemma append_inv_head (p s1 s2 : string) : p +:+ s1 = p +:+ s2 → s1 = s2.
Proof. induction p as [|a p IH]; simpl; [done |]. intros [= Heq]. by apply IH. Qed.

(** The properties of an object literal that are not array indices are
    those of its pairs, in the order of the pairs. *)
Lemma named_part_assign {A} (l : list (string * A)) :
  NoDup (map fst l) → named_part (obj_assign [] l) = named_part l.
Proof.
  intros Hnd. destruct (enumerates_assign l Hnd) as (idx & -> & Hidx & _ & _).
  by rewrite named_part_app, (named_part_none idx),
    (named_part_all _ (named_part_Forall l)).
Qed.

(** C3, as amended.  Two contexts built from the same key/value pairs have
    the same cache key when their keys that are not array indices were
    assigned in the same order (array-index keys may have been assigned in
    any order); and when every value is one the serialization writes
    (neither undefined nor a function), they have the same cache key only
    then: the text lists the properties in their enumeration order, and a
    different order of the names gives a different text. *)
Theorem cacheKey_insertion_order_of_names (metricName : string)
    (l1 l2 : list (string * FilterValue)) :
  NoDup (map fst l1) →
  l1 ≡ₚ l2 →
  (named_part l1 = named_part l2 →
   cacheKey metricName (obj_assign [] l1) = cacheKey metricName (obj_assign [] l2))
  ∧ ((∀ kv, In kv l1 → json_filter kv.2 ≠ None) →
     cacheKey metricName (obj_assign [] l1) = cacheKey metricName (obj_assign [] l2) →
     named_part l1 = named_part l2).
Proof.
  intros Hnd Hperm. split; [by apply cacheKey_same_named_order |].
  intros Hser Hkey.
  assert (NoDup (map fst l2)) as Hnd2.
  { by rewrite <- Hperm. }
  rewrite <- (named_part_assign l1 Hnd), <- (named_part_assign l2 Hnd2).
  destruct (enumerates_assign l1 Hnd) as (_ & _ & _ & _ & Hp1).
  destruct (enumerates_assign l2 Hnd2) as (_ & _ & _ & _ & Hp2).
  f_equal. apply (json_entries_inj json_filter).
  - by rewrite Hp1.
  - by rewrite Hp1, Hp2.
  - intros kv Hkv. apply Hser. apply list_elem_of_In. rewrite <- Hp1.
    by apply list_elem_of_In.
  - unfold cacheKey, json_object in Hkey.
    apply append_inv_head, append_inv_head in Hkey. simpl in Hkey.
    injection Hkey as Hkey.
    apply (f_equal String.list_ascii_of_string) in Hkey.
    rewrite !list_ascii_app in Hkey. simpl in Hkey. by apply app_inv_tail in Hkey.
Qed.

End CacheKeyOrder.

Lemma cacheKey_insertion_order_of_names_witness :
  let l1 := [("2", FPrim (num 20)); ("year", FPrim (num 2025));
             ("1", FPrim (num 10)); ("month", FPrim (num 2))] in
  let l2 := [("year", FPrim (num 2025)); ("1", FPrim (num 10));
             ("month", FPrim (num 2)); ("2", FPrim (num 20))] in
  let l3 := [("month", FPrim (num 2)); ("1", FPrim (num 10));
             ("year", FPrim (num 2025)); ("2", FPrim (num 20))] in
  cacheKey "totalSalesAmount" (obj_assign [] l1)
  = cacheKey "totalSalesAmount" (obj_assign [] l2)
  ∧ cacheKey "totalSalesAmount" (obj_assign [] l1)
    ≠ cacheKey "totalSalesAmount" (obj_assign [] l3).
Proof.
  split.
  - apply (cacheKey_insertion_order_of_names "totalSalesAmount"
             [("2", FPrim (num 20)); ("year", FPrim (num 2025));
              ("1", FPrim (num 10)); ("month", FPrim (num 2))]
             [("year", FPrim (num 2025)); ("1", FPrim (num 10));
              ("month", FPrim (num 2)); ("2", FPrim (num 20))]).
    + apply (bool_decide_unpack _). vm_compute. exact I.
    + apply (Permutation_cons_append
               [("year", FPrim (num 2025)); ("1", FPrim (num 10));
                ("month", FPrim (num 2))] ("2", FPrim (num 20))).
    + vm_compute. reflexivity.
  - intros Hkey.
    assert (named_part [("2", FPrim (num 20)); ("year", FPrim (num 2025));
                        ("1", FPrim (num 10)); ("month", FPrim (num 2))]
            = named_part [("month", FPrim (num 2)); ("1", FPrim (num 10));
                          ("year", FPrim (num 2025)); ("2", FPrim (num 20))])
      as Hnamed; [| vm_compute in Hnamed; discriminate].
    apply (cacheKey_insertion_order_of_names "totalSalesAmount"
             [("2", FPrim (num 20)); ("year", FPrim (num 2025));
              ("1", FPrim (num 10)); ("month", FPrim (num 2))]
             [("month", FPrim (num 2)); ("1", FPrim (num 10));
              ("year", FPrim (num 2025)); ("2", FPrim (num 20))]).
    + apply (bool_decide_unpack _). vm_compute. exact I.
    + apply (Permutation_rev
               [("2", FPrim (num 20)); ("year", FPrim (num 2025));
                ("1", FPrim (num 10)); ("month", FPrim (num 2))]).
    + intros kv [<- | [<- | [<- | [<- | []]]]]; discriminate.
    + exact Hkey.
Defined.
